(** * Aternos Guard: a model of the server and proofs about it

    The server is one Node.js process: module-level variables (the
    configuration with its user list, the session map, the bot handle, the
    status fields, the timer handles, the log buffer) and event handlers that
    run to completion one after the other.  The first part of the development
    follows that shape:

    - [JS]: the JavaScript values and primitives the handlers rely on (JSON
      values, truthiness, [String(v)], [trim], [parseInt]);
    - the configuration: [toPositiveInt], [normalizeUser], [loadConfig], the
      assignments of [POST /api/config];
    - the state of the process: the variables, and what the runtime holds for
      them (clients with listeners attached, pending timeouts, running
      intervals, what was broadcast);
    - the log buffer: [addLog] and [GET /api/logs];
    - users and sessions: [resolveAuthFromToken], the middlewares, and the
      [/api/auth] and [/api/users] handlers;
    - the bot controller: timers, [queueReconnect], [createBot] with the
      listeners it installs, [startBot], [stopBot], [restartBot];
    - the event loop as a step relation.

    The second part proves an invariant of the event loop (what the runtime
    holds agrees with the variables that refer to it) and, from it, the
    properties of the controller, the sessions, the log buffer, the numeric
    configuration fields and the user list.  The last part adds properties of
    the handlers themselves: who gets through the middlewares, signing in and
    out, what starting, stopping, restarting and reconnecting leave behind,
    that a bot meant to run always has a client or a reconnect scheduled, what
    the replies disclose, and that tokens stay distinct.

    Every handler takes the reading of [Date.now()] as an argument [now]; the
    clock is taken not to advance while one handler runs.  Random values
    ([crypto.randomUUID], [crypto.randomBytes]) are arguments too.  Writing the
    configuration file and printing to the console do not feed back into the
    handlers and are left out.  [String] and [parseInt] are modelled where they
    return, and [trim] and the white space of [parseInt] for single-byte
    characters; a statement of the last part that depends on either says so
    ([reads_as_text]). *)

From Stdlib Require Import ZArith String Ascii DecimalString Bool Lia.
From stdpp Require Import gmap strings list.

#[local] Set Warnings "-register-all".
Local Open Scope string_scope.
Local Open Scope list_scope.
Local Open Scope Z_scope.

(** ** JavaScript values and primitives *)

Module JS.

(** A value as [JSON.parse] returns it.  A number is carried as the decimal
    text that JavaScript's number-to-string conversion gives it, which is all
    that [String(v)] and [parseInt(v, 10)] look at; [JObj] lists the own
    properties of the parsed object. *)
Inductive json : Type :=
| JNull
| JBool (b : bool)
| JNum (repr : string)
| JStr (s : string)
| JArr (items : list json)
| JObj (fields : list (string * json)).

(** The result of a numeric primitive: [NaN], a finite integer-valued number,
    or an infinity.  (Negative zero is [Fin 0]: the code only compares.) *)
Inductive jsnum : Type :=
| NaN
| Fin (z : Z)
| PosInf
| NegInf.

(** [String(n)] for an integer-valued number within the exact range. *)
Definition string_of_Z (z : Z) : string := NilZero.string_of_int (Z.to_int z).

Definition js_of_Z (z : Z) : json := JNum (string_of_Z z).

Fixpoint assoc (k : string) (fs : list (string * json)) : option json :=
  match fs with
  | [] => None
  | (k', v) :: rest => if String.eqb k k' then Some v else assoc k rest
  end.

(** [v.k] for one of the named properties the server reads; [None] is
    [undefined].  Arrays, strings, numbers and booleans have none of them.
    ([null.k] throws; the callers test for [null] first.) *)
Definition prop (v : json) (k : string) : option json :=
  match v with
  | JObj fs => assoc k fs
  | _ => None
  end.

(** Truthiness.  The only falsy number JSON can hold is zero. *)
Definition truthy (v : json) : bool :=
  match v with
  | JNull => false
  | JBool b => b
  | JNum r => negb (String.eqb r "0")
  | JStr s => negb (String.eqb s "")
  | JArr _ | JObj _ => true
  end.

(** [v || d], where [v] may be [undefined]. *)
Definition or_else (v : option json) (d : json) : json :=
  match v with
  | Some x => if truthy x then x else d
  | None => d
  end.

(** [String(v)]: an array joins its elements with commas, [null] elements
    giving the empty text; an object gives its tag.  (That is the conversion
    where it returns; for an object with a property [toString] of its own it
    throws, see [String_returns] below.) *)
Fixpoint toString (v : json) : string :=
  match v with
  | JNull => "null"
  | JBool true => "true"
  | JBool false => "false"
  | JNum r => r
  | JStr s => s
  | JArr items =>
      (fix join (l : list json) : string :=
         match l with
         | [] => ""
         | x :: rest =>
             let here := match x with JNull => "" | _ => toString x end in
             match rest with
             | [] => here
             | _ => here +:+ "," +:+ join rest
             end
         end) items
  | JObj _ => "[object Object]"
  end.

(** [String(v)] where [v] may be [undefined]. *)
Definition toString_opt (v : option json) : string :=
  match v with
  | Some x => toString x
  | None => "undefined"
  end.

(** White space, as far as single-byte characters go: TAB, LF, VT, FF, CR and
    the space. *)
Definition is_ws (c : ascii) : bool :=
  let n := N_of_ascii c in
  (n =? 32)%N || ((9 <=? n)%N && (n <=? 13)%N).

Definition is_digit (c : ascii) : bool :=
  let n := N_of_ascii c in
  (48 <=? n)%N && (n <=? 57)%N.

Definition digit_value (c : ascii) : Z := Z.of_N (N_of_ascii c) - 48.

Fixpoint trimStart (s : string) : string :=
  match s with
  | String c rest => if is_ws c then trimStart rest else s
  | EmptyString => EmptyString
  end.

Fixpoint rev_onto (s acc : string) : string :=
  match s with
  | String c rest => rev_onto rest (String c acc)
  | EmptyString => acc
  end.

Definition reverse (s : string) : string := rev_onto s EmptyString.

(** [s.trim()] *)
Definition trim (s : string) : string :=
  reverse (trimStart (reverse (trimStart s))).

(** The value of the longest prefix of decimal digits, onto [acc]. *)
Fixpoint digits (s : string) (acc : Z) : Z :=
  match s with
  | String c rest => if is_digit c then digits rest (10 * acc + digit_value c) else acc
  | EmptyString => acc
  end.

(** The double nearest to the non-negative integer [m] (ties to even), or
    [None] when that is beyond the largest finite double. *)
Definition nearest_double (m : Z) : option Z :=
  let n := Z.log2 m in
  if n <? 53 then Some m
  else
    let e := n - 52 in
    let q := Z.shiftr m e in
    let r := Z.land m (Z.ones e) in
    let half := Z.shiftl 1 (e - 1) in
    let q' := if (half <? r) || ((r =? half) && Z.odd q) then q + 1 else q in
    let v := Z.shiftl q' e in
    if v <? 2 ^ 1024 then Some v else None.

(** [parseInt(s, 10)]: leading white space is skipped, one sign is read,
    then the longest run of digits; no digit gives [NaN]. *)
Definition parseInt (s : string) : jsnum :=
  let s1 := trimStart s in
  let '(negative, s2) :=
    match s1 with
    | String "-" rest => (true, rest)
    | String "+" rest => (false, rest)
    | _ => (false, s1)
    end in
  match s2 with
  | String c _ =>
      if is_digit c then
        match nearest_double (digits s2 0) with
        | Some m => Fin (if negative then - m else m)
        | None => if negative then NegInf else PosInf
        end
      else NaN
  | EmptyString => NaN
  end.

End JS.

Import JS.

(** ** Configuration *)

Inductive role : Type := admin | operator | viewer.

#[global] Instance role_eq_dec : EqDecision role.
Proof. solve_decision. Defined.

(** A time stamp field: absent, a value read back from the file as it is, or
    the ISO text of the instant [ms] ([new Date().toISOString()]). *)
Inductive stamp : Type :=
| SNull
| SRaw (v : json)
| SIso (ms : Z).

Record User : Type := mkUser {
  id : string;
  name : string;
  urole : role;
  token : string;
  createdAt : stamp;
  lastLoginAt : stamp
}.

Record Config : Type := mkConfig {
  host : string;
  port : Z;
  username : string;
  reconnectDelay : Z;
  pingInterval : Z;
  version : string;
  users : list User
}.

Definition DEFAULT_CONFIG : Config :=
  {| host := "yosef2903.aternos.me";
     port := 39695;
     username := "AternosGuard";
     reconnectDelay := 15000;
     pingInterval := 45000;
     version := "1.20.1";
     users := [] |}.

(** [toPositiveInt(value, fallback)]; [value] may be [undefined]. *)
Definition toPositiveInt (value : option json) (fallback : Z) : Z :=
  match parseInt (toString_opt value) with
  | Fin parsed => if 0 <? parsed then parsed else fallback
  | _ => fallback
  end.

(** [VALID_ROLES.includes(v) ? v : fallback] *)
Definition role_or (v : option json) (fallback : role) : role :=
  match v with
  | Some (JStr s) =>
      if String.eqb s "admin" then admin
      else if String.eqb s "operator" then operator
      else if String.eqb s "viewer" then viewer
      else fallback
  | _ => fallback
  end.

(** [normalizeUser(rawUser)]; [uuid] is what [crypto.randomUUID()] gives when
    asked, [None] is [null]. *)
Definition normalizeUser (now : Z) (uuid : string) (rawUser : json) : option User :=
  match rawUser with
  | JObj _ | JArr _ =>
      let name := trim (toString (or_else (prop rawUser "name") (JStr ""))) in
      let token := trim (toString (or_else (prop rawUser "token") (JStr ""))) in
      let role := role_or (prop rawUser "role") viewer in
      if String.eqb name "" || String.eqb token "" then None
      else
        Some {| id := toString (or_else (prop rawUser "id") (JStr uuid));
                name := name;
                urole := role;
                token := token;
                createdAt :=
                  match prop rawUser "createdAt" with
                  | Some v => if truthy v then SRaw v else SIso now
                  | None => SIso now
                  end;
                lastLoginAt :=
                  match prop rawUser "lastLoginAt" with
                  | Some v => if truthy v then SRaw v else SNull
                  | None => SNull
                  end |}
  | _ => None
  end.

(** [raw.users.map(normalizeUser).filter(Boolean)], the [i]-th element drawing
    the identifier [uuid i]. *)
Fixpoint normalizeUsers (now : Z) (uuid : nat -> string) (i : nat) (items : list json)
  : list User :=
  match items with
  | [] => []
  | x :: rest =>
      match normalizeUser now (uuid i) x with
      | Some u => u :: normalizeUsers now uuid (S i) rest
      | None => normalizeUsers now uuid (S i) rest
      end
  end.

(** What the process gets from outside when it loads its configuration. *)
Record load_env : Type := mkLoadEnv {
  file : option json;          (* config.json parsed; [None]: missing or unparsable *)
  ADMIN_TOKEN : option string; (* process.env.ADMIN_TOKEN *)
  uuid : nat -> string;        (* successive crypto.randomUUID() *)
  admin_token : string;        (* makeUserToken("admin") *)
  boot_time : Z                (* Date.now() *)
}.

(** [cfg.k] after [{ ...DEFAULT_CONFIG, ...raw }], for a text field. *)
Definition merged_text (raw : json) (k : string) (dflt : string) : string :=
  match prop raw k with
  | Some v => trim (toString (or_else (Some v) (JStr dflt)))
  | None => trim dflt
  end.

(** [cfg.k] after [{ ...DEFAULT_CONFIG, ...raw }], for a numeric field. *)
Definition merged_number (raw : json) (k : string) (dflt : Z) : Z :=
  match prop raw k with
  | Some v => toPositiveInt (Some v) dflt
  | None => toPositiveInt (Some (js_of_Z dflt)) dflt
  end.

(** [loadConfig()].  [None]: the function throws, which it does when the file
    holds [null] (reading [raw.users]). *)
Definition loadConfig (e : load_env) : option Config :=
  let raw := match file e with Some v => v | None => JObj [] end in
  match raw with
  | JNull => None
  | _ =>
      let loaded :=
        match prop raw "users" with
        | Some (JArr items) => normalizeUsers (boot_time e) (uuid e) 0 items
        | _ => []
        end in
      let seeded :=
        match loaded with
        | [] =>
            let initialToken :=
              match ADMIN_TOKEN e with
              | Some s => if String.eqb s "" then admin_token e else s
              | None => admin_token e
              end in
            [ {| id :=
                   uuid e (match prop raw "users" with
                           | Some (JArr items) => length items
                           | _ => 0%nat
                           end);
                 name := "Owner";
                 urole := admin;
                 token := initialToken;
                 createdAt := SIso (boot_time e);
                 lastLoginAt := SNull |} ]
        | _ => loaded
        end in
      Some {| host := merged_text raw "host" (host DEFAULT_CONFIG);
              port := merged_number raw "port" (port DEFAULT_CONFIG);
              username := merged_text raw "username" (username DEFAULT_CONFIG);
              reconnectDelay :=
                merged_number raw "reconnectDelay" (reconnectDelay DEFAULT_CONFIG);
              pingInterval :=
                merged_number raw "pingInterval" (pingInterval DEFAULT_CONFIG);
              version := merged_text raw "version" (version DEFAULT_CONFIG);
              users := seeded |}
  end.

(** The assignments of [POST /api/config] to [config]: a text field is taken
    when it is a string that is not blank, a numeric field when it is present
    at all. *)
Definition text_field (body : json) (k : string) (old : string) : string :=
  match prop body k with
  | Some (JStr s) => if String.eqb (trim s) "" then old else trim s
  | _ => old
  end.

Definition number_field (body : json) (k : string) (old : Z) : Z :=
  match prop body k with
  | Some v => toPositiveInt (Some v) old
  | None => old
  end.

(** [body] is [req.body], [None] when the request carries none. *)
Definition assignConfig (body : option json) (cfg : Config) : Config :=
  let b := match body with Some v => or_else (Some v) (JObj []) | None => JObj [] end in
  {| host := text_field b "host" (host cfg);
     port := number_field b "port" (port cfg);
     username := text_field b "username" (username cfg);
     reconnectDelay := number_field b "reconnectDelay" (reconnectDelay cfg);
     pingInterval := number_field b "pingInterval" (pingInterval cfg);
     version := text_field b "version" (version cfg);
     users := users cfg |}.

(** ** The state of the process *)

(** [botStatus] and [serverStatus] *)
Inductive Phase : Type := Stopped | Connecting | Online | Error.
Inductive Reach : Type := Unknown | Reachable | Offline.

#[global] Instance Phase_eq_dec : EqDecision Phase.
Proof. solve_decision. Defined.

#[global] Instance Reach_eq_dec : EqDecision Reach.
Proof. solve_decision. Defined.

Record Session : Type := mkSession {
  userId : string;
  expiresAt : Z
}.

(** A log entry.  (Its [id], the clock plus a random fraction, is a display key
    and is left out.) *)
Record Entry : Type := mkEntry {
  time : Z;
  level : string;
  message : string
}.

(** Who asked for a start or a stop: [actor.name] and [actor.role]. *)
Record Actor : Type := mkActor {
  actor_name : string;
  actor_role : string
}.

(** The six fields of the configuration that the handlers publish. *)
Record PublicConfig : Type := mkPublicConfig {
  pc_host : string;
  pc_port : Z;
  pc_username : string;
  pc_reconnectDelay : Z;
  pc_pingInterval : Z;
  pc_version : string
}.

(** [buildStatusPayload()] *)
Record StatusPayload : Type := mkStatusPayload {
  p_botStatus : Phase;
  p_serverStatus : Reach;
  p_reconnectAttempts : Z;
  p_lastPing : option Z;
  p_lastEventAt : Z;
  p_uptime : Z;
  p_isRunning : bool;
  p_config : PublicConfig
}.

(** What [broadcast] is handed. *)
Inductive Output : Type :=
| OutLog (e : Entry)
| OutStatus (p : StatusPayload).

(** A protocol client made by [mineflayer.createBot] whose listeners are still
    attached; [login_armed] tells whether its [once("login")] listener has yet
    to run. *)
Record Client : Type := mkClient {
  cid : nat;
  login_armed : bool
}.

(** The callbacks handed to [setTimeout] and [setInterval]. *)
Inductive Callback : Type :=
| CbReconnect              (* the arrow function of queueReconnect *)
| CbStart (actor : option Actor). (* () => startBot(actor) *)

Inductive Job : Type := JobPing | JobHealth | JobSweep.

Record Timeout : Type := mkTimeout {
  t_handle : nat;
  t_callback : Callback;
  t_delay : Z
}.

Record Interval : Type := mkInterval {
  i_handle : nat;
  i_job : Job;
  i_period : Z
}.

(** The module-level variables of the server, then what the runtime holds for
    it: the protocol clients with listeners attached, the pending timeouts, the
    running intervals, the next fresh handle, and what was broadcast so far
    (latest last). *)
Record State : Type := mkState {
  config : Config;
  sessions : gmap string Session;
  bot : option nat;
  botStatus : Phase;
  serverStatus : Reach;
  reconnectAttempts : Z;
  lastPing : option Z;
  lastBotEventAt : Z;
  botStartTime : option Z;
  isRunning : bool;
  pingTimer : option nat;
  reconnectTimer : option nat;
  healthTimer : option nat;
  keepAlivePulseCount : Z;
  logs : list Entry;
  clients : list Client;
  timeouts : list Timeout;
  intervals : list Interval;
  next_id : nat;
  sent : list Output
}.

Definition set_config (v : Config) (s : State) : State :=
  {| config := v;
     sessions := sessions s;
     bot := bot s;
     botStatus := botStatus s;
     serverStatus := serverStatus s;
     reconnectAttempts := reconnectAttempts s;
     lastPing := lastPing s;
     lastBotEventAt := lastBotEventAt s;
     botStartTime := botStartTime s;
     isRunning := isRunning s;
     pingTimer := pingTimer s;
     reconnectTimer := reconnectTimer s;
     healthTimer := healthTimer s;
     keepAlivePulseCount := keepAlivePulseCount s;
     logs := logs s;
     clients := clients s;
     timeouts := timeouts s;
     intervals := intervals s;
     next_id := next_id s;
     sent := sent s |}.

Definition set_sessions (v : gmap string Session) (s : State) : State :=
  {| config := config s;
     sessions := v;
     bot := bot s;
     botStatus := botStatus s;
     serverStatus := serverStatus s;
     reconnectAttempts := reconnectAttempts s;
     lastPing := lastPing s;
     lastBotEventAt := lastBotEventAt s;
     botStartTime := botStartTime s;
     isRunning := isRunning s;
     pingTimer := pingTimer s;
     reconnectTimer := reconnectTimer s;
     healthTimer := healthTimer s;
     keepAlivePulseCount := keepAlivePulseCount s;
     logs := logs s;
     clients := clients s;
     timeouts := timeouts s;
     intervals := intervals s;
     next_id := next_id s;
     sent := sent s |}.

Definition set_bot (v : option nat) (s : State) : State :=
  {| config := config s;
     sessions := sessions s;
     bot := v;
     botStatus := botStatus s;
     serverStatus := serverStatus s;
     reconnectAttempts := reconnectAttempts s;
     lastPing := lastPing s;
     lastBotEventAt := lastBotEventAt s;
     botStartTime := botStartTime s;
     isRunning := isRunning s;
     pingTimer := pingTimer s;
     reconnectTimer := reconnectTimer s;
     healthTimer := healthTimer s;
     keepAlivePulseCount := keepAlivePulseCount s;
     logs := logs s;
     clients := clients s;
     timeouts := timeouts s;
     intervals := intervals s;
     next_id := next_id s;
     sent := sent s |}.

Definition set_botStatus (v : Phase) (s : State) : State :=
  {| config := config s;
     sessions := sessions s;
     bot := bot s;
     botStatus := v;
     serverStatus := serverStatus s;
     reconnectAttempts := reconnectAttempts s;
     lastPing := lastPing s;
     lastBotEventAt := lastBotEventAt s;
     botStartTime := botStartTime s;
     isRunning := isRunning s;
     pingTimer := pingTimer s;
     reconnectTimer := reconnectTimer s;
     healthTimer := healthTimer s;
     keepAlivePulseCount := keepAlivePulseCount s;
     logs := logs s;
     clients := clients s;
     timeouts := timeouts s;
     intervals := intervals s;
     next_id := next_id s;
     sent := sent s |}.

Definition set_serverStatus (v : Reach) (s : State) : State :=
  {| config := config s;
     sessions := sessions s;
     bot := bot s;
     botStatus := botStatus s;
     serverStatus := v;
     reconnectAttempts := reconnectAttempts s;
     lastPing := lastPing s;
     lastBotEventAt := lastBotEventAt s;
     botStartTime := botStartTime s;
     isRunning := isRunning s;
     pingTimer := pingTimer s;
     reconnectTimer := reconnectTimer s;
     healthTimer := healthTimer s;
     keepAlivePulseCount := keepAlivePulseCount s;
     logs := logs s;
     clients := clients s;
     timeouts := timeouts s;
     intervals := intervals s;
     next_id := next_id s;
     sent := sent s |}.

Definition set_reconnectAttempts (v : Z) (s : State) : State :=
  {| config := config s;
     sessions := sessions s;
     bot := bot s;
     botStatus := botStatus s;
     serverStatus := serverStatus s;
     reconnectAttempts := v;
     lastPing := lastPing s;
     lastBotEventAt := lastBotEventAt s;
     botStartTime := botStartTime s;
     isRunning := isRunning s;
     pingTimer := pingTimer s;
     reconnectTimer := reconnectTimer s;
     healthTimer := healthTimer s;
     keepAlivePulseCount := keepAlivePulseCount s;
     logs := logs s;
     clients := clients s;
     timeouts := timeouts s;
     intervals := intervals s;
     next_id := next_id s;
     sent := sent s |}.

Definition set_lastPing (v : option Z) (s : State) : State :=
  {| config := config s;
     sessions := sessions s;
     bot := bot s;
     botStatus := botStatus s;
     serverStatus := serverStatus s;
     reconnectAttempts := reconnectAttempts s;
     lastPing := v;
     lastBotEventAt := lastBotEventAt s;
     botStartTime := botStartTime s;
     isRunning := isRunning s;
     pingTimer := pingTimer s;
     reconnectTimer := reconnectTimer s;
     healthTimer := healthTimer s;
     keepAlivePulseCount := keepAlivePulseCount s;
     logs := logs s;
     clients := clients s;
     timeouts := timeouts s;
     intervals := intervals s;
     next_id := next_id s;
     sent := sent s |}.

Definition set_lastBotEventAt (v : Z) (s : State) : State :=
  {| config := config s;
     sessions := sessions s;
     bot := bot s;
     botStatus := botStatus s;
     serverStatus := serverStatus s;
     reconnectAttempts := reconnectAttempts s;
     lastPing := lastPing s;
     lastBotEventAt := v;
     botStartTime := botStartTime s;
     isRunning := isRunning s;
     pingTimer := pingTimer s;
     reconnectTimer := reconnectTimer s;
     healthTimer := healthTimer s;
     keepAlivePulseCount := keepAlivePulseCount s;
     logs := logs s;
     clients := clients s;
     timeouts := timeouts s;
     intervals := intervals s;
     next_id := next_id s;
     sent := sent s |}.

Definition set_botStartTime (v : option Z) (s : State) : State :=
  {| config := config s;
     sessions := sessions s;
     bot := bot s;
     botStatus := botStatus s;
     serverStatus := serverStatus s;
     reconnectAttempts := reconnectAttempts s;
     lastPing := lastPing s;
     lastBotEventAt := lastBotEventAt s;
     botStartTime := v;
     isRunning := isRunning s;
     pingTimer := pingTimer s;
     reconnectTimer := reconnectTimer s;
     healthTimer := healthTimer s;
     keepAlivePulseCount := keepAlivePulseCount s;
     logs := logs s;
     clients := clients s;
     timeouts := timeouts s;
     intervals := intervals s;
     next_id := next_id s;
     sent := sent s |}.

Definition set_isRunning (v : bool) (s : State) : State :=
  {| config := config s;
     sessions := sessions s;
     bot := bot s;
     botStatus := botStatus s;
     serverStatus := serverStatus s;
     reconnectAttempts := reconnectAttempts s;
     lastPing := lastPing s;
     lastBotEventAt := lastBotEventAt s;
     botStartTime := botStartTime s;
     isRunning := v;
     pingTimer := pingTimer s;
     reconnectTimer := reconnectTimer s;
     healthTimer := healthTimer s;
     keepAlivePulseCount := keepAlivePulseCount s;
     logs := logs s;
     clients := clients s;
     timeouts := timeouts s;
     intervals := intervals s;
     next_id := next_id s;
     sent := sent s |}.

Definition set_pingTimer (v : option nat) (s : State) : State :=
  {| config := config s;
     sessions := sessions s;
     bot := bot s;
     botStatus := botStatus s;
     serverStatus := serverStatus s;
     reconnectAttempts := reconnectAttempts s;
     lastPing := lastPing s;
     lastBotEventAt := lastBotEventAt s;
     botStartTime := botStartTime s;
     isRunning := isRunning s;
     pingTimer := v;
     reconnectTimer := reconnectTimer s;
     healthTimer := healthTimer s;
     keepAlivePulseCount := keepAlivePulseCount s;
     logs := logs s;
     clients := clients s;
     timeouts := timeouts s;
     intervals := intervals s;
     next_id := next_id s;
     sent := sent s |}.

Definition set_reconnectTimer (v : option nat) (s : State) : State :=
  {| config := config s;
     sessions := sessions s;
     bot := bot s;
     botStatus := botStatus s;
     serverStatus := serverStatus s;
     reconnectAttempts := reconnectAttempts s;
     lastPing := lastPing s;
     lastBotEventAt := lastBotEventAt s;
     botStartTime := botStartTime s;
     isRunning := isRunning s;
     pingTimer := pingTimer s;
     reconnectTimer := v;
     healthTimer := healthTimer s;
     keepAlivePulseCount := keepAlivePulseCount s;
     logs := logs s;
     clients := clients s;
     timeouts := timeouts s;
     intervals := intervals s;
     next_id := next_id s;
     sent := sent s |}.

Definition set_healthTimer (v : option nat) (s : State) : State :=
  {| config := config s;
     sessions := sessions s;
     bot := bot s;
     botStatus := botStatus s;
     serverStatus := serverStatus s;
     reconnectAttempts := reconnectAttempts s;
     lastPing := lastPing s;
     lastBotEventAt := lastBotEventAt s;
     botStartTime := botStartTime s;
     isRunning := isRunning s;
     pingTimer := pingTimer s;
     reconnectTimer := reconnectTimer s;
     healthTimer := v;
     keepAlivePulseCount := keepAlivePulseCount s;
     logs := logs s;
     clients := clients s;
     timeouts := timeouts s;
     intervals := intervals s;
     next_id := next_id s;
     sent := sent s |}.

Definition set_keepAlivePulseCount (v : Z) (s : State) : State :=
  {| config := config s;
     sessions := sessions s;
     bot := bot s;
     botStatus := botStatus s;
     serverStatus := serverStatus s;
     reconnectAttempts := reconnectAttempts s;
     lastPing := lastPing s;
     lastBotEventAt := lastBotEventAt s;
     botStartTime := botStartTime s;
     isRunning := isRunning s;
     pingTimer := pingTimer s;
     reconnectTimer := reconnectTimer s;
     healthTimer := healthTimer s;
     keepAlivePulseCount := v;
     logs := logs s;
     clients := clients s;
     timeouts := timeouts s;
     intervals := intervals s;
     next_id := next_id s;
     sent := sent s |}.

Definition set_logs (v : list Entry) (s : State) : State :=
  {| config := config s;
     sessions := sessions s;
     bot := bot s;
     botStatus := botStatus s;
     serverStatus := serverStatus s;
     reconnectAttempts := reconnectAttempts s;
     lastPing := lastPing s;
     lastBotEventAt := lastBotEventAt s;
     botStartTime := botStartTime s;
     isRunning := isRunning s;
     pingTimer := pingTimer s;
     reconnectTimer := reconnectTimer s;
     healthTimer := healthTimer s;
     keepAlivePulseCount := keepAlivePulseCount s;
     logs := v;
     clients := clients s;
     timeouts := timeouts s;
     intervals := intervals s;
     next_id := next_id s;
     sent := sent s |}.

Definition set_clients (v : list Client) (s : State) : State :=
  {| config := config s;
     sessions := sessions s;
     bot := bot s;
     botStatus := botStatus s;
     serverStatus := serverStatus s;
     reconnectAttempts := reconnectAttempts s;
     lastPing := lastPing s;
     lastBotEventAt := lastBotEventAt s;
     botStartTime := botStartTime s;
     isRunning := isRunning s;
     pingTimer := pingTimer s;
     reconnectTimer := reconnectTimer s;
     healthTimer := healthTimer s;
     keepAlivePulseCount := keepAlivePulseCount s;
     logs := logs s;
     clients := v;
     timeouts := timeouts s;
     intervals := intervals s;
     next_id := next_id s;
     sent := sent s |}.

Definition set_timeouts (v : list Timeout) (s : State) : State :=
  {| config := config s;
     sessions := sessions s;
     bot := bot s;
     botStatus := botStatus s;
     serverStatus := serverStatus s;
     reconnectAttempts := reconnectAttempts s;
     lastPing := lastPing s;
     lastBotEventAt := lastBotEventAt s;
     botStartTime := botStartTime s;
     isRunning := isRunning s;
     pingTimer := pingTimer s;
     reconnectTimer := reconnectTimer s;
     healthTimer := healthTimer s;
     keepAlivePulseCount := keepAlivePulseCount s;
     logs := logs s;
     clients := clients s;
     timeouts := v;
     intervals := intervals s;
     next_id := next_id s;
     sent := sent s |}.

Definition set_intervals (v : list Interval) (s : State) : State :=
  {| config := config s;
     sessions := sessions s;
     bot := bot s;
     botStatus := botStatus s;
     serverStatus := serverStatus s;
     reconnectAttempts := reconnectAttempts s;
     lastPing := lastPing s;
     lastBotEventAt := lastBotEventAt s;
     botStartTime := botStartTime s;
     isRunning := isRunning s;
     pingTimer := pingTimer s;
     reconnectTimer := reconnectTimer s;
     healthTimer := healthTimer s;
     keepAlivePulseCount := keepAlivePulseCount s;
     logs := logs s;
     clients := clients s;
     timeouts := timeouts s;
     intervals := v;
     next_id := next_id s;
     sent := sent s |}.

Definition set_next_id (v : nat) (s : State) : State :=
  {| config := config s;
     sessions := sessions s;
     bot := bot s;
     botStatus := botStatus s;
     serverStatus := serverStatus s;
     reconnectAttempts := reconnectAttempts s;
     lastPing := lastPing s;
     lastBotEventAt := lastBotEventAt s;
     botStartTime := botStartTime s;
     isRunning := isRunning s;
     pingTimer := pingTimer s;
     reconnectTimer := reconnectTimer s;
     healthTimer := healthTimer s;
     keepAlivePulseCount := keepAlivePulseCount s;
     logs := logs s;
     clients := clients s;
     timeouts := timeouts s;
     intervals := intervals s;
     next_id := v;
     sent := sent s |}.

Definition set_sent (v : list Output) (s : State) : State :=
  {| config := config s;
     sessions := sessions s;
     bot := bot s;
     botStatus := botStatus s;
     serverStatus := serverStatus s;
     reconnectAttempts := reconnectAttempts s;
     lastPing := lastPing s;
     lastBotEventAt := lastBotEventAt s;
     botStartTime := botStartTime s;
     isRunning := isRunning s;
     pingTimer := pingTimer s;
     reconnectTimer := reconnectTimer s;
     healthTimer := healthTimer s;
     keepAlivePulseCount := keepAlivePulseCount s;
     logs := logs s;
     clients := clients s;
     timeouts := timeouts s;
     intervals := intervals s;
     next_id := next_id s;
     sent := v |}.

(** ** The log buffer *)

Definition MAX_LOGS : nat := 500.

(** [logs.push(entry); if (logs.length > MAX_LOGS) logs.shift();] *)
Definition push_log (entry : Entry) (l : list Entry) : list Entry :=
  let pushed := l ++ [entry] in
  if (MAX_LOGS <? length pushed)%nat then tl pushed else pushed.

Definition broadcast (o : Output) (s : State) : State :=
  set_sent (sent s ++ [o]) s.

Definition addLog (now : Z) (level message : string) (s : State) : State :=
  let entry := {| time := now; level := level; message := message |} in
  let s := set_logs (push_log entry (logs s)) s in
  broadcast (OutLog entry) s.

(** [logs.slice(-Math.min(limit, MAX_LOGS))]; [slice(-0)] is the whole array. *)
Definition recent (limit : Z) (l : list Entry) : list Entry :=
  let n := Z.to_nat (Z.min limit (Z.of_nat MAX_LOGS)) in
  if (n =? 0)%nat then l else drop (length l - n) l.

(** The answer of [GET /api/logs] for the query parameter [limit]. *)
Definition getLogs (limit : option json) (s : State) : list Entry :=
  recent (toPositiveInt limit 100) (logs s).

Definition publicConfig (c : Config) : PublicConfig :=
  {| pc_host := host c;
     pc_port := port c;
     pc_username := username c;
     pc_reconnectDelay := reconnectDelay c;
     pc_pingInterval := pingInterval c;
     pc_version := version c |}.

Definition buildStatusPayload (now : Z) (s : State) : StatusPayload :=
  {| p_botStatus := botStatus s;
     p_serverStatus := serverStatus s;
     p_reconnectAttempts := reconnectAttempts s;
     p_lastPing := lastPing s;
     p_lastEventAt := lastBotEventAt s;
     p_uptime :=
       match botStartTime s with
       | Some t => if t =? 0 then 0 else now - t
       | None => 0
       end;
     p_isRunning := isRunning s;
     p_config := publicConfig (config s) |}.

Definition broadcastStatus (now : Z) (s : State) : State :=
  broadcast (OutStatus (buildStatusPayload now s)) s.

(** ** Users and sessions *)

Definition SESSION_TTL_MS : Z := 14 * 24 * 60 * 60 * 1000.

Definition role_name (r : role) : string :=
  match r with
  | admin => "admin"
  | operator => "operator"
  | viewer => "viewer"
  end.

(** [ROLE_PERMISSIONS[role]] *)
Definition getPermissions (r : role) : list string :=
  match r with
  | admin =>
      ["status:read"; "logs:read"; "bot:control"; "config:read"; "config:write";
       "users:read"; "users:write"]
  | operator => ["status:read"; "logs:read"; "bot:control"; "config:read"]
  | viewer => ["status:read"; "logs:read"; "config:read"]
  end.

Definition with_name (v : string) (u : User) : User :=
  {| id := id u; name := v; urole := urole u; token := token u;
     createdAt := createdAt u; lastLoginAt := lastLoginAt u |}.

Definition with_role (v : role) (u : User) : User :=
  {| id := id u; name := name u; urole := v; token := token u;
     createdAt := createdAt u; lastLoginAt := lastLoginAt u |}.

Definition with_token (v : string) (u : User) : User :=
  {| id := id u; name := name u; urole := urole u; token := v;
     createdAt := createdAt u; lastLoginAt := lastLoginAt u |}.

Definition with_lastLoginAt (v : stamp) (u : User) : User :=
  {| id := id u; name := name u; urole := urole u; token := token u;
     createdAt := createdAt u; lastLoginAt := v |}.

Definition with_users (v : list User) (c : Config) : Config :=
  {| host := host c; port := port c; username := username c;
     reconnectDelay := reconnectDelay c; pingInterval := pingInterval c;
     version := version c; users := v |}.

Definition set_users (v : list User) (s : State) : State :=
  set_config (with_users v (config s)) s.

(** What [sanitizeUser] gives; [pu_token] is there when [includeToken]. *)
Record PublicUser : Type := mkPublicUser {
  pu_id : string;
  pu_name : string;
  pu_role : role;
  pu_tokenPreview : string;
  pu_createdAt : stamp;
  pu_lastLoginAt : stamp;
  pu_token : option string
}.

Definition maskToken (t : string) : string :=
  if String.eqb t "" then "unset"
  else if (String.length t <=? 8)%nat then substring 0 1 t +:+ "***"
  else substring 0 4 t +:+ "..." +:+ substring (String.length t - 4) 4 t.

Definition sanitizeUser (u : User) (includeToken : bool) : PublicUser :=
  {| pu_id := id u;
     pu_name := name u;
     pu_role := urole u;
     pu_tokenPreview := maskToken (token u);
     pu_createdAt := createdAt u;
     pu_lastLoginAt := lastLoginAt u;
     pu_token := if includeToken then Some (token u) else None |}.

(** [pruneExpiredSessions()], run every minute by the sweep interval. *)
Definition pruneExpiredSessions (now : Z) (s : State) : State :=
  set_sessions (filter (λ kv, ¬ (expiresAt kv.2 ≤ now)) (sessions s)) s.

Definition revokeSessionsForUser (uid : string) (s : State) : State :=
  set_sessions (filter (λ kv, userId kv.2 ≠ uid) (sessions s)) s.

(** [config.users.find(p)], with the position of the user found: the position
    stands for the reference to the object, which the handlers write
    through. *)
Definition findUserByToken (t : string) (s : State) : option (nat * User) :=
  list_find (λ u, token u = t) (users (config s)).

Definition findUserById (i : string) (s : State) : option (nat * User) :=
  list_find (λ u, id u = i) (users (config s)).

(** [createSession(user)]; [sessionToken] is the random handle drawn. *)
Definition createSession (now : Z) (u : User) (sessionToken : string) (s : State) : State :=
  set_sessions
    (<[sessionToken := {| userId := id u; expiresAt := now + SESSION_TTL_MS |}]>
       (sessions s)) s.

(** [resolveAuthFromToken(sessionToken)]; [None] for the argument is [null].
    On success: the position of the user in [config.users], the user, and the
    session object, which by then carries its new expiry. *)
Definition resolveAuthFromToken (now : Z) (sessionToken : option string) (s : State)
  : option (nat * User * Session) * State :=
  match sessionToken with
  | None => (None, s)
  | Some tok =>
      if String.eqb tok "" then (None, s)
      else
        match sessions s !! tok with
        | None => (None, s)
        | Some session =>
            if expiresAt session <=? now then
              (None, set_sessions (delete tok (sessions s)) s)
            else
              match findUserById (userId session) s with
              | None => (None, set_sessions (delete tok (sessions s)) s)
              | Some (i, u) =>
                  let touched :=
                    {| userId := userId session;
                       expiresAt := now + SESSION_TTL_MS |} in
                  (Some (i, u, touched),
                   set_sessions (<[tok := touched]> (sessions s)) s)
              end
        end
  end.

(** [getBearerToken(req)] on the [Authorization] header. *)
Definition getBearerToken (authorization : option string) : option string :=
  let header :=
    match authorization with
    | Some h => if String.eqb h "" then "" else h
    | None => ""
    end in
  if String.prefix "Bearer " header
  then Some (trim (substring 7 (String.length header - 7) header))
  else None.

(** ** The runtime's timers *)

(** [setTimeout(cb, delay)]: a fresh handle, and the callback is pending. *)
Definition setTimeout (cb : Callback) (delay : Z) (s : State) : nat * State :=
  let h := next_id s in
  (h,
   set_next_id (S h)
     (set_timeouts
        (timeouts s ++ [{| t_handle := h; t_callback := cb; t_delay := delay |}]) s)).

Definition clearTimeout (h : nat) (s : State) : State :=
  set_timeouts (filter (λ t, t_handle t ≠ h) (timeouts s)) s.

Definition setInterval (job : Job) (period : Z) (s : State) : nat * State :=
  let h := next_id s in
  (h,
   set_next_id (S h)
     (set_intervals
        (intervals s ++ [{| i_handle := h; i_job := job; i_period := period |}]) s)).

Definition clearInterval (h : nat) (s : State) : State :=
  set_intervals (filter (λ t, i_handle t ≠ h) (intervals s)) s.

(** ** The bot controller *)

(** [actorLabel(actor)]; [None] is a missing actor. *)
Definition actorLabel (actor : option Actor) : string :=
  match actor with
  | None => "system"
  | Some a => actor_name a +:+ " (" +:+ actor_role a +:+ ")"
  end.

Definition markBotActivity (now : Z) (s : State) : State :=
  set_lastBotEventAt now s.

Definition clearReconnectTimer (s : State) : State :=
  match reconnectTimer s with
  | Some h => set_reconnectTimer None (clearTimeout h s)
  | None => s
  end.

Definition stopPingTimer (s : State) : State :=
  match pingTimer s with
  | Some h => set_pingTimer None (clearInterval h s)
  | None => s
  end.

Definition stopHealthTimer (s : State) : State :=
  match healthTimer s with
  | Some h => set_healthTimer None (clearInterval h s)
  | None => s
  end.

(** [quitBot(reason)]: the client is told to quit and loses its listeners
    (both calls are wrapped so that neither can throw), and [bot] is cleared.
    The client emits nothing between the two calls. *)
Definition quitBot (s : State) : State :=
  match bot s with
  | None => s
  | Some b => set_bot None (set_clients (filter (λ c, cid c ≠ b) (clients s)) s)
  end.

(** [Math.round(ms / 1000)] for an integer number of milliseconds. *)
Definition round_seconds (ms : Z) : Z := (ms + 500) / 1000.

Definition queueReconnect (now : Z) (reason : string) (s : State) : State :=
  if negb (isRunning s) then s
  else
    match reconnectTimer s with
    | Some _ => s
    | None =>
        let s := set_reconnectAttempts (reconnectAttempts s + 1) s in
        let s := set_botStatus Connecting s in
        let s := broadcastStatus now s in
        let delay := reconnectDelay (config s) in
        let s :=
          addLog now "INFO"
            ("Reconnect in " +:+ string_of_Z (round_seconds delay) +:+ "s (attempt #"
             +:+ string_of_Z (reconnectAttempts s) +:+ ", reason: " +:+ reason +:+ ")") s in
        let '(h, s) := setTimeout CbReconnect delay s in
        set_reconnectTimer (Some h) s
    end.

Definition startPingTimer (s : State) : State :=
  let s := stopPingTimer s in
  let '(h, s) := setInterval JobPing (pingInterval (config s)) s in
  set_pingTimer (Some h) s.

(** One run of the keep-alive callback.  [entity] tells whether [bot.entity]
    is there; [failure] is the message of the exception that [bot.look] or
    [bot.swingArm] throws, if one does. *)
Definition pingTick (now : Z) (entity : bool) (failure : option string) (s : State) : State :=
  if negb (isRunning s) || negb (bool_decide (is_Some (bot s))) || negb entity then s
  else
    match failure with
    | Some msg => addLog now "WARNING" ("Keep-alive pulse failed: " +:+ msg) s
    | None =>
        let s := set_keepAlivePulseCount (keepAlivePulseCount s + 1) s in
        let s := markBotActivity now s in
        let s := set_lastPing (Some now) s in
        let s :=
          if Z.rem (keepAlivePulseCount s) 5 =? 0
          then addLog now "PING" "Keep-alive pulse sent" s
          else s in
        broadcastStatus now s
    end.

(** One run of the health callback. *)
Definition healthTick (now : Z) (s : State) : State :=
  if negb (isRunning s) then s
  else
    let staleThreshold := Z.max (pingInterval (config s) * 2) 90000 in
    let staleFor := now - lastBotEventAt s in
    if bool_decide (botStatus s = Online) && (staleThreshold <? staleFor) then
      let s :=
        addLog now "WARNING"
          ("No bot activity for " +:+ string_of_Z (round_seconds staleFor)
           +:+ "s, recycling connection") s in
      let s := stopPingTimer s in
      let s := quitBot s in
      let s := set_botStatus Error s in
      let s := set_serverStatus Unknown s in
      let s := broadcastStatus now s in
      queueReconnect now "stale heartbeat" s
    else if (bool_decide (botStatus s = Error) || bool_decide (botStatus s = Connecting))
            && negb (bool_decide (is_Some (reconnectTimer s)))
    then queueReconnect now "health monitor" s
    else s.

Definition startHealthTimer (s : State) : State :=
  let s := stopHealthTimer s in
  let '(h, s) := setInterval JobHealth 15000 s in
  set_healthTimer (Some h) s.

(** [createBot()].  [thrown] is the message of the exception that
    [mineflayer.createBot] throws, if it does; otherwise a new client comes
    into being with the listeners attached. *)
Definition createBot (now : Z) (thrown : option string) (s : State) : State :=
  if negb (isRunning s) then s
  else
    let s := clearReconnectTimer s in
    let s := stopPingTimer s in
    let s := quitBot s in
    let s := set_botStatus Connecting s in
    let s := set_serverStatus Unknown s in
    let s := markBotActivity now s in
    let s := broadcastStatus now s in
    let s :=
      addLog now "INFO"
        ("Connecting to " +:+ host (config s) +:+ ":" +:+ string_of_Z (port (config s))
         +:+ " as " +:+ username (config s)) s in
    match thrown with
    | Some msg =>
        let s := addLog now "ERROR" ("Failed to create bot: " +:+ msg) s in
        queueReconnect now "create bot failure" s
    | None =>
        let b := next_id s in
        set_bot (Some b)
          (set_next_id (S b)
             (set_clients (clients s ++ [{| cid := b; login_armed := true |}]) s))
    end.

(** The error object a client hands to its [error] listeners. *)
Record BotError : Type := mkBotError {
  code : option string;
  err_message : string
}.

(** What a protocol client can emit to the listeners of [createBot]. *)
Inductive ClientEvent : Type :=
| EvLogin (username : string)
| EvSpawn
| EvKicked (reason : option json)
| EvError (err : BotError)
| EvEnd (reason : option json)
| EvMessage
| EvKeepAlive.

(** The listeners.  They are closures over the module-level variables, so
    they do the same whichever client emits. *)
Definition onLogin (now : Z) (username : string) (s : State) : State :=
  let s := set_botStatus Online s in
  let s := set_serverStatus Reachable s in
  let s := set_reconnectAttempts 0 s in
  let s :=
    set_botStartTime
      (match botStartTime s with
       | Some t => if t =? 0 then Some now else Some t
       | None => Some now
       end) s in
  let s := set_lastPing (Some now) s in
  let s := markBotActivity now s in
  match bot s with
  | None => s (* reading [bot.username] throws *)
  | Some _ =>
      let s := addLog now "SUCCESS" ("Joined server as " +:+ username) s in
      let s := broadcastStatus now s in
      startPingTimer s
  end.

Definition onSpawn (now : Z) (s : State) : State :=
  let s := markBotActivity now s in
  addLog now "INFO" "Bot spawned in world" s.

Definition onKicked (now : Z) (reason : option json) (s : State) : State :=
  let s := markBotActivity now s in
  let s := stopPingTimer s in
  let s := set_botStatus Error s in
  let s := set_serverStatus Offline s in
  let s :=
    addLog now "WARNING"
      ("Kicked from server: " +:+ toString (or_else reason (JStr "unknown"))) s in
  let s := broadcastStatus now s in
  queueReconnect now "kicked" s.

Definition onError (now : Z) (err : BotError) (s : State) : State :=
  let s := markBotActivity now s in
  let s := stopPingTimer s in
  let s := set_botStatus Error s in
  let s :=
    if bool_decide (code err = Some "ECONNREFUSED") then
      let s := set_serverStatus Offline s in
      addLog now "WARNING" "Server appears offline (connection refused)" s
    else s in
  let s := addLog now "ERROR" ("Bot error: " +:+ err_message err) s in
  let s := broadcastStatus now s in
  queueReconnect now
    (match code err with
     | Some c => if String.eqb c "" then "bot error" else c
     | None => "bot error"
     end) s.

Definition onEnd (now : Z) (reason : option json) (s : State) : State :=
  let s := markBotActivity now s in
  let s := stopPingTimer s in
  let s := set_botStatus (if isRunning s then Connecting else Stopped) s in
  let s := set_serverStatus Unknown s in
  let s :=
    addLog now "WARNING"
      ("Connection ended: " +:+ toString (or_else reason (JStr "unknown"))) s in
  let s := broadcastStatus now s in
  if isRunning s then queueReconnect now "connection ended" s else s.

Definition onActivity (now : Z) (s : State) : State :=
  let s := markBotActivity now s in
  set_lastPing (Some now) s.

Definition listener (now : Z) (ev : ClientEvent) (s : State) : State :=
  match ev with
  | EvLogin username => onLogin now username s
  | EvSpawn => onSpawn now s
  | EvKicked reason => onKicked now reason s
  | EvError err => onError now err s
  | EvEnd reason => onEnd now reason s
  | EvMessage | EvKeepAlive => onActivity now s
  end.

(** The result of [startBot], [stopBot] and [restartBot]. *)
Record ActionResult : Type := mkActionResult {
  success : bool;
  result_message : option string
}.

Definition startBot (now : Z) (actor : option Actor) (thrown : option string) (s : State)
  : ActionResult * State :=
  if isRunning s then
    ({| success := false; result_message := Some "Bot already running" |}, s)
  else
    let s := set_isRunning true s in
    let s := set_botStartTime None s in
    let s := set_reconnectAttempts 0 s in
    let s := set_keepAlivePulseCount 0 s in
    let s := markBotActivity now s in
    let s := addLog now "INFO" ("Bot start requested by " +:+ actorLabel actor) s in
    let s := startHealthTimer s in
    let s := createBot now thrown s in
    ({| success := true; result_message := None |}, s).

Definition stopBot (now : Z) (actor : option Actor) (s : State) : ActionResult * State :=
  if negb (isRunning s) then
    ({| success := false; result_message := Some "Bot not running" |}, s)
  else
    let s := set_isRunning false s in
    let s := clearReconnectTimer s in
    let s := stopPingTimer s in
    let s := stopHealthTimer s in
    let s := quitBot s in
    let s := set_botStatus Stopped s in
    let s := set_serverStatus Unknown s in
    let s := markBotActivity now s in
    let s := addLog now "INFO" ("Bot stop requested by " +:+ actorLabel actor) s in
    let s := broadcastStatus now s in
    ({| success := true; result_message := None |}, s).

(** [restartBot(actor)]: the start is left to a timeout.  (The actor's name
    and role are taken as they are when the restart is asked for.) *)
Definition restartBot (now : Z) (actor : option Actor) (s : State) : ActionResult * State :=
  let s := addLog now "INFO" ("Bot restart requested by " +:+ actorLabel actor) s in
  let s := snd (stopBot now actor s) in
  let '(_, s) := setTimeout (CbStart actor) 2000 s in
  ({| success := true; result_message := None |}, s).

(** A pending timeout fires: it is pending no more and its callback runs. *)
Definition fireTimeout (now : Z) (t : Timeout) (thrown : option string) (s : State) : State :=
  let s := clearTimeout (t_handle t) s in
  match t_callback t with
  | CbReconnect =>
      let s := set_reconnectTimer None s in
      if negb (isRunning s) then s else createBot now thrown s
  | CbStart actor => snd (startBot now actor thrown s)
  end.

(** ** The HTTP surface *)

(** What a request carries, and what the runtime supplies while its handler
    runs: [thrown] as in [createBot]; the random session handle, the random
    identifier, and the successive values of [makeUserToken()]. *)
Record Request : Type := mkRequest {
  authorization : option string;
  params_id : string;
  body : option json;
  query_limit : option json;
  thrown : option string;
  new_session : string;
  new_uuid : string;
  new_tokens : list string
}.

Inductive Route : Type :=
| PostLogin | PostLogout | GetMe | GetStatus | GetLogs
| PostStart | PostStop | PostRestart
| GetConfig | PostConfig
| GetUsers | PostUsers | PatchUser | DeleteUser.

Inductive Reply : Type :=
| Failure (status : Z) (text : string)  (* { success: false, message } *)
| Done                                  (* { success: true } *)
| LoggedIn (sessionToken : string) (u : PublicUser) (permissions : list string)
| Me (u : PublicUser) (permissions : list string)
| StatusOf (p : StatusPayload)
| LogsOf (l : list Entry)
| Acted (r : ActionResult)
| ConfigOf (c : PublicConfig)
| ConfigSaved (c : PublicConfig)
| UsersOf (l : list PublicUser)
| UserOf (u : PublicUser).

(** [req.body?.k] *)
Definition body_prop (req : Request) (k : string) : option json :=
  match body req with
  | Some b => prop b k
  | None => None
  end.

(** [String(req.body?.k || "").trim()] *)
Definition body_text (req : Request) (k : string) : string :=
  trim (toString (or_else (body_prop req k) (JStr ""))).

Definition actor_of (u : User) : option Actor :=
  Some {| actor_name := name u; actor_role := role_name (urole u) |}.

(** [requireAuth] followed, when [permission] is given, by
    [requirePermission(permission)]; [k] is the handler behind them, which gets
    [req.user] as a position in [config.users] and as the user found there. *)
Definition guarded (now : Z) (req : Request) (permission : option string) (s : State)
    (k : nat -> User -> State -> option (Reply * State)) : option (Reply * State) :=
  match resolveAuthFromToken now (getBearerToken (authorization req)) s with
  | (None, s) => Some (Failure 401 "Unauthorized", s)
  | (Some (i, u, _), s) =>
      match permission with
      | Some p =>
          if bool_decide (p ∈ getPermissions (urole u)) then k i u s
          else Some (Failure 403 ("Missing permission: " +:+ p), s)
      | None => k i u s
      end
  end.

Definition postLogin (now : Z) (req : Request) (s : State) : Reply * State :=
  let t := body_text req "token" in
  if String.eqb t "" then (Failure 400 "Token is required", s)
  else
    match findUserByToken t s with
    | None => (Failure 401 "Invalid token", s)
    | Some (i, u) =>
        let u := with_lastLoginAt (SIso now) u in
        let s := set_users (<[i := u]> (users (config s))) s in
        let s := createSession now u (new_session req) s in
        let s :=
          addLog now "SECURITY"
            ("User signed in: " +:+ name u +:+ " (" +:+ role_name (urole u) +:+ ")") s in
        (LoggedIn (new_session req) (sanitizeUser u false) (getPermissions (urole u)), s)
    end.

Definition postLogout (req : Request) (s : State) : Reply * State :=
  match getBearerToken (authorization req) with
  | Some tok => (Done, set_sessions (delete tok (sessions s)) s)
  | None => (Done, s)
  end.

Definition postConfig (now : Z) (req : Request) (u : User) (s : State) : Reply * State :=
  let s := set_config (assignConfig (body req) (config s)) s in
  let s := addLog now "INFO" ("Configuration updated by " +:+ name u) s in
  let s := broadcastStatus now s in
  (ConfigSaved (publicConfig (config s)), s).

Definition tokenTaken (t : string) (except : string) (s : State) : bool :=
  bool_decide (Exists (λ u, id u ≠ except ∧ token u = t) (users (config s))).

Definition postUsers (now : Z) (req : Request) (actor : User) (s : State)
  : option (Reply * State) :=
  let nm := body_text req "name" in
  let rl := role_or (body_prop req "role") operator in
  let requestedToken := body_text req "token" in
  match (if String.eqb requestedToken "" then head (new_tokens req) else Some requestedToken) with
  | None => None
  | Some t =>
      if String.eqb nm "" then Some (Failure 400 "Name is required", s)
      else if bool_decide (Exists (λ u, token u = t) (users (config s))) then
        Some (Failure 409 "Token already in use", s)
      else
        let newUser :=
          {| id := new_uuid req; name := nm; urole := rl; token := t;
             createdAt := SIso now; lastLoginAt := SNull |} in
        let s := set_users (users (config s) ++ [newUser]) s in
        let s :=
          addLog now "SECURITY"
            ("User created by " +:+ name actor +:+ ": " +:+ name newUser +:+ " ("
             +:+ role_name (urole newUser) +:+ ")") s in
        Some (UserOf (sanitizeUser newUser true), s)
  end.

Definition adminCount (s : State) : nat :=
  length (filter (λ u, urole u = admin) (users (config s))).

(** An assignment to a field of the user object at position [i]. *)
Definition write_user (i : nat) (f : User -> User) (s : State) : State :=
  set_users (alter f i (users (config s))) s.

(** The tail of [PATCH /api/users/:id], from the rotation on; [target] is the
    position of the user being changed and [actor] that of [req.user]. *)
Definition patchFinish (now : Z) (req : Request) (actor target : nat) (tid : string)
    (includeToken revokeSessions : bool) (s : State) : option (Reply * State) :=
  let rotated :=
    match body_prop req "rotateToken" with
    | Some (JBool true) =>
        match list_find (λ t, tokenTaken t tid s = false) (new_tokens req) with
        | Some (_, t) => Some (true, true, write_user target (with_token t) s)
        | None => None
        end
    | _ => Some (includeToken, revokeSessions, s)
    end in
  match rotated with
  | None => None
  | Some (includeToken, revokeSessions, s) =>
      let s := if revokeSessions then revokeSessionsForUser tid s else s in
      match users (config s) !! actor, users (config s) !! target with
      | Some a, Some t =>
          let s :=
            addLog now "SECURITY"
              ("User updated by " +:+ name a +:+ ": " +:+ name t +:+ " ("
               +:+ role_name (urole t) +:+ ")") s in
          Some (UserOf (sanitizeUser t includeToken), s)
      | _, _ => None
      end
  end.

Definition patchUser (now : Z) (req : Request) (actor : nat) (me : User) (s : State)
  : option (Reply * State) :=
  match findUserById (params_id req) s with
  | None => Some (Failure 404 "User not found", s)
  | Some (i, target) =>
      let admins := adminCount s in
      let nextRole := role_or (body_prop req "role") (urole target) in
      if bool_decide (id target = id me) && negb (bool_decide (nextRole = admin)) then
        Some (Failure 400 "You cannot demote yourself", s)
      else if bool_decide (urole target = admin) && negb (bool_decide (nextRole = admin))
              && (admins <=? 1)%nat then
        Some (Failure 400 "At least one admin must remain", s)
      else
        let nextName := body_text req "name" in
        let s := if String.eqb nextName "" then s else write_user i (with_name nextName) s in
        let roleChanged := negb (bool_decide (nextRole = urole target)) in
        let s := if roleChanged then write_user i (with_role nextRole) s else s in
        let providedToken := body_text req "token" in
        if String.eqb providedToken "" then
          patchFinish now req actor i (id target) false roleChanged s
        else if tokenTaken providedToken (id target) s then
          Some (Failure 409 "Token already in use", s)
        else
          let s := write_user i (with_token providedToken) s in
          patchFinish now req actor i (id target) true true s
  end.

Definition deleteUser (now : Z) (req : Request) (me : User) (s : State) : Reply * State :=
  match findUserById (params_id req) s with
  | None => (Failure 404 "User not found", s)
  | Some (_, target) =>
      if bool_decide (id target = id me) then
        (Failure 400 "You cannot delete your own account", s)
      else if bool_decide (urole target = admin) && (adminCount s <=? 1)%nat then
        (Failure 400 "At least one admin must remain", s)
      else
        let s := set_users (filter (λ u, id u ≠ id target) (users (config s))) s in
        let s := revokeSessionsForUser (id target) s in
        let s :=
          addLog now "SECURITY"
            ("User deleted by " +:+ name me +:+ ": " +:+ name target) s in
        (Done, s)
  end.

(** The routes of the application. *)
Definition serve (now : Z) (route : Route) (req : Request) (s : State)
  : option (Reply * State) :=
  match route with
  | PostLogin => Some (postLogin now req s)
  | PostLogout => guarded now req None s (λ _ _ s, Some (postLogout req s))
  | GetMe =>
      guarded now req None s
        (λ _ u s, Some (Me (sanitizeUser u false) (getPermissions (urole u)), s))
  | GetStatus =>
      guarded now req (Some "status:read") s
        (λ _ _ s, Some (StatusOf (buildStatusPayload now s), s))
  | GetLogs =>
      guarded now req (Some "logs:read") s
        (λ _ _ s, Some (LogsOf (getLogs (query_limit req) s), s))
  | PostStart =>
      guarded now req (Some "bot:control") s
        (λ _ u s, let '(r, s) := startBot now (actor_of u) (thrown req) s in Some (Acted r, s))
  | PostStop =>
      guarded now req (Some "bot:control") s
        (λ _ u s, let '(r, s) := stopBot now (actor_of u) s in Some (Acted r, s))
  | PostRestart =>
      guarded now req (Some "bot:control") s
        (λ _ u s, let '(r, s) := restartBot now (actor_of u) s in Some (Acted r, s))
  | GetConfig =>
      guarded now req (Some "config:read") s
        (λ _ _ s, Some (ConfigOf (publicConfig (config s)), s))
  | PostConfig =>
      guarded now req (Some "config:write") s (λ _ u s, Some (postConfig now req u s))
  | GetUsers =>
      guarded now req (Some "users:read") s
        (λ _ _ s, Some (UsersOf ((λ u, sanitizeUser u false) <$> users (config s)), s))
  | PostUsers =>
      guarded now req (Some "users:write") s (λ _ u s, postUsers now req u s)
  | PatchUser =>
      guarded now req (Some "users:write") s (λ i u s, patchUser now req i u s)
  | DeleteUser =>
      guarded now req (Some "users:write") s (λ _ u s, Some (deleteUser now req u s))
  end.

(** ** The WebSocket surface *)

(** A client connects with the session handle [session] of its URL ([None]:
    no such parameter).  Only the touch of the session stays behind; the
    messages sent on the socket itself are not broadcasts. *)
Definition wsConnect (now : Z) (session : option string) (s : State) : State :=
  snd (resolveAuthFromToken now session s).

(** A message on an admitted socket; [permissions] and [user] are what the
    connection handler kept, [action] is [payload.action]. *)
Definition wsMessage (now : Z) (permissions : list string) (user : option Actor)
    (action : string) (thrown : option string) (s : State) : State :=
  if String.eqb action "" then s
  else if negb (bool_decide ("bot:control" ∈ permissions)) then s
  else if String.eqb action "start" then snd (startBot now user thrown s)
  else if String.eqb action "stop" then snd (stopBot now user s)
  else if String.eqb action "restart" then snd (restartBot now user s)
  else s.

(** ** The event loop *)

(** The actor of the start that the module schedules for itself. *)
Definition AUTOSTART : option Actor :=
  Some {| actor_name := "AutoStart"; actor_role := "system" |}.

(** The state when the module has been evaluated with the configuration
    [cfg] loaded at time [now]: the sweep interval runs and the start of the
    bot is pending. *)
Definition initial (cfg : Config) (now : Z) : State :=
  {| config := cfg;
     sessions := ∅;
     bot := None;
     botStatus := Stopped;
     serverStatus := Unknown;
     reconnectAttempts := 0;
     lastPing := None;
     lastBotEventAt := now;
     botStartTime := None;
     isRunning := false;
     pingTimer := None;
     reconnectTimer := None;
     healthTimer := None;
     keepAlivePulseCount := 0;
     logs := [];
     clients := [];
     timeouts := [{| t_handle := 1; t_callback := CbStart AUTOSTART; t_delay := 1500 |}];
     intervals := [{| i_handle := 0; i_job := JobSweep; i_period := 60000 |}];
     next_id := 2;
     sent := [] |}.

(** [None]: loading the configuration threw. *)
Definition boot (e : load_env) : option State :=
  match loadConfig e with
  | None => None
  | Some cfg => Some (initial cfg (boot_time e))
  end.

(** The callback of [server.listen]; [PORT] is the port as printed. *)
Definition onListening (now : Z) (PORT : string) (s : State) : State :=
  addLog now "INFO" ("Server started on port " +:+ PORT) s.

(** One run of the callback of an interval. *)
Definition runInterval (now : Z) (i : Interval) (entity : bool) (failure : option string)
    (s : State) : State :=
  match i_job i with
  | JobPing => pingTick now entity failure s
  | JobHealth => healthTick now s
  | JobSweep => pruneExpiredSessions now s
  end.

(** A client emits an event to its listeners; the [login] listener was
    attached with [once] and is detached as it runs. *)
Definition emit (now : Z) (c : Client) (ev : ClientEvent) (s : State) : State :=
  let s :=
    match ev with
    | EvLogin _ =>
        set_clients
          ((λ x, if bool_decide (cid x = cid c)
                 then {| cid := cid x; login_armed := false |} else x)
             <$> clients s) s
    | _ => s
    end in
  listener now ev s.

(** One turn of the event loop: a handler runs to completion. *)
Inductive step : State -> State -> Prop :=
| step_request now route req s r s' :
    serve now route req s = Some (r, s') -> step s s'
| step_ws_connect now session s :
    step s (wsConnect now session s)
| step_ws_message now permissions user action thrown s :
    step s (wsMessage now permissions user action thrown s)
| step_listening now PORT s :
    step s (onListening now PORT s)
| step_timeout now t thrown s :
    t ∈ timeouts s -> step s (fireTimeout now t thrown s)
| step_interval now i entity failure s :
    i ∈ intervals s -> step s (runInterval now i entity failure s)
| step_client now c ev s :
    c ∈ clients s ->
    (match ev with EvLogin _ => login_armed c = true | _ => True end) ->
    step s (emit now c ev s).

(** The states the process can be in. *)
Definition reachable (s : State) : Prop :=
  ∃ e s0, boot e = Some s0 ∧ rtc step s0 s.

(** ** Notions used in the statements *)

#[global] Instance Actor_eq_dec : EqDecision Actor.
Proof. solve_decision. Defined.

#[global] Instance Callback_eq_dec : EqDecision Callback.
Proof. solve_decision. Defined.

#[global] Instance Job_eq_dec : EqDecision Job.
Proof. solve_decision. Defined.

(** The handles of the reconnect timeouts that are pending, and of the
    intervals that run a given job. *)
Definition pending_reconnects (s : State) : list nat :=
  t_handle <$> (filter (λ t, t_callback t = CbReconnect) (timeouts s)).

Definition running (job : Job) (s : State) : list nat :=
  i_handle <$> (filter (λ i, i_job i = job) (intervals s)).

(** The events by which a client tells that the connection is lost, the phase
    that their listeners assign while the bot is meant to run, and the
    reachability that they assign. *)
Definition is_disconnect (ev : ClientEvent) : bool :=
  match ev with
  | EvKicked _ | EvError _ | EvEnd _ => true
  | _ => false
  end.

Definition phase_set_by (ev : ClientEvent) : Phase :=
  match ev with
  | EvEnd _ => Connecting
  | _ => Error
  end.

Definition reach_set_by (ev : ClientEvent) (before : Reach) : Reach :=
  match ev with
  | EvKicked _ => Offline
  | EvError err => if bool_decide (code err = Some "ECONNREFUSED") then Offline else before
  | EvEnd _ => Unknown
  | _ => before
  end.

(** Calls of [startBot] and [stopBot], one after the other. *)
Inductive Op : Type :=
| OpStart (now : Z) (actor : option Actor) (thrown : option string)
| OpStop (now : Z) (actor : option Actor).

Definition apply_op (s : State) (op : Op) : State :=
  match op with
  | OpStart now actor thrown => snd (startBot now actor thrown s)
  | OpStop now actor => snd (stopBot now actor s)
  end.

Definition run (ops : list Op) (s : State) : State := foldl apply_op s ops.

(** Calls of [addLog], one after the other. *)
Definition entry_of (item : Z * string * string) : Entry :=
  {| time := item.1.1; level := item.1.2; message := item.2 |}.

Definition appendLogs (items : list (Z * string * string)) (s : State) : State :=
  foldl (λ s item, addLog item.1.1 item.1.2 item.2 s) s items.

(** The users that [loadConfig] reads from the file, before it looks whether
    there are any. *)
Definition loaded_users (e : load_env) : list User :=
  match prop (default (JObj []) (file e)) "users" with
  | Some (JArr items) => normalizeUsers (boot_time e) (uuid e) 0 items
  | _ => []
  end.

(** [req.user] is the administrator at position [a] of [config.users]. *)
Definition actor_is_admin (a : nat) (s : State) : Prop :=
  ∃ u, users (config s) !! a = Some u ∧ urole u = admin.

(** A value parses to the positive integer [z]. *)
Definition parses_to (v : option json) (z : Z) : Prop :=
  parseInt (toString_opt v) = Fin z ∧ 0 < z.

(** The value a request body supplies for the field [k] of the configuration,
    [None] when it supplies none. *)
Definition supplied (body : option json) (k : string) : option json :=
  match body with
  | Some b => prop (or_else (Some b) (JObj [])) k
  | None => None
  end.

(** How a numeric field comes out: as the positive integer the supplied value
    parses to, or, when it parses to none, as it was. *)
Definition settled (v : option json) (old new : Z) : Prop :=
  parses_to v new ∨ ((∀ z, ¬ parses_to v z) ∧ new = old).

Definition numbers_positive (c : Config) : Prop :=
  0 < port c ∧ 0 < reconnectDelay c ∧ 0 < pingInterval c.

(** What the runtime holds agrees with the variables that refer to it: the
    clients with listeners, the pending reconnect timeouts, the ping and
    health intervals; handles are fresh and distinct. *)
Definition ctl_ok (bot : option nat) (clients : list Client)
    (pingTimer reconnectTimer healthTimer : option nat)
    (timeouts : list Timeout) (intervals : list Interval) (next_id : nat) : Prop :=
  cid <$> clients = option_list bot
  ∧ t_handle <$> (filter (λ t, t_callback t = CbReconnect) timeouts)
    = option_list reconnectTimer
  ∧ i_handle <$> (filter (λ i, i_job i = JobPing) intervals) = option_list pingTimer
  ∧ i_handle <$> (filter (λ i, i_job i = JobHealth) intervals) = option_list healthTimer
  ∧ Forall (λ t, (t_handle t < next_id)%nat) timeouts
  ∧ NoDup (t_handle <$> timeouts)
  ∧ Forall (λ i, (i_handle i < next_id)%nat) intervals
  ∧ NoDup (i_handle <$> intervals).

Definition Safe (s : State) : Prop :=
  ctl_ok (bot s) (clients s) (pingTimer s) (reconnectTimer s) (healthTimer s)
    (timeouts s) (intervals s) (next_id s)
  ∧ (length (logs s) ≤ MAX_LOGS)%nat
  ∧ numbers_positive (config s).

(** While the bot is not meant to run there is no client and no timer of the
    controller. *)
Definition Idle (s : State) : Prop :=
  isRunning s = false ->
  bot s = None ∧ reconnectTimer s = None ∧ pingTimer s = None ∧ healthTimer s = None.

Definition Running (s : State) : Prop := isRunning s = true.

(** The invariant of the event loop. *)
Definition Good (s : State) : Prop := Safe s ∧ Idle s.

Definition SameConfig (c : Config) (s : State) : Prop := config s = c.

(** ** Concrete runs *)

(** A first start without a configuration file, the administrator's token
    given in the environment. *)
Definition example_env : load_env :=
  {| file := None;
     ADMIN_TOKEN := Some "ta";
     uuid := λ _, "a";
     admin_token := "admin_0123456789abcdef01234567";
     boot_time := 0 |}.

Definition example_config : Config :=
  {| host := "yosef2903.aternos.me";
     port := 39695;
     username := "AternosGuard";
     reconnectDelay := 15000;
     pingInterval := 45000;
     version := "1.20.1";
     users :=
       [{| id := "a"; name := "Owner"; urole := admin; token := "ta";
           createdAt := SIso 0; lastLoginAt := SNull |}] |}.

Definition example_boot : State := initial example_config 0.

(** The scheduled start fires, the client logs in, and is kicked. *)
Definition example_started : State :=
  fireTimeout 1500
    {| t_handle := 1; t_callback := CbStart AUTOSTART; t_delay := 1500 |} None example_boot.

Definition example_online : State :=
  emit 1600 {| cid := 3; login_armed := true |} (EvLogin "AternosGuard") example_started.

Definition example_kicked : State :=
  emit 1700 {| cid := 3; login_armed := false |} (EvKicked None) example_online.

Definition example_ended : State :=
  emit 1700 {| cid := 3; login_armed := false |} (EvEnd None) example_online.

(** A configuration file whose only user is a viewer. *)
Definition example_viewer_env : load_env :=
  {| file :=
       Some (JObj [("users",
                    JArr [JObj [("id", JStr "v"); ("name", JStr "Guest");
                                ("role", JStr "viewer"); ("token", JStr "tv")]])]);
     ADMIN_TOKEN := Some "ta";
     uuid := λ _, "a";
     admin_token := "admin_0123456789abcdef01234567";
     boot_time := 0 |}.

Definition example_viewer_boot : State :=
  initial
    {| host := "yosef2903.aternos.me";
       port := 39695;
       username := "AternosGuard";
       reconnectDelay := 15000;
       pingInterval := 45000;
       version := "1.20.1";
       users :=
         [{| id := "v"; name := "Guest"; urole := viewer; token := "tv";
             createdAt := SIso 0; lastLoginAt := SNull |}] |} 0.

(** Requests of the administrator and of a second user. *)
Definition request (auth : option string) (target : string) (b : list (string * json))
    (session : string) : Request :=
  {| authorization := auth;
     params_id := target;
     body := Some (JObj b);
     query_limit := None;
     thrown := None;
     new_session := session;
     new_uuid := "b";
     new_tokens := ["usr_0123456789abcdef01234567"] |}.

Definition example_admin_in : State :=
  (postLogin 10 (request None "" [("token", JStr "ta")] "sa") example_boot).2.

(** The administrator creates an operator, who signs in; the administrator
    then asks to make the operator an administrator and, in the same request,
    to give it a token that is already in use (the administrator's own). *)
Definition example_two_users : State :=
  default example_admin_in
    (snd <$> serve 20 PostUsers
       (request (Some "Bearer sa") ""
          [("name", JStr "B"); ("role", JStr "operator"); ("token", JStr "tb")] "")
       example_admin_in).

Definition example_both_in : State :=
  (postLogin 30 (request None "" [("token", JStr "tb")] "sb") example_two_users).2.

Definition example_promotion : Request :=
  request (Some "Bearer sa") "b" [("role", JStr "admin"); ("token", JStr "ta")] "".

Definition example_after_promotion : State :=
  default example_both_in (snd <$> serve 40 PatchUser example_promotion example_both_in).

(** The client reports an error before it has logged in, and logs in all the
    same: the bot is online while the reconnect queued on the error is still
    pending. *)
Definition example_refused : State :=
  emit 1550 {| cid := 3; login_armed := true |}
    (EvError {| code := Some "ECONNRESET"; err_message := "read ECONNRESET" |})
    example_started.

Definition example_late_login : State :=
  emit 1600 {| cid := 3; login_armed := true |} (EvLogin "AternosGuard") example_refused.

(** ** Further notions used in the statements *)

(** The permission that each route is registered with, [None] for the routes
    behind [requireAuth] alone and for the login. *)
Definition required (route : Route) : option string :=
  match route with
  | PostLogin | PostLogout | GetMe => None
  | GetStatus => Some "status:read"
  | GetLogs => Some "logs:read"
  | PostStart | PostStop | PostRestart => Some "bot:control"
  | GetConfig => Some "config:read"
  | PostConfig => Some "config:write"
  | GetUsers => Some "users:read"
  | PostUsers | PatchUser | DeleteUser => Some "users:write"
  end.

(** [s'] is [s] but for the session map. *)
Definition sessions_apart (s s' : State) : Prop := s' = set_sessions (sessions s') s.

(** While the bot is meant to run the health monitor is on. *)
Definition Watched (s : State) : Prop :=
  isRunning s = true -> is_Some (healthTimer s).

(** While the bot is meant to run the health monitor is on, and [bot] refers
    to a client or a reconnect is scheduled. *)
Definition Alive (s : State) : Prop :=
  isRunning s = true ->
  is_Some (healthTimer s) ∧ (is_Some (bot s) ∨ is_Some (reconnectTimer s)).

Definition Live (s : State) : Prop := Good s ∧ Alive s.

(** The user tokens that a reply carries in full. *)
Definition disclosed (r : Reply) : list string :=
  match r with
  | LoggedIn _ u _ | Me u _ | UserOf u => option_list (pu_token u)
  | UsersOf l => l ≫= (λ u, option_list (pu_token u))
  | _ => []
  end.

(** No two users share an identifier, and no two share a token. *)
Definition distinct_users (l : list User) : Prop :=
  NoDup (id <$> l) ∧ NoDup (token <$> l).

Definition Distinct (s : State) : Prop := distinct_users (users (config s)).


(** [String(v)] returns for the value [v]: it throws a [TypeError] for an
    object that has a property [toString] of its own (which, coming from
    [JSON.parse], is not callable), and for an array that holds such an
    object, directly or in a nested array.  [parseInt(v, 10)] converts its
    argument the same way. *)
Fixpoint String_returns (v : json) : bool :=
  match v with
  | JArr items => forallb String_returns items
  | JObj fs => match assoc "toString" fs with Some _ => false | None => true end
  | _ => true
  end.

(** The text holds single-byte characters only.  Among these the white space
    that [trim] and [parseInt] skip is exactly what [JS.is_ws] tells. *)
Definition single_byte (s : string) : bool :=
  forallb (λ c, (N_of_ascii c <? 128)%N) (list_ascii_of_string s).

(** The handlers read the value [v] as a text without throwing, and the text
    is one on which [JS.trim] and [JS.parseInt] are the JavaScript functions. *)
Definition reads_as_text (v : json) : bool :=
  String_returns v && single_byte (toString v).

(** The body of a [POST /api/config] is one the handler reads to the end: its
    text fields that are strings hold single-byte characters, and what it
    gives for the numeric fields is read as a text. *)
Definition config_body_reads (req : Request) : Prop :=
  (∀ k t, k ∈ ["host"; "username"; "version"] ->
          body_prop req k = Some (JStr t) -> single_byte t = true)
  ∧ (∀ k v, k ∈ ["port"; "reconnectDelay"; "pingInterval"] ->
            body_prop req k = Some v -> reads_as_text v = true).

(** * Proofs *)

(** ** Lists of timers *)

Section Handles.
Context {A : Type} (h : A -> nat) (P : A -> Prop) `{!∀ x, Decision (P x)}.

Lemma handles_clear (k : nat) (l : list A) :
  h <$> filter P (filter (λ x, h x ≠ k) l) = filter (λ n, n ≠ k) (h <$> filter P l).
Proof.
  induction l as [|x l IH]; [done|].
  rewrite !filter_cons.
  destruct (decide (h x ≠ k)) as [Hk|Hk], (decide (P x)) as [Hp|Hp];
    rewrite ?filter_cons, ?fmap_cons, ?filter_cons;
    repeat case_decide; try done; by rewrite ?fmap_cons, IH.
Qed.

Lemma handles_push (x : A) (l : list A) :
  h <$> filter P (l ++ [x]) = (h <$> filter P l) ++ (if decide (P x) then [h x] else []).
Proof.
  rewrite filter_app, fmap_app. f_equal.
  rewrite filter_cons, filter_nil. by case_decide.
Qed.

Lemma fresh_clear (n k : nat) (l : list A) :
  Forall (λ x, (h x < n)%nat) l -> Forall (λ x, (h x < n)%nat) (filter (λ x, h x ≠ k) l).
Proof.
  rewrite !Forall_forall. intros Hl x [_ Hx]%list_elem_of_filter. by apply Hl.
Qed.

Lemma fresh_push (n : nat) (x : A) (l : list A) :
  h x = n -> Forall (λ x, (h x < n)%nat) l -> Forall (λ x, (h x < S n)%nat) (l ++ [x]).
Proof.
  intros Hx Hl. apply Forall_app. split.
  - eapply Forall_impl; [exact Hl|]. simpl. lia.
  - apply Forall_singleton. lia.
Qed.

Lemma fresh_later (n : nat) (l : list A) :
  Forall (λ x, (h x < n)%nat) l -> Forall (λ x, (h x < S n)%nat) l.
Proof. intros Hl. eapply Forall_impl; [exact Hl|]. simpl. lia. Qed.

Lemma distinct_clear (k : nat) (l : list A) :
  NoDup (h <$> l) -> NoDup (h <$> filter (λ x, h x ≠ k) l).
Proof.
  intros Hd. eapply sublist_NoDup; [exact Hd|].
  apply fmap_sublist, sublist_filter.
Qed.

Lemma distinct_push (n : nat) (x : A) (l : list A) :
  h x = n -> Forall (λ x, (h x < n)%nat) l -> NoDup (h <$> l) -> NoDup (h <$> (l ++ [x])).
Proof.
  intros Hx Hl Hd. rewrite fmap_app. apply NoDup_app. split_and!; [done| |].
  - intros k Hk Hin. change (k ∈ [h x]) in Hin.
    apply list_elem_of_singleton in Hin as ->.
    apply list_elem_of_fmap in Hk as (y & Hy & Hin).
    rewrite Forall_forall in Hl. specialize (Hl y Hin). simpl in Hl. lia.
  - apply NoDup_singleton.
Qed.

Lemma distinct_same (x y : A) (l : list A) :
  NoDup (h <$> l) -> x ∈ l -> y ∈ l -> h x = h y -> x = y.
Proof.
  induction l as [|z l IH]; intros Hd Hx Hy Hxy.
  - by apply elem_of_nil in Hx.
  - rewrite fmap_cons in Hd. apply NoDup_cons in Hd as [Hz Hd].
    apply elem_of_cons in Hx as [->|Hx], Hy as [->|Hy]; [done| | |by apply IH].
    + exfalso. apply Hz. rewrite Hxy. by apply list_elem_of_fmap_2.
    + exfalso. apply Hz. rewrite <- Hxy. by apply list_elem_of_fmap_2.
Qed.
End Handles.

Section Handles2.
Context {A : Type} (h : A -> nat) (P Q : A -> Prop)
  `{!∀ x, Decision (P x)} `{!∀ x, Decision (Q x)}.

Lemma handles_clear_own (k : nat) (l : list A) :
  h <$> filter P l = [k] -> h <$> filter P (filter (λ x, h x ≠ k) l) = [].
Proof.
  intros Hk. rewrite handles_clear, Hk, filter_cons, filter_nil.
  by case_decide.
Qed.

Lemma handles_clear_other (k : nat) (l : list A) :
  NoDup (h <$> l) -> k ∈ h <$> filter P l -> (∀ x, P x -> Q x -> False) ->
  h <$> filter Q (filter (λ x, h x ≠ k) l) = h <$> filter Q l.
Proof.
  intros Hd Hk Hpq. rewrite handles_clear.
  assert (Forall (λ n, n ≠ k) (h <$> filter Q l)) as Hall.
  { rewrite Forall_forall. intros n Hn ->.
    apply list_elem_of_fmap in Hk as (x & Hx & [Px Hxl]%list_elem_of_filter).
    apply list_elem_of_fmap in Hn as (y & Hy & [Qy Hyl]%list_elem_of_filter).
    assert (x = y) as -> by (eapply (distinct_same h); eauto; congruence).
    eauto. }
  revert Hall. generalize (h <$> filter Q l). intros m Hm.
  induction Hm as [|n m Hn Hm IH]; [done|].
  rewrite filter_cons. case_decide; [by f_equal|done].
Qed.
End Handles2.

(** ** Every handler keeps the runtime and the variables in agreement *)

Create HintDb safe.

Ltac safe_split := unfold Safe, ctl_ok; cbn; split_and!.

Ltac safe_open H :=
  destruct H as [(?Hc & ?Hr & ?Hp & ?Hh & ?Hft & ?Hdt & ?Hfi & ?Hdi) [?Hl ?Hn]].

Lemma Safe_set_botStatus v s : Safe s -> Safe (set_botStatus v s).
Proof. intros H. exact H. Qed.
Lemma Safe_set_serverStatus v s : Safe s -> Safe (set_serverStatus v s).
Proof. intros H. exact H. Qed.
Lemma Safe_set_reconnectAttempts v s : Safe s -> Safe (set_reconnectAttempts v s).
Proof. intros H. exact H. Qed.
Lemma Safe_set_lastPing v s : Safe s -> Safe (set_lastPing v s).
Proof. intros H. exact H. Qed.
Lemma Safe_set_botStartTime v s : Safe s -> Safe (set_botStartTime v s).
Proof. intros H. exact H. Qed.
Lemma Safe_set_isRunning v s : Safe s -> Safe (set_isRunning v s).
Proof. intros H. exact H. Qed.
Lemma Safe_set_keepAlivePulseCount v s : Safe s -> Safe (set_keepAlivePulseCount v s).
Proof. intros H. exact H. Qed.
Lemma Safe_set_sessions v s : Safe s -> Safe (set_sessions v s).
Proof. intros H. exact H. Qed.
Lemma Safe_set_users v s : Safe s -> Safe (set_users v s).
Proof. intros H. exact H. Qed.
Lemma Safe_markBotActivity now s : Safe s -> Safe (markBotActivity now s).
Proof. intros H. exact H. Qed.
Lemma Safe_broadcastStatus now s : Safe s -> Safe (broadcastStatus now s).
Proof. intros H. exact H. Qed.

#[export] Hint Resolve Safe_set_botStatus Safe_set_serverStatus Safe_set_reconnectAttempts
  Safe_set_lastPing Safe_set_botStartTime Safe_set_isRunning Safe_set_keepAlivePulseCount
  Safe_set_sessions Safe_set_users Safe_markBotActivity Safe_broadcastStatus : safe.

Lemma push_log_length entry l :
  (length l ≤ MAX_LOGS)%nat -> (length (push_log entry l) ≤ MAX_LOGS)%nat.
Proof.
  intros Hl. unfold push_log.
  destruct (Nat.ltb_spec MAX_LOGS (length (l ++ [entry]))) as [Hlt|Hge]; [|done].
  rewrite length_app in Hlt. simpl in Hlt.
  destruct l as [|x l]; simpl in *; [lia|].
  rewrite length_app. simpl. lia.
Qed.

Lemma Safe_addLog now lv msg s : Safe s -> Safe (addLog now lv msg s).
Proof.
  intros H. safe_open H. safe_split; try done.
  by apply push_log_length.
Qed.

Lemma Safe_clearReconnectTimer s : Safe s -> Safe (clearReconnectTimer s).
Proof.
  intros H. unfold clearReconnectTimer.
  destruct (reconnectTimer s) as [k|] eqn:Hk; [|done].
  safe_open H. rewrite Hk in Hr.
  safe_split; try done.
  - by apply handles_clear_own.
  - by apply fresh_clear.
  - by apply distinct_clear.
Qed.

Lemma Safe_stopPingTimer s : Safe s -> Safe (stopPingTimer s).
Proof.
  intros H. unfold stopPingTimer.
  destruct (pingTimer s) as [k|] eqn:Hk; [|done].
  safe_open H. rewrite Hk in Hp.
  safe_split; try done.
  - by apply handles_clear_own.
  - rewrite <- Hh.
    apply (handles_clear_other i_handle (λ i, i_job i = JobPing) (λ i, i_job i = JobHealth));
      [done| |congruence].
    rewrite Hp. apply list_elem_of_singleton. done.
  - by apply fresh_clear.
  - by apply distinct_clear.
Qed.

Lemma Safe_stopHealthTimer s : Safe s -> Safe (stopHealthTimer s).
Proof.
  intros H. unfold stopHealthTimer.
  destruct (healthTimer s) as [k|] eqn:Hk; [|done].
  safe_open H. rewrite Hk in Hh.
  safe_split; try done.
  - rewrite <- Hp.
    apply (handles_clear_other i_handle (λ i, i_job i = JobHealth) (λ i, i_job i = JobPing));
      [done| |congruence].
    rewrite Hh. apply list_elem_of_singleton. done.
  - by apply handles_clear_own.
  - by apply fresh_clear.
  - by apply distinct_clear.
Qed.

Lemma Safe_quitBot s : Safe s -> Safe (quitBot s).
Proof.
  intros H. unfold quitBot.
  destruct (bot s) as [b|] eqn:Hb; [|done].
  safe_open H. rewrite Hb in Hc.
  safe_split; try done.
  destruct (clients s) as [|c [|c' cs]]; try done.
  injection Hc as Hc. rewrite filter_cons, filter_nil.
  case_decide; [congruence|done].
Qed.

#[export] Hint Resolve Safe_addLog Safe_clearReconnectTimer Safe_stopPingTimer
  Safe_stopHealthTimer Safe_quitBot : safe.

Lemma Safe_arm_reconnect delay s :
  Safe s -> reconnectTimer s = None ->
  Safe (let '(h, s) := setTimeout CbReconnect delay s in set_reconnectTimer (Some h) s).
Proof.
  intros H Hk. safe_open H. rewrite Hk in Hr.
  safe_split; try done.
  - rewrite handles_push, Hr. by case_decide.
  - by apply fresh_push.
  - by apply distinct_push with (n := next_id s).
  - by apply fresh_later.
Qed.

Lemma Safe_queueReconnect now reason s : Safe s -> Safe (queueReconnect now reason s).
Proof.
  intros H. unfold queueReconnect.
  destruct (isRunning s); [|done]. cbn [negb].
  destruct (reconnectTimer s) eqn:Hk; [done|]. cbv zeta.
  match goal with
  | |- Safe (let '(_, _) := setTimeout _ ?d ?X in _) =>
      apply (Safe_arm_reconnect d X); [eauto 10 with safe | exact Hk]
  end.
Qed.

Lemma Safe_restart_timeout actor delay s :
  Safe s -> Safe (snd (setTimeout (CbStart actor) delay s)).
Proof.
  intros H. safe_open H. safe_split; try done.
  - rewrite handles_push, app_nil_r. done.
  - by apply fresh_push.
  - by apply distinct_push with (n := next_id s).
  - by apply fresh_later.
Qed.

Lemma stopPingTimer_pingTimer s : pingTimer (stopPingTimer s) = None.
Proof. unfold stopPingTimer. by destruct (pingTimer s) eqn:E. Qed.

Lemma stopHealthTimer_healthTimer s : healthTimer (stopHealthTimer s) = None.
Proof. unfold stopHealthTimer. by destruct (healthTimer s) eqn:E. Qed.

Lemma quitBot_bot s : bot (quitBot s) = None.
Proof. unfold quitBot. by destruct (bot s) eqn:E. Qed.

Lemma Safe_arm_interval job period s :
  Safe s ->
  match job with
  | JobPing => pingTimer s = None
  | JobHealth => healthTimer s = None
  | JobSweep => False
  end ->
  Safe (let '(h, s) := setInterval job period s in
        match job with
        | JobPing => set_pingTimer (Some h) s
        | JobHealth => set_healthTimer (Some h) s
        | JobSweep => s
        end).
Proof.
  intros H Hk. safe_open H.
  destruct job; [| |done]; rewrite Hk in *; safe_split; try done;
    rewrite ?handles_push, ?Hp, ?Hh, ?app_nil_r; try done;
    try (by apply fresh_later); try (by apply fresh_push);
    by apply distinct_push with (n := next_id s).
Qed.

Lemma Safe_startPingTimer s : Safe s -> Safe (startPingTimer s).
Proof.
  intros H. unfold startPingTimer.
  apply (Safe_arm_interval JobPing); [by apply Safe_stopPingTimer|].
  apply stopPingTimer_pingTimer.
Qed.

Lemma Safe_startHealthTimer s : Safe s -> Safe (startHealthTimer s).
Proof.
  intros H. unfold startHealthTimer.
  apply (Safe_arm_interval JobHealth); [by apply Safe_stopHealthTimer|].
  apply stopHealthTimer_healthTimer.
Qed.

Lemma Safe_new_client s :
  Safe s -> bot s = None ->
  Safe (set_bot (Some (next_id s))
          (set_next_id (S (next_id s))
             (set_clients (clients s ++ [{| cid := next_id s; login_armed := true |}]) s))).
Proof.
  intros H Hb. safe_open H. rewrite Hb in Hc.
  safe_split; try done.
  - apply fmap_nil_inv in Hc. by rewrite Hc.
  - by apply fresh_later.
  - by apply fresh_later.
Qed.

#[export] Hint Resolve Safe_queueReconnect Safe_startPingTimer Safe_startHealthTimer : safe.

Lemma Safe_createBot now thrown s : Safe s -> Safe (createBot now thrown s).
Proof.
  intros H. unfold createBot.
  destruct (isRunning s); [|done]. cbn [negb]. cbv zeta.
  destruct thrown as [msg|].
  - eauto 15 with safe.
  - match goal with
    | |- Safe (set_bot _ (set_next_id _ (set_clients _ ?X))) => apply (Safe_new_client X)
    end; [eauto 15 with safe|].
    apply quitBot_bot.
Qed.

#[export] Hint Resolve Safe_createBot : safe.

Lemma Safe_listener now ev s : Safe s -> Safe (listener now ev s).
Proof.
  intros H. destruct ev; simpl;
    unfold onLogin, onSpawn, onKicked, onError, onEnd, onActivity;
    repeat case_match; eauto 15 with safe.
Qed.

Lemma Safe_startBot now actor thrown s : Safe s -> Safe (snd (startBot now actor thrown s)).
Proof.
  intros H. unfold startBot. case_match; simpl; eauto 15 with safe.
Qed.

Lemma Safe_stopBot now actor s : Safe s -> Safe (snd (stopBot now actor s)).
Proof.
  intros H. unfold stopBot. case_match; simpl; eauto 15 with safe.
Qed.

#[export] Hint Resolve Safe_listener Safe_startBot Safe_stopBot : safe.

Lemma Safe_restartBot now actor s : Safe s -> Safe (snd (restartBot now actor s)).
Proof.
  intros H. unfold restartBot.
  apply (Safe_restart_timeout actor 2000). eauto with safe.
Qed.

Lemma Safe_pingTick now entity failure s : Safe s -> Safe (pingTick now entity failure s).
Proof.
  intros H. unfold pingTick. repeat case_match; eauto 15 with safe.
Qed.

Lemma Safe_healthTick now s : Safe s -> Safe (healthTick now s).
Proof.
  intros H. unfold healthTick. repeat case_match; eauto 15 with safe.
Qed.

#[export] Hint Resolve Safe_restartBot Safe_pingTick Safe_healthTick : safe.

(** ** While the bot is not meant to run nothing of the controller is left *)

Create HintDb running.

Lemma Running_set_botStatus v s : Running s -> Running (set_botStatus v s).
Proof. intros H. exact H. Qed.
Lemma Running_set_serverStatus v s : Running s -> Running (set_serverStatus v s).
Proof. intros H. exact H. Qed.
Lemma Running_set_reconnectAttempts v s : Running s -> Running (set_reconnectAttempts v s).
Proof. intros H. exact H. Qed.
Lemma Running_set_lastPing v s : Running s -> Running (set_lastPing v s).
Proof. intros H. exact H. Qed.
Lemma Running_set_botStartTime v s : Running s -> Running (set_botStartTime v s).
Proof. intros H. exact H. Qed.
Lemma Running_set_keepAlivePulseCount v s : Running s -> Running (set_keepAlivePulseCount v s).
Proof. intros H. exact H. Qed.
Lemma Running_markBotActivity now s : Running s -> Running (markBotActivity now s).
Proof. intros H. exact H. Qed.
Lemma Running_broadcastStatus now s : Running s -> Running (broadcastStatus now s).
Proof. intros H. exact H. Qed.
Lemma Running_addLog now lv msg s : Running s -> Running (addLog now lv msg s).
Proof. intros H. exact H. Qed.
Lemma Running_clearReconnectTimer s : Running s -> Running (clearReconnectTimer s).
Proof. intros H. unfold clearReconnectTimer. case_match; exact H. Qed.
Lemma Running_stopPingTimer s : Running s -> Running (stopPingTimer s).
Proof. intros H. unfold stopPingTimer. case_match; exact H. Qed.
Lemma Running_stopHealthTimer s : Running s -> Running (stopHealthTimer s).
Proof. intros H. unfold stopHealthTimer. case_match; exact H. Qed.
Lemma Running_quitBot s : Running s -> Running (quitBot s).
Proof. intros H. unfold quitBot. case_match; exact H. Qed.
Lemma Running_queueReconnect now reason s : Running s -> Running (queueReconnect now reason s).
Proof.
  intros H. unfold queueReconnect.
  destruct (isRunning s); [|exact H]. destruct (reconnectTimer s); exact H.
Qed.
Lemma Running_startPingTimer s : Running s -> Running (startPingTimer s).
Proof. intros H. apply Running_stopPingTimer in H. exact H. Qed.
Lemma Running_startHealthTimer s : Running s -> Running (startHealthTimer s).
Proof. intros H. apply Running_stopHealthTimer in H. exact H. Qed.

#[export] Hint Resolve Running_set_botStatus Running_set_serverStatus
  Running_set_reconnectAttempts Running_set_lastPing Running_set_botStartTime
  Running_set_keepAlivePulseCount Running_markBotActivity Running_broadcastStatus
  Running_addLog Running_clearReconnectTimer Running_stopPingTimer Running_stopHealthTimer
  Running_quitBot Running_queueReconnect Running_startPingTimer Running_startHealthTimer
  : running.

Lemma Running_createBot now thrown s : Running s -> Running (createBot now thrown s).
Proof.
  intros H. unfold createBot. rewrite H. cbn [negb]. cbv zeta.
  destruct thrown; [eauto 15 with running|].
  change (Running (addLog now "INFO"
    ("Connecting to " +:+ host (config s) +:+ ":" +:+ string_of_Z (port (config s))
     +:+ " as " +:+ username (config s))
    (broadcastStatus now (markBotActivity now (set_serverStatus Unknown
      (set_botStatus Connecting (quitBot (stopPingTimer (clearReconnectTimer s))))))))).
  eauto 15 with running.
Qed.

Lemma Running_listener now ev s : Running s -> Running (listener now ev s).
Proof.
  intros H. destruct ev; simpl;
    unfold onLogin, onSpawn, onKicked, onError, onEnd, onActivity;
    repeat case_match; eauto 15 with running.
Qed.

Lemma Running_Idle s : Running s -> Idle s.
Proof. unfold Running, Idle. congruence. Qed.

Ltac fields :=
  cbn [config sessions bot botStatus serverStatus reconnectAttempts lastPing lastBotEventAt
       botStartTime isRunning pingTimer reconnectTimer healthTimer keepAlivePulseCount logs
       clients timeouts intervals next_id sent
       set_config set_sessions set_bot set_botStatus set_serverStatus set_reconnectAttempts
       set_lastPing set_lastBotEventAt set_botStartTime set_isRunning set_pingTimer
       set_reconnectTimer set_healthTimer set_keepAlivePulseCount set_logs set_clients
       set_timeouts set_intervals set_next_id set_sent set_users
       clearTimeout clearInterval setTimeout setInterval addLog broadcast broadcastStatus
       markBotActivity fst snd negb andb orb] in *.

Lemma stop_sequence_quiet s :
  let s' := quitBot (stopHealthTimer (stopPingTimer (clearReconnectTimer s))) in
  bot s' = None ∧ reconnectTimer s' = None ∧ pingTimer s' = None ∧ healthTimer s' = None.
Proof.
  unfold quitBot, stopHealthTimer, stopPingTimer, clearReconnectTimer.
  destruct (reconnectTimer s) eqn:Hr; fields;
    destruct (pingTimer s) eqn:Hp; fields;
    destruct (healthTimer s) eqn:Hh; fields;
    destruct (bot s) eqn:Hb; fields; rewrite ?Hr, ?Hp, ?Hh, ?Hb; done.
Qed.

Lemma Idle_stopBot now actor s : Idle s -> Idle (snd (stopBot now actor s)).
Proof.
  intros H. unfold stopBot.
  destruct (isRunning s) eqn:Hrun; cbn [negb snd]; [|exact H].
  intros _. apply (stop_sequence_quiet (set_isRunning false s)).
Qed.

Lemma Idle_queueReconnect now reason s : Idle s -> Idle (queueReconnect now reason s).
Proof.
  intros H. destruct (isRunning s) eqn:Hrun.
  - by apply Running_Idle, Running_queueReconnect.
  - unfold queueReconnect. by rewrite Hrun.
Qed.

Lemma Idle_createBot now thrown s : Idle s -> Idle (createBot now thrown s).
Proof.
  intros H. destruct (isRunning s) eqn:Hrun.
  - by apply Running_Idle, Running_createBot.
  - unfold createBot. by rewrite Hrun.
Qed.

Lemma Idle_startBot now actor thrown s : Idle s -> Idle (snd (startBot now actor thrown s)).
Proof.
  intros H. unfold startBot.
  destruct (isRunning s) eqn:Hrun; cbn [snd]; [exact H|].
  assert (Running (set_isRunning true s)) as Hon by reflexivity.
  apply Running_Idle, Running_createBot. eauto 10 with running.
Qed.

Lemma Idle_restartBot now actor s : Idle s -> Idle (snd (restartBot now actor s)).
Proof.
  intros H. unfold restartBot.
  pose proof (Idle_stopBot now actor
    (addLog now "INFO" ("Bot restart requested by " +:+ actorLabel actor) s) H) as H'.
  exact H'.
Qed.

Lemma Idle_healthTick now s : Idle s -> Idle (healthTick now s).
Proof.
  intros H. destruct (isRunning s) eqn:Hrun.
  - apply Running_Idle. unfold healthTick. rewrite Hrun. cbn [negb]. cbv zeta.
    repeat case_match; eauto 15 with running.
  - unfold healthTick. by rewrite Hrun.
Qed.

Lemma Idle_pingTick now entity failure s : Idle s -> Idle (pingTick now entity failure s).
Proof.
  intros H. unfold pingTick. repeat case_match; exact H.
Qed.

Lemma Idle_listener now ev s : Running s -> Idle (listener now ev s).
Proof. intros H. by apply Running_Idle, Running_listener. Qed.

Lemma Idle_fireTimeout now t thrown s : Idle s -> Idle (fireTimeout now t thrown s).
Proof.
  intros H. unfold fireTimeout. destruct (t_callback t).
  - cbv zeta. destruct (isRunning s) eqn:Hrun.
    + change (isRunning (set_reconnectTimer None (clearTimeout (t_handle t) s))) with (isRunning s).
      rewrite Hrun. cbn [negb]. apply Running_Idle, Running_createBot. exact Hrun.
    + change (isRunning (set_reconnectTimer None (clearTimeout (t_handle t) s))) with (isRunning s).
      rewrite Hrun. cbn [negb]. intros _. destruct (H Hrun) as (? & ? & ? & ?). done.
  - apply Idle_startBot. exact H.
Qed.

(** ** Every turn of the event loop keeps the invariants *)

Create HintDb good.

Lemma Good_set_sessions v s : Good s -> Good (set_sessions v s).
Proof. intros H. exact H. Qed.
Lemma Good_set_users v s : Good s -> Good (set_users v s).
Proof. intros H. exact H. Qed.
Lemma Good_write_user i f s : Good s -> Good (write_user i f s).
Proof. intros H. exact H. Qed.
Lemma Good_revokeSessionsForUser uid s : Good s -> Good (revokeSessionsForUser uid s).
Proof. intros H. exact H. Qed.
Lemma Good_pruneExpiredSessions now s : Good s -> Good (pruneExpiredSessions now s).
Proof. intros H. exact H. Qed.
Lemma Good_createSession now u t s : Good s -> Good (createSession now u t s).
Proof. intros H. exact H. Qed.
Lemma Good_broadcastStatus now s : Good s -> Good (broadcastStatus now s).
Proof. intros H. exact H. Qed.
Lemma Good_addLog now lv msg s : Good s -> Good (addLog now lv msg s).
Proof. intros [H1 H2]. split; [by apply Safe_addLog|exact H2]. Qed.
Lemma Good_startBot now actor thrown s : Good s -> Good (startBot now actor thrown s).2.
Proof. intros [H1 H2]. split; [by apply Safe_startBot|by apply Idle_startBot]. Qed.
Lemma Good_stopBot now actor s : Good s -> Good (stopBot now actor s).2.
Proof. intros [H1 H2]. split; [by apply Safe_stopBot|by apply Idle_stopBot]. Qed.
Lemma Good_restartBot now actor s : Good s -> Good (restartBot now actor s).2.
Proof. intros [H1 H2]. split; [by apply Safe_restartBot|by apply Idle_restartBot]. Qed.
Lemma Good_pingTick now entity failure s : Good s -> Good (pingTick now entity failure s).
Proof. intros [H1 H2]. split; [by apply Safe_pingTick|by apply Idle_pingTick]. Qed.
Lemma Good_healthTick now s : Good s -> Good (healthTick now s).
Proof. intros [H1 H2]. split; [by apply Safe_healthTick|by apply Idle_healthTick]. Qed.

#[export] Hint Resolve Good_set_sessions Good_set_users Good_write_user
  Good_revokeSessionsForUser Good_pruneExpiredSessions Good_createSession
  Good_broadcastStatus Good_addLog Good_startBot Good_stopBot Good_restartBot
  Good_pingTick Good_healthTick : good.

Lemma toPositiveInt_positive v fallback : 0 < fallback -> 0 < toPositiveInt v fallback.
Proof.
  intros H. unfold toPositiveInt.
  destruct (parseInt (toString_opt v)); try done.
  destruct (Z.ltb_spec 0 z); done.
Qed.

Lemma assignConfig_positive body c :
  numbers_positive c -> numbers_positive (assignConfig body c).
Proof.
  intros (Hp & Hr & Hi). unfold numbers_positive, assignConfig, number_field. cbn.
  split_and!; case_match; auto using toPositiveInt_positive.
Qed.

Lemma Good_assignConfig body s : Good s -> Good (set_config (assignConfig body (config s)) s).
Proof.
  intros [H1 H2]. split; [|exact H2].
  destruct H1 as (Hc & Hl & Hn). split_and!; [exact Hc|exact Hl|].
  by apply assignConfig_positive.
Qed.

#[export] Hint Resolve Good_assignConfig : good.

Lemma resolve_keeps (P : State -> Prop) now tok s :
  (∀ m s, P s -> P (set_sessions m s)) -> P s -> P (resolveAuthFromToken now tok s).2.
Proof.
  intros Hm H. unfold resolveAuthFromToken.
  repeat case_match; simpl; auto.
Qed.

Lemma guarded_keeps (P : State -> Prop) now req permission s k r s' :
  (∀ m s, P s -> P (set_sessions m s)) ->
  (∀ i u s1 r s', P s1 -> k i u s1 = Some (r, s') -> P s') ->
  P s -> guarded now req permission s k = Some (r, s') -> P s'.
Proof.
  intros Hm Hk H. unfold guarded.
  pose proof (resolve_keeps P now (getBearerToken (authorization req)) s Hm H) as Hres.
  destruct (resolveAuthFromToken now (getBearerToken (authorization req)) s)
    as [[[[i u] sess]|] s1]; simpl in Hres.
  - destruct permission as [p|]; [case_bool_decide|]; eauto.
    intros [= <- <-]. exact Hres.
  - intros [= <- <-]. exact Hres.
Qed.

Lemma Good_postLogin now req s : Good s -> Good (postLogin now req s).2.
Proof.
  intros H. unfold postLogin. repeat case_match; simpl; eauto 10 with good.
Qed.

Lemma Good_postUsers now req actor s r s' :
  Good s -> postUsers now req actor s = Some (r, s') -> Good s'.
Proof.
  intros H. unfold postUsers. repeat case_match; intros; simplify_eq; eauto 10 with good.
Qed.

Lemma Good_patchFinish now req actor target tid inc rev s r s' :
  Good s -> patchFinish now req actor target tid inc rev s = Some (r, s') -> Good s'.
Proof.
  intros H. unfold patchFinish.
  repeat case_match; intros; simplify_eq; eauto 10 with good.
Qed.

Lemma Good_patchUser now req actor me s r s' :
  Good s -> patchUser now req actor me s = Some (r, s') -> Good s'.
Proof.
  intros H. unfold patchUser.
  destruct (findUserById (params_id req) s) as [[i target]|]; [|by intros [= <- <-]].
  destruct (_ && _); [by intros [= <- <-]|].
  destruct (_ && _ && _); [by intros [= <- <-]|].
  cbv zeta.
  match goal with
  | |- context [patchFinish _ _ _ _ _ _ _ ?X] => assert (Good X) as H2
  end.
  { repeat case_match; auto with good. }
  destruct (String.eqb (body_text req "token") ""); [by apply Good_patchFinish|].
  destruct (tokenTaken _ _ _); [by intros [= <- <-]|].
  apply Good_patchFinish. auto with good.
Qed.

Lemma Good_deleteUser now req me s : Good s -> Good (deleteUser now req me s).2.
Proof.
  intros H. unfold deleteUser. repeat case_match; simpl; eauto 10 with good.
Qed.

Lemma Good_serve now route req s r s' :
  Good s -> serve now route req s = Some (r, s') -> Good s'.
Proof.
  intros H. destruct route; unfold serve.
  - intros [= Heq]. pose proof (Good_postLogin now req s H) as Hg.
    by rewrite Heq in Hg.
  - apply guarded_keeps; [auto with good| |done].
    intros ? ? s1 r1 s1' H1. unfold postLogout. case_match; intros [= <- <-]; auto with good.
  - apply guarded_keeps; [auto with good| |done]. by intros ? ? s1 r1 s1' H1 [= <- <-].
  - apply guarded_keeps; [auto with good| |done]. by intros ? ? s1 r1 s1' H1 [= <- <-].
  - apply guarded_keeps; [auto with good| |done]. by intros ? ? s1 r1 s1' H1 [= <- <-].
  - apply guarded_keeps; [auto with good| |done]. intros ? u s1 r1 s1' H1.
    pose proof (Good_startBot now (actor_of u) (thrown req) s1 H1) as Hs.
    destruct (startBot now (actor_of u) (thrown req) s1). intros [= <- <-]. exact Hs.
  - apply guarded_keeps; [auto with good| |done]. intros ? u s1 r1 s1' H1.
    pose proof (Good_stopBot now (actor_of u) s1 H1) as Hs.
    destruct (stopBot now (actor_of u) s1). intros [= <- <-]. exact Hs.
  - apply guarded_keeps; [auto with good| |done]. intros ? u s1 r1 s1' H1.
    pose proof (Good_restartBot now (actor_of u) s1 H1) as Hs.
    destruct (restartBot now (actor_of u) s1). intros [= <- <-]. exact Hs.
  - apply guarded_keeps; [auto with good| |done]. by intros ? ? s1 r1 s1' H1 [= <- <-].
  - apply guarded_keeps; [auto with good| |done]. intros ? u s1 r1 s1' H1.
    unfold postConfig. intros [= <- <-]. eauto 10 with good.
  - apply guarded_keeps; [auto with good| |done]. by intros ? ? s1 r1 s1' H1 [= <- <-].
  - apply guarded_keeps; [auto with good| |done]. intros ? u s1 r1 s1' H1.
    by apply Good_postUsers.
  - apply guarded_keeps; [auto with good| |done]. intros ? u s1 r1 s1' H1.
    by apply Good_patchUser.
  - apply guarded_keeps; [auto with good| |done]. intros ? u s1 r1 s1' H1 [= Heq].
    pose proof (Good_deleteUser now req u s1 H1) as Hg. by rewrite Heq in Hg.
Qed.

Lemma Safe_fireTimeout now t thrown s :
  Safe s -> t ∈ timeouts s -> Safe (fireTimeout now t thrown s).
Proof.
  intros H Ht. unfold fireTimeout.
  destruct (t_callback t) as [|actor] eqn:Hcb.
  - assert (reconnectTimer s = Some (t_handle t)) as Hk.
    { safe_open H.
      assert (t_handle t ∈ option_list (reconnectTimer s)) as Hin.
      { rewrite <- Hr. apply list_elem_of_fmap_2, list_elem_of_filter. done. }
      destruct (reconnectTimer s); [|by apply elem_of_nil in Hin].
      apply list_elem_of_singleton in Hin. by rewrite Hin. }
    apply Safe_clearReconnectTimer in H. unfold clearReconnectTimer in H.
    rewrite Hk in H. cbv zeta. case_match; [exact H|by apply Safe_createBot].
  - apply Safe_startBot.
    safe_open H. safe_split; try done.
    + rewrite <- Hr.
      apply (handles_clear_other t_handle (λ x, t_callback x = CbStart actor)
               (λ x, t_callback x = CbReconnect)); [done| |congruence].
      apply list_elem_of_fmap_2, list_elem_of_filter. done.
    + by apply fresh_clear.
    + by apply distinct_clear.
Qed.

Lemma Good_fireTimeout now t thrown s :
  Good s -> t ∈ timeouts s -> Good (fireTimeout now t thrown s).
Proof. intros [H1 H2] Ht. split; [by apply Safe_fireTimeout|by apply Idle_fireTimeout]. Qed.

Lemma Good_runInterval now i entity failure s :
  Good s -> Good (runInterval now i entity failure s).
Proof. intros H. unfold runInterval. case_match; auto with good. Qed.

Lemma client_running c s : Good s -> c ∈ clients s -> Running s.
Proof.
  intros [H1 H2] Hc. safe_open H1.
  destruct (isRunning s) eqn:Hrun; [done|].
  destruct (H2 Hrun) as (Hb & _). rewrite Hb in Hc0.
  apply fmap_nil_inv in Hc0. rewrite Hc0 in Hc. by apply elem_of_nil in Hc.
Qed.

Lemma Good_emit now c ev s : Good s -> c ∈ clients s -> Good (emit now c ev s).
Proof.
  intros H Hc. pose proof (client_running c s H Hc) as Hrun.
  destruct H as [H1 H2]. unfold emit.
  split; [apply Safe_listener|apply Idle_listener].
  - destruct ev; try exact H1.
    safe_open H1. safe_split; try done.
    rewrite <- Hc0, <- list_fmap_compose. apply list_fmap_ext.
    intros ? x _. simpl. by case_bool_decide.
  - destruct ev; exact Hrun.
Qed.

Lemma Good_wsConnect now session s : Good s -> Good (wsConnect now session s).
Proof. intros H. unfold wsConnect. apply (resolve_keeps Good); auto with good. Qed.

Lemma Good_wsMessage now permissions user action thrown s :
  Good s -> Good (wsMessage now permissions user action thrown s).
Proof. intros H. unfold wsMessage. repeat case_match; auto with good. Qed.

Lemma Good_step s s' : step s s' -> Good s -> Good s'.
Proof.
  intros Hstep H. destruct Hstep.
  - by eapply Good_serve.
  - by apply Good_wsConnect.
  - by apply Good_wsMessage.
  - by apply Good_addLog.
  - by apply Good_fireTimeout.
  - by apply Good_runInterval.
  - by apply Good_emit.
Qed.

Lemma Good_steps s s' : rtc step s s' -> Good s -> Good s'.
Proof. induction 1; eauto using Good_step. Qed.

Lemma merged_number_positive raw k dflt : 0 < dflt -> 0 < merged_number raw k dflt.
Proof. intros H. unfold merged_number. case_match; by apply toPositiveInt_positive. Qed.

Lemma loadConfig_positive e c : loadConfig e = Some c -> numbers_positive c.
Proof.
  unfold loadConfig. intros Hc.
  assert (∃ u, c = {| host := merged_text (default (JObj []) (file e)) "host" (host DEFAULT_CONFIG);
              port := merged_number (default (JObj []) (file e)) "port" (port DEFAULT_CONFIG);
              username := merged_text (default (JObj []) (file e)) "username" (username DEFAULT_CONFIG);
              reconnectDelay :=
                merged_number (default (JObj []) (file e)) "reconnectDelay" (reconnectDelay DEFAULT_CONFIG);
              pingInterval :=
                merged_number (default (JObj []) (file e)) "pingInterval" (pingInterval DEFAULT_CONFIG);
              version := merged_text (default (JObj []) (file e)) "version" (version DEFAULT_CONFIG);
              users := u |}) as [u ->].
  { destruct (file e) as [[]|]; simpl in *; try done; simplify_eq; eauto. }
  split_and!; by apply merged_number_positive.
Qed.

Lemma Good_boot e s : boot e = Some s -> Good s.
Proof.
  unfold boot. destruct (loadConfig e) as [c|] eqn:Hc; [|done].
  intros [= <-]. split.
  - safe_split; try done; try apply NoDup_singleton;
      try (apply Forall_singleton; simpl; lia); try (simpl; lia).
    by eapply loadConfig_positive.
  - by intros _.
Qed.

Lemma Good_reachable s : reachable s -> Good s.
Proof. intros (e & s0 & Hb & Hs). eauto using Good_steps, Good_boot. Qed.

(** ** The concrete runs are runs of the server *)

Lemma reachable_boot : reachable example_boot.
Proof. exists example_env, example_boot. split; [reflexivity|apply rtc_refl]. Qed.

Lemma reachable_step s s' : reachable s -> step s s' -> reachable s'.
Proof.
  intros (e & s0 & Hb & Hs) Hstep. exists e, s0. split; [done|].
  eapply rtc_r; eauto.
Qed.

Lemma reachable_started : reachable example_started.
Proof.
  eapply reachable_step; [apply reachable_boot|].
  apply step_timeout. apply list_elem_of_singleton. reflexivity.
Qed.

Lemma reachable_online : reachable example_online.
Proof.
  eapply reachable_step; [apply reachable_started|].
  apply step_client; [|reflexivity].
  vm_compute. apply list_elem_of_singleton. reflexivity.
Qed.

Lemma reachable_kicked : reachable example_kicked.
Proof.
  eapply reachable_step; [apply reachable_online|].
  apply step_client; [|done].
  vm_compute. apply list_elem_of_singleton. reflexivity.
Qed.

Lemma reachable_admin_in : reachable example_admin_in.
Proof.
  eapply reachable_step; [apply reachable_boot|].
  eapply (step_request 10 PostLogin). unfold serve. f_equal. apply surjective_pairing.
Qed.

(** ** Start and stop *)

Lemma stopBot_not_running now actor s : isRunning (stopBot now actor s).2 = false.
Proof.
  unfold stopBot. destruct (isRunning s) eqn:Hrun; cbn [negb snd]; [|exact Hrun].
  change (isRunning (quitBot (stopHealthTimer (stopPingTimer (clearReconnectTimer
            (set_isRunning false s))))) = false).
  generalize (set_isRunning false s), (eq_refl : isRunning (set_isRunning false s) = false).
  intros s0 H0.
  unfold quitBot, stopHealthTimer, stopPingTimer, clearReconnectTimer.
  destruct (reconnectTimer s0) eqn:Hr; fields;
    destruct (pingTimer s0) eqn:Hp; fields;
    destruct (healthTimer s0) eqn:Hh; fields;
    destruct (bot s0) eqn:Hb; fields; rewrite ?Hr, ?Hp, ?Hh, ?Hb; done.
Qed.

Lemma Good_run ops s : Good s -> Good (run ops s).
Proof.
  revert s. induction ops as [|op ops IH]; intros s H; [done|].
  apply IH. destruct op; simpl; auto with good.
Qed.

Lemma Safe_one_client s : Safe s -> (length (clients s) ≤ 1)%nat.
Proof.
  intros H. safe_open H.
  rewrite <- (length_fmap cid), Hc. destruct (bot s); simpl; lia.
Qed.

Lemma Safe_one_reconnect s : Safe s -> (length (pending_reconnects s) ≤ 1)%nat.
Proof.
  intros H. safe_open H. unfold pending_reconnects.
  rewrite Hr. destruct (reconnectTimer s); simpl; lia.
Qed.

(** C1: whatever calls of [startBot] and [stopBot] are made, one after the
    other, from a state the server can be in, at most one protocol client has
    its listeners attached (and it is the one [bot] refers to), and when any
    further call of [stopBot] returns no reconnect timeout is pending. *)
Theorem one_client_and_stop_cancels_reconnect (s : State) (ops : list Op) :
  reachable s ->
  (length (clients (run ops s)) ≤ 1)%nat
  ∧ cid <$> clients (run ops s) = option_list (bot (run ops s))
  ∧ ∀ now actor, pending_reconnects (stopBot now actor (run ops s)).2 = [].
Proof.
  intros Hs. apply Good_reachable in Hs. apply (Good_run ops) in Hs.
  split_and!.
  - apply Safe_one_client, Hs.
  - destruct Hs as [Hsafe _]. by safe_open Hsafe.
  - intros now actor.
    destruct (Good_stopBot now actor _ Hs) as [Hsafe Hidle].
    destruct (Hidle (stopBot_not_running now actor _)) as (_ & Hr & _).
    safe_open Hsafe. unfold pending_reconnects. by rewrite Hr0, Hr.
Qed.

Lemma one_client_and_stop_cancels_reconnect_witness :
  let ops := [OpStart 10 None None; OpStop 20 None; OpStop 30 None; OpStart 40 None (Some "boom")] in
  (length (clients (run ops example_boot)) ≤ 1)%nat
  ∧ cid <$> clients (run ops example_boot) = option_list (bot (run ops example_boot))
  ∧ ∀ now actor, pending_reconnects (stopBot now actor (run ops example_boot)).2 = [].
Proof.
  apply (one_client_and_stop_cancels_reconnect example_boot).
  apply reachable_boot.
Defined.

(** C5: in every state the server can be in at most one reconnect timeout is
    pending, also after a further call of [queueReconnect]; and while one is
    pending, [queueReconnect] changes nothing: no second timeout, the attempt
    counter as it was. *)
Theorem at_most_one_reconnect_pending (s : State) (now : Z) (reason : string) :
  reachable s ->
  (length (pending_reconnects s) ≤ 1)%nat
  ∧ (length (pending_reconnects (queueReconnect now reason s)) ≤ 1)%nat
  ∧ (pending_reconnects s ≠ [] -> queueReconnect now reason s = s).
Proof.
  intros Hs. apply Good_reachable in Hs. destruct Hs as [Hsafe Hidle].
  split_and!.
  - by apply Safe_one_reconnect.
  - by apply Safe_one_reconnect, Safe_queueReconnect.
  - intros Hp. safe_open Hsafe. unfold pending_reconnects in Hp. rewrite Hr in Hp.
    unfold queueReconnect. destruct (isRunning s); [|done]. cbn [negb].
    by destruct (reconnectTimer s).
Qed.

Lemma at_most_one_reconnect_pending_witness :
  (length (pending_reconnects example_kicked) ≤ 1)%nat
  ∧ (length (pending_reconnects (queueReconnect 1800 "kicked" example_kicked)) ≤ 1)%nat
  ∧ (pending_reconnects example_kicked ≠ [] ->
     queueReconnect 1800 "kicked" example_kicked = example_kicked).
Proof.
  apply (at_most_one_reconnect_pending example_kicked 1800 "kicked").
  apply reachable_kicked.
Defined.

(** C8: while the bot is meant to run, [startBot] reports a failure and
    leaves the whole state as it is, the attempt counter, the start time and
    the timers included; while it is not, [stopBot] does. *)
Theorem start_and_stop_refuse_repetition
    (s : State) (now : Z) (actor : option Actor) (thrown : option string) :
  if isRunning s
  then startBot now actor thrown s
       = ({| success := false; result_message := Some "Bot already running" |}, s)
  else stopBot now actor s
       = ({| success := false; result_message := Some "Bot not running" |}, s).
Proof.
  unfold startBot, stopBot. by destruct (isRunning s).
Qed.

(** ** Sessions *)

(** C4: for a session handle (never the empty text), when
    [resolveAuthFromToken] succeeds at time [now] the session it returns, which
    is the one then stored under the handle, expires at exactly [now] plus
    fourteen days, and the session it found had not expired; when the session
    stored under the handle expires at or before [now] it returns nothing and
    the session is gone from the store. *)
Theorem resolve_slides_and_purges (s : State) (now : Z) (tok : string) :
  tok ≠ "" ->
  SESSION_TTL_MS = 14 * 24 * 60 * 60 * 1000
  ∧ (∀ i u session s',
       resolveAuthFromToken now (Some tok) s = (Some (i, u, session), s') ->
       expiresAt session = now + SESSION_TTL_MS
       ∧ sessions s' !! tok = Some session
       ∧ ∃ old, sessions s !! tok = Some old
                ∧ now < expiresAt old
                ∧ userId session = userId old
                ∧ users (config s) !! i = Some u
                ∧ id u = userId old)
  ∧ (∀ old, sessions s !! tok = Some old -> expiresAt old ≤ now ->
       resolveAuthFromToken now (Some tok) s
       = (None, set_sessions (delete tok (sessions s)) s)
       ∧ sessions (resolveAuthFromToken now (Some tok) s).2 !! tok = None).
Proof.
  intros Htok. split; [reflexivity|].
  unfold resolveAuthFromToken.
  apply String.eqb_neq in Htok. rewrite Htok.
  split.
  - intros i u session s'.
    destruct (sessions s !! tok) as [old|] eqn:Hold; [|done].
    destruct (Z.leb_spec (expiresAt old) now) as [Hle|Hgt]; [done|].
    destruct (findUserById (userId old) s) as [[j v]|] eqn:Hu; [|done].
    intros [= <- <- <- <-].
    split_and!; [done|apply lookup_insert_eq|].
    exists old. unfold findUserById in Hu. apply list_find_Some in Hu as (? & ? & _).
    by split_and!.
  - intros old -> Hle.
    destruct (Z.leb_spec (expiresAt old) now) as [_|Hgt]; [|lia].
    split; [done|]. apply lookup_delete_eq.
Qed.

Lemma resolve_slides_and_purges_witness :
  "sa" ≠ ""
  ∧ SESSION_TTL_MS = 14 * 24 * 60 * 60 * 1000
  ∧ (∀ i u session s',
       resolveAuthFromToken 50 (Some "sa") example_admin_in = (Some (i, u, session), s') ->
       expiresAt session = 50 + SESSION_TTL_MS
       ∧ sessions s' !! "sa" = Some session
       ∧ ∃ old, sessions example_admin_in !! "sa" = Some old
                ∧ 50 < expiresAt old
                ∧ userId session = userId old
                ∧ users (config example_admin_in) !! i = Some u
                ∧ id u = userId old)
  ∧ (∀ old, sessions example_admin_in !! "sa" = Some old -> expiresAt old ≤ 50 ->
       resolveAuthFromToken 50 (Some "sa") example_admin_in
       = (None, set_sessions (delete "sa" (sessions example_admin_in)) example_admin_in)
       ∧ sessions (resolveAuthFromToken 50 (Some "sa") example_admin_in).2 !! "sa" = None).
Proof.
  split; [discriminate|].
  apply (resolve_slides_and_purges example_admin_in 50 "sa"). discriminate.
Defined.

Example resolve_example :
  (resolveAuthFromToken 50 (Some "sa") example_admin_in).1
  = Some (0%nat,
          {| id := "a"; name := "Owner"; urole := admin; token := "ta";
             createdAt := SIso 0; lastLoginAt := SIso 10 |},
          {| userId := "a"; expiresAt := 1209600050 |}).
Proof. vm_compute. reflexivity. Qed.

Example resolve_expired_example :
  (resolveAuthFromToken 1209600010 (Some "sa") example_admin_in).1 = None
  ∧ sessions (resolveAuthFromToken 1209600010 (Some "sa") example_admin_in).2 !! "sa" = None.
Proof. vm_compute. split; reflexivity. Qed.

(** ** The log buffer *)

Lemma push_log_drop entry l :
  (length l ≤ MAX_LOGS)%nat ->
  push_log entry l = drop (length l + 1 - MAX_LOGS) (l ++ [entry]).
Proof.
  intros Hl. unfold push_log. rewrite length_app. simpl.
  destruct (Nat.ltb_spec MAX_LOGS (length l + 1)) as [Hlt|Hge].
  - replace (length l + 1 - MAX_LOGS)%nat with 1%nat by lia.
    by destruct (l ++ [entry]).
  - replace (length l + 1 - MAX_LOGS)%nat with 0%nat by lia. done.
Qed.

Lemma push_all_drop entries l :
  (length l ≤ MAX_LOGS)%nat ->
  foldl (λ l e, push_log e l) l entries
  = drop (length l + length entries - MAX_LOGS) (l ++ entries).
Proof.
  revert l. induction entries as [|e entries IH]; intros l Hl.
  - simpl. rewrite app_nil_r. replace (length l + 0 - MAX_LOGS)%nat with 0%nat by lia. done.
  - simpl. rewrite IH by by apply push_log_length.
    rewrite push_log_drop by done.
    assert (length (drop (length l + 1 - MAX_LOGS) (l ++ [e]))
            = (length l + 1 - (length l + 1 - MAX_LOGS))%nat) as Hlen.
    { rewrite length_drop, length_app. simpl. lia. }
    rewrite Hlen.
    replace (l ++ e :: entries) with ((l ++ [e]) ++ entries) by by rewrite <- app_assoc.
    generalize (l ++ [e]), (length_app l [e]). simpl. intros m Hm.
    rewrite <- (drop_app_le m entries (length l + 1 - MAX_LOGS)) by lia.
    rewrite drop_drop. f_equal. lia.
Qed.

Lemma logs_appendLogs items s :
  logs (appendLogs items s) = foldl (λ l e, push_log e l) (logs s) (entry_of <$> items).
Proof.
  revert s. induction items as [|item items IH]; intros s; [done|].
  simpl. by rewrite IH.
Qed.

(** C9: the log buffer of a state the server can be in holds at most 500
    entries, and still does after any further calls of [addLog]; after 500 + k
    such calls the buffer holds exactly the last 500 of the entries added,
    oldest first, and [GET /api/logs?limit=500] answers with them. *)
Theorem log_buffer_keeps_the_last_500 (s : State) (items : list (Z * string * string)) :
  reachable s ->
  MAX_LOGS = 500%nat
  ∧ (length (logs s) ≤ MAX_LOGS)%nat
  ∧ (length (logs (appendLogs items s)) ≤ MAX_LOGS)%nat
  ∧ ∀ k, length items = (MAX_LOGS + k)%nat ->
         logs (appendLogs items s) = entry_of <$> drop k items
         ∧ getLogs (Some (JStr "500")) (appendLogs items s) = entry_of <$> drop k items
         ∧ length (getLogs (Some (JStr "500")) (appendLogs items s)) = MAX_LOGS.
Proof.
  intros Hs. apply Good_reachable in Hs. destruct Hs as [(_ & Hl & _) _].
  assert (logs (appendLogs items s)
          = drop (length (logs s) + length items - MAX_LOGS) (logs s ++ (entry_of <$> items)))
    as Hlogs.
  { rewrite logs_appendLogs, push_all_drop by done. by rewrite length_fmap. }
  split_and!; [done|done| |].
  - rewrite Hlogs, length_drop, length_app, length_fmap. lia.
  - intros k Hk.
    assert (logs (appendLogs items s) = entry_of <$> drop k items) as Hlast.
    { rewrite Hlogs, Hk.
      replace (length (logs s) + (MAX_LOGS + k) - MAX_LOGS)%nat
        with (length (logs s) + k)%nat by lia.
      rewrite drop_app_add'  by done. by rewrite fmap_drop. }
    assert (length (entry_of <$> drop k items) = MAX_LOGS) as Hlen.
    { rewrite length_fmap, length_drop. lia. }
    assert (getLogs (Some (JStr "500")) (appendLogs items s) = entry_of <$> drop k items)
      as Hget.
    { unfold getLogs. rewrite Hlast.
      change (toPositiveInt (Some (JStr "500")) 100) with 500.
      unfold recent. change (Z.to_nat (Z.min 500 (Z.of_nat MAX_LOGS))) with MAX_LOGS.
      rewrite Hlen. by rewrite Nat.sub_diag. }
    split_and!; [done|done|by rewrite Hget].
Qed.

Lemma log_buffer_keeps_the_last_500_witness :
  let items := (λ n, (Z.of_nat n, "INFO", "entry")) <$> seq 0 503 in
  MAX_LOGS = 500%nat
  ∧ (length (logs example_kicked) ≤ MAX_LOGS)%nat
  ∧ (length (logs (appendLogs items example_kicked)) ≤ MAX_LOGS)%nat
  ∧ ∀ k, length items = (MAX_LOGS + k)%nat ->
         logs (appendLogs items example_kicked) = entry_of <$> drop k items
         ∧ getLogs (Some (JStr "500")) (appendLogs items example_kicked)
           = entry_of <$> drop k items
         ∧ length (getLogs (Some (JStr "500")) (appendLogs items example_kicked)) = MAX_LOGS.
Proof.
  apply (log_buffer_keeps_the_last_500 example_kicked). apply reachable_kicked.
Defined.

Example log_buffer_example :
  let items := (λ n, (Z.of_nat n, "INFO", "entry")) <$> seq 0 503 in
  length items = (MAX_LOGS + 3)%nat
  ∧ time <$> getLogs (Some (JStr "500")) (appendLogs items example_kicked)
    = Z.of_nat <$> seq 3 500.
Proof. vm_compute. split; reflexivity. Qed.

(** ** The numeric fields of the configuration *)

Lemma toPositiveInt_settled v old : settled v old (toPositiveInt v old).
Proof.
  unfold settled, parses_to, toPositiveInt.
  destruct (parseInt (toString_opt v)) as [|z| |] eqn:Hp;
    try (right; split; [intros z' [? _]; congruence|done]).
  destruct (Z.ltb_spec 0 z) as [Hz|Hz]; [by left|].
  right. split; [|done]. intros z' [[= ->] ?]. lia.
Qed.

Lemma number_field_settled body k old :
  settled (supplied body k) old
    (number_field (match body with
                   | Some v => or_else (Some v) (JObj [])
                   | None => JObj []
                   end) k old).
Proof.
  unfold number_field, supplied. destruct body as [b|]; simpl.
  - destruct (prop _ k) eqn:Hk; [apply toPositiveInt_settled|].
    right. split; [|done]. by intros z [? _].
  - right. split; [|done]. by intros z [? _].
Qed.

Lemma merged_number_settled raw k dflt :
  toPositiveInt (Some (js_of_Z dflt)) dflt = dflt ->
  settled (prop raw k) dflt (merged_number raw k dflt).
Proof.
  intros Hd. unfold merged_number. destruct (prop raw k) eqn:Hk.
  - apply toPositiveInt_settled.
  - rewrite Hd. right. split; [|done]. by intros z [? _].
Qed.

(** C10: the configuration that [loadConfig] returns has positive [port],
    [reconnectDelay] and [pingInterval], each the positive integer that the
    value in the file parses to or else the default; the configuration of every
    state the server can be in has them positive; and after the assignments of
    [POST /api/config] they are positive again, each the positive integer that
    the supplied value parses to or else what it was. *)
Theorem numeric_fields_stay_positive
    (e : load_env) (loaded : Config) (s : State) (body : option json) :
  loadConfig e = Some loaded ->
  reachable s ->
  let raw := default (JObj []) (file e) in
  let written := assignConfig body (config s) in
  numbers_positive loaded
  ∧ settled (prop raw "port") 39695 (port loaded)
  ∧ settled (prop raw "reconnectDelay") 15000 (reconnectDelay loaded)
  ∧ settled (prop raw "pingInterval") 45000 (pingInterval loaded)
  ∧ numbers_positive (config s)
  ∧ numbers_positive written
  ∧ settled (supplied body "port") (port (config s)) (port written)
  ∧ settled (supplied body "reconnectDelay") (reconnectDelay (config s))
      (reconnectDelay written)
  ∧ settled (supplied body "pingInterval") (pingInterval (config s)) (pingInterval written).
Proof.
  intros Hload Hs raw written.
  apply Good_reachable in Hs. destruct Hs as [(_ & _ & Hpos) _].
  assert (port loaded = merged_number raw "port" 39695
          ∧ reconnectDelay loaded = merged_number raw "reconnectDelay" 15000
          ∧ pingInterval loaded = merged_number raw "pingInterval" 45000) as (-> & -> & ->).
  { unfold loadConfig in Hload. subst raw written.
    destruct (file e) as [[]|]; try done; by injection Hload as <-. }
  split_and!.
  - by eapply loadConfig_positive.
  - by apply merged_number_settled.
  - by apply merged_number_settled.
  - by apply merged_number_settled.
  - done.
  - by apply assignConfig_positive.
  - apply number_field_settled.
  - apply number_field_settled.
  - apply number_field_settled.
Qed.

Lemma numeric_fields_stay_positive_witness :
  let body := Some (JObj [("port", JStr "25565"); ("reconnectDelay", JNum "-5");
                          ("pingInterval", JStr "soon")]) in
  let raw := default (JObj []) (file example_env) in
  let written := assignConfig body (config example_kicked) in
  numbers_positive example_config
  ∧ settled (prop raw "port") 39695 (port example_config)
  ∧ settled (prop raw "reconnectDelay") 15000 (reconnectDelay example_config)
  ∧ settled (prop raw "pingInterval") 45000 (pingInterval example_config)
  ∧ numbers_positive (config example_kicked)
  ∧ numbers_positive written
  ∧ settled (supplied body "port") (port (config example_kicked)) (port written)
  ∧ settled (supplied body "reconnectDelay") (reconnectDelay (config example_kicked))
      (reconnectDelay written)
  ∧ settled (supplied body "pingInterval") (pingInterval (config example_kicked))
      (pingInterval written).
Proof.
  apply (numeric_fields_stay_positive example_env example_config example_kicked).
  - reflexivity.
  - apply reachable_kicked.
Defined.

Example assignConfig_example :
  let body := Some (JObj [("port", JStr "25565"); ("reconnectDelay", JNum "-5");
                          ("pingInterval", JStr "soon")]) in
  publicConfig (assignConfig body example_config)
  = {| pc_host := "yosef2903.aternos.me"; pc_port := 25565; pc_username := "AternosGuard";
       pc_reconnectDelay := 15000; pc_pingInterval := 45000; pc_version := "1.20.1" |}.
Proof. vm_compute. reflexivity. Qed.

(** ** Kicked, error, end *)

Ltac evaluate Hs :=
  repeat (fields; rewrite ?Hs).

Lemma disconnect_fields s now c ev :
  isRunning s = true -> is_disconnect ev = true ->
  let s' := emit now c ev s in
  isRunning s' = true
  ∧ pingTimer s' = None
  ∧ serverStatus s' = reach_set_by ev (serverStatus s)
  ∧ (∃ p, OutStatus p ∈ drop (length (sent s)) (sent s')
          ∧ p_botStatus p = phase_set_by ev ∧ p_serverStatus p = serverStatus s')
  ∧ match reconnectTimer s with
    | None =>
        botStatus s' = Connecting
        ∧ reconnectAttempts s' = reconnectAttempts s + 1
        ∧ reconnectTimer s' = Some (next_id s)
    | Some h =>
        botStatus s' = phase_set_by ev
        ∧ reconnectAttempts s' = reconnectAttempts s
        ∧ reconnectTimer s' = Some h
        ∧ timeouts s' = timeouts s
    end.
Proof.
  intros Hrun Hev.
  destruct ev as [| |reason|err|reason| |]; try discriminate Hev;
    unfold emit, listener, onKicked, onError, onEnd, queueReconnect, stopPingTimer,
      reach_set_by, phase_set_by;
    try destruct (bool_decide (code err = Some "ECONNREFUSED"));
    destruct (pingTimer s) eqn:Hpt, (reconnectTimer s) eqn:Hrt;
    repeat (fields; rewrite ?Hrun, ?Hpt, ?Hrt);
    (split_and!; try reflexivity; [];
     rewrite <- ?app_assoc, drop_app_length; simpl;
     eexists; split; [repeat first [apply list_elem_of_here|apply list_elem_of_further]|done]).
Qed.

(** C6, as the code has it: [kicked], [error] and [end] reach the listeners
    only while the bot is meant to run.  The keep-alive interval is stopped;
    reachability becomes offline on [kicked] and on a refused connection,
    unknown on [end]; [kicked] and [error] set the phase to error and [end]
    sets it to connecting, and that is broadcast; then, when no reconnect
    timeout is pending, one is queued, the attempt counter goes up by one and
    the phase becomes connecting, and otherwise the pending one is kept and
    the phase stays.  Either way exactly one reconnect timeout is pending
    afterwards. *)
Theorem disconnect_queues_one_reconnect (s : State) (c : Client) (now : Z) (ev : ClientEvent) :
  reachable s -> c ∈ clients s -> is_disconnect ev = true ->
  let s' := emit now c ev s in
  isRunning s = true
  ∧ isRunning s' = true
  ∧ pingTimer s' = None
  ∧ running JobPing s' = []
  ∧ serverStatus s' = reach_set_by ev (serverStatus s)
  ∧ length (pending_reconnects s') = 1%nat
  ∧ (∃ p, OutStatus p ∈ drop (length (sent s)) (sent s')
          ∧ p_botStatus p = phase_set_by ev ∧ p_serverStatus p = serverStatus s')
  ∧ match reconnectTimer s with
    | None =>
        botStatus s' = Connecting
        ∧ reconnectAttempts s' = reconnectAttempts s + 1
        ∧ reconnectTimer s' = Some (next_id s)
    | Some h =>
        botStatus s' = phase_set_by ev
        ∧ reconnectAttempts s' = reconnectAttempts s
        ∧ reconnectTimer s' = Some h
        ∧ timeouts s' = timeouts s
    end.
Proof.
  intros Hs Hc Hev s'. apply Good_reachable in Hs.
  pose proof (client_running c s Hs Hc) as Hrun.
  pose proof (Good_emit now c ev s Hs Hc) as [Hsafe _]. fold s' in Hsafe.
  destruct (disconnect_fields s now c ev Hrun Hev) as (Hrun' & Hpt & Hsrv & Hsent & Hrt).
  fold s' in Hrun', Hpt, Hsrv, Hsent, Hrt.
  safe_open Hsafe.
  split_and!; try done.
  - unfold running. by rewrite Hp, Hpt.
  - unfold pending_reconnects. rewrite Hr.
    destruct (reconnectTimer s);
      [destruct Hrt as (_ & _ & -> & _)|destruct Hrt as (_ & _ & ->)]; done.
Qed.

Lemma disconnect_queues_one_reconnect_witness :
  let c := {| cid := 3; login_armed := false |} in
  let s' := emit 1700 c (EvKicked None) example_online in
  isRunning example_online = true
  ∧ isRunning s' = true
  ∧ pingTimer s' = None
  ∧ running JobPing s' = []
  ∧ serverStatus s' = reach_set_by (EvKicked None) (serverStatus example_online)
  ∧ length (pending_reconnects s') = 1%nat
  ∧ (∃ p, OutStatus p ∈ drop (length (sent example_online)) (sent s')
          ∧ p_botStatus p = phase_set_by (EvKicked None)
          ∧ p_serverStatus p = serverStatus s')
  ∧ match reconnectTimer example_online with
    | None =>
        botStatus s' = Connecting
        ∧ reconnectAttempts s' = reconnectAttempts example_online + 1
        ∧ reconnectTimer s' = Some (next_id example_online)
    | Some h =>
        botStatus s' = phase_set_by (EvKicked None)
        ∧ reconnectAttempts s' = reconnectAttempts example_online
        ∧ reconnectTimer s' = Some h
        ∧ timeouts s' = timeouts example_online
    end.
Proof.
  apply (disconnect_queues_one_reconnect example_online
           {| cid := 3; login_armed := false |} 1700 (EvKicked None)).
  - apply reachable_online.
  - vm_compute. apply list_elem_of_here.
  - reflexivity.
Defined.

(** C6 as stated fails: the bot is started, its client logs in and is then
    kicked; afterwards one reconnect timeout is pending and the phase is
    connecting, not error.  After [end] instead of [kicked] the phase is
    connecting as well, and no status with the phase error was broadcast. *)
Lemma kicked_leaves_phase_connecting :
  let c := {| cid := 3; login_armed := false |} in
  reachable example_online
  ∧ c ∈ clients example_online
  ∧ isRunning example_online = true
  ∧ botStatus example_online = Online
  ∧ botStatus (emit 1700 c (EvKicked None) example_online) = Connecting
  ∧ botStatus (emit 1700 c (EvKicked None) example_online) ≠ Error
  ∧ pending_reconnects (emit 1700 c (EvKicked None) example_online) = [5%nat]
  ∧ botStatus (emit 1700 c (EvEnd None) example_online) = Connecting
  ∧ Forall (λ o, match o with OutStatus p => p_botStatus p ≠ Error | OutLog _ => True end)
      (drop (length (sent example_online)) (sent (emit 1700 c (EvEnd None) example_online))).
Proof.
  split; [apply reachable_online|].
  vm_compute. split_and!; try reflexivity; try discriminate.
  - apply list_elem_of_here.
  - repeat constructor; discriminate.
Qed.

(** ** The health sweep *)

Lemma Safe_no_bot_no_client s : Safe s -> bot s = None -> clients s = [].
Proof.
  intros H Hb. safe_open H. rewrite Hb in Hc. by apply fmap_nil_inv in Hc.
Qed.

Lemma queueReconnect_fresh s now reason :
  Safe s -> isRunning s = true -> reconnectTimer s = None ->
  let s' := queueReconnect now reason s in
  length (pending_reconnects s') = 1%nat
  ∧ reconnectAttempts s' = reconnectAttempts s + 1
  ∧ botStatus s' = Connecting
  ∧ bot s' = bot s ∧ clients s' = clients s ∧ serverStatus s' = serverStatus s
  ∧ pingTimer s' = pingTimer s.
Proof.
  intros Hsafe Hrun Hrt s'.
  pose proof (Safe_queueReconnect now reason s Hsafe) as Hsafe'. fold s' in Hsafe'.
  assert (reconnectTimer s' = Some (next_id s)) as Hrt'.
  { subst s'. unfold queueReconnect. rewrite Hrun, Hrt. reflexivity. }
  split_and!.
  - safe_open Hsafe'. unfold pending_reconnects. by rewrite Hr, Hrt'.
  - subst s'. unfold queueReconnect. rewrite Hrun, Hrt. reflexivity.
  - subst s'. unfold queueReconnect. rewrite Hrun, Hrt. reflexivity.
  - subst s'. unfold queueReconnect. rewrite Hrun, Hrt. reflexivity.
  - subst s'. unfold queueReconnect. rewrite Hrun, Hrt. reflexivity.
  - subst s'. unfold queueReconnect. rewrite Hrun, Hrt. reflexivity.
  - subst s'. unfold queueReconnect. rewrite Hrun, Hrt. reflexivity.
Qed.

Lemma queueReconnect_pending s now reason h :
  reconnectTimer s = Some h -> queueReconnect now reason s = s.
Proof.
  intros Hrt. unfold queueReconnect. rewrite Hrt. by destruct (isRunning s).
Qed.

(** C7, as the code has it: a run of the health callback does nothing unless
    the bot is meant to run.  When it is: (a) if the phase is online and the
    last activity is further back than max(2 x pingInterval, 90 s), the
    callback stops the keep-alive, quits the client, sets the phase to error
    and reachability to unknown, broadcasts that, and then calls
    [queueReconnect]: when no reconnect timeout was pending, one is queued, the
    attempt counter goes up by one and the phase moves on to connecting; when
    one was pending, nothing is queued, the timeouts and the attempt counter
    are as they were and the phase stays error.  Either way exactly one
    reconnect timeout is pending afterwards.  (b) Otherwise, if the phase is
    error or connecting and no reconnect timeout is pending, it calls
    [queueReconnect], which queues one and sets the phase to connecting;
    otherwise it does nothing. *)
Theorem health_sweep_recycles_and_requeues (s : State) (now : Z) :
  reachable s ->
  let staleThreshold := Z.max (pingInterval (config s) * 2) 90000 in
  let stale := botStatus s = Online ∧ staleThreshold < now - lastBotEventAt s in
  let lost := (botStatus s = Error ∨ botStatus s = Connecting) ∧ pending_reconnects s = [] in
  let s' := healthTick now s in
  (isRunning s = false -> s' = s)
  ∧ (isRunning s = true -> stale ->
     ∃ mid,
       s' = queueReconnect now "stale heartbeat" mid
       ∧ bot mid = None ∧ clients mid = [] ∧ pingTimer mid = None
       ∧ botStatus mid = Error ∧ serverStatus mid = Unknown
       ∧ last (sent mid) = Some (OutStatus (buildStatusPayload now mid))
       ∧ bot s' = None ∧ clients s' = [] ∧ pingTimer s' = None
       ∧ serverStatus s' = Unknown
       ∧ length (pending_reconnects s') = 1%nat
       ∧ match reconnectTimer s with
         | None => reconnectAttempts s' = reconnectAttempts s + 1 ∧ botStatus s' = Connecting
         | Some h =>
             s' = mid ∧ reconnectTimer s' = Some h
             ∧ botStatus s' = Error
             ∧ reconnectAttempts s' = reconnectAttempts s
             ∧ timeouts s' = timeouts s
         end)
  ∧ (isRunning s = true -> ¬ stale -> lost ->
     s' = queueReconnect now "health monitor" s
     ∧ length (pending_reconnects s') = 1%nat
     ∧ reconnectAttempts s' = reconnectAttempts s + 1
     ∧ botStatus s' = Connecting)
  ∧ (isRunning s = true -> ¬ stale -> ¬ lost -> s' = s).
Proof.
  intros Hs staleThreshold stale lost s'.
  apply Good_reachable in Hs. destruct Hs as [Hsafe Hidle].
  assert (bool_decide (botStatus s = Online)
          && (Z.max (pingInterval (config s) * 2) 90000 <? now - lastBotEventAt s) = true
          ↔ stale) as Hstale.
  { subst stale staleThreshold.
    rewrite andb_true_iff, bool_decide_eq_true, Z.ltb_lt. done. }
  assert ((bool_decide (botStatus s = Error) || bool_decide (botStatus s = Connecting))
          && negb (bool_decide (is_Some (reconnectTimer s))) = true ↔ lost) as Hlost.
  { subst lost. rewrite andb_true_iff, orb_true_iff, !bool_decide_eq_true, negb_true_iff,
      bool_decide_eq_false.
    pose proof Hsafe as Hsafe'. safe_open Hsafe'. unfold pending_reconnects. rewrite Hr.
    destruct (reconnectTimer s); simpl; split; intros [H1 H2]; split;
      try done; try (exfalso; apply H2; eauto); by intros [? ?]. }
  split_and!.
  - intros Hrun. subst s'. unfold healthTick. by rewrite Hrun.
  - intros Hrun Hst. apply Hstale in Hst.
    set (mid := broadcastStatus now (set_serverStatus Unknown (set_botStatus Error
                  (quitBot (stopPingTimer
                     (addLog now "WARNING"
                        ("No bot activity for "
                         +:+ string_of_Z (round_seconds (now - lastBotEventAt s))
                         +:+ "s, recycling connection") s)))))).
    assert (s' = queueReconnect now "stale heartbeat" mid) as Hs'.
    { subst s' mid. unfold healthTick. rewrite Hrun. cbn [negb]. cbv zeta.
      by rewrite Hst. }
    assert (Safe mid) as Hmid by (subst mid; eauto 10 with safe).
    assert (Running mid) as Hmidrun by (subst mid; eauto 10 with running).
    assert (bot mid = None) as Hbot by apply quitBot_bot.
    assert (pingTimer mid = None) as Hping.
    { subst mid. unfold quitBot, stopPingTimer.
      destruct (pingTimer s) eqn:Hp; evaluate Hp;
        destruct (bot s) eqn:Hb; evaluate Hb; rewrite ?Hp; done. }
    assert (reconnectTimer mid = reconnectTimer s) as Hrt.
    { subst mid. unfold quitBot, stopPingTimer.
      destruct (pingTimer s) eqn:Hp; evaluate Hp;
        destruct (bot s) eqn:Hb; evaluate Hb; done. }
    assert (reconnectAttempts mid = reconnectAttempts s) as Hra.
    { subst mid. unfold quitBot, stopPingTimer.
      destruct (pingTimer s) eqn:Hp; evaluate Hp;
        destruct (bot s) eqn:Hb; evaluate Hb; done. }
    assert (timeouts mid = timeouts s) as Htm.
    { subst mid. unfold quitBot, stopPingTimer.
      destruct (pingTimer s) eqn:Hp; evaluate Hp;
        destruct (bot s) eqn:Hb; evaluate Hb; done. }
    exists mid. rewrite Hs'.
    destruct (reconnectTimer s) as [h|] eqn:Hrts.
    + rewrite (queueReconnect_pending mid now _ h Hrt).
      split_and!;
        first [done | apply last_snoc | by apply Safe_no_bot_no_client
              | (pose proof Hmid as Hmid'; safe_open Hmid'; unfold pending_reconnects;
                 by rewrite Hr, Hrt)].
    + destruct (queueReconnect_fresh mid now "stale heartbeat" Hmid Hmidrun Hrt)
        as (Hlen & Hatt & Hph & Hb & Hc & Hsv & Hp).
      split_and!;
        first [done | apply last_snoc | by apply Safe_no_bot_no_client
              | by rewrite Hb | (rewrite Hc; by apply Safe_no_bot_no_client)
              | by rewrite Hp | by rewrite Hsv | by rewrite Hatt, Hra].
  - intros Hrun Hnst Hlo.
    assert (s' = queueReconnect now "health monitor" s) as Hs'.
    { subst s'. unfold healthTick. rewrite Hrun. cbn [negb]. cbv zeta.
      apply Hlost in Hlo. rewrite Hlo.
      destruct (_ && _) eqn:Hc; [exfalso; by apply Hnst, Hstale|done]. }
    assert (reconnectTimer s = None) as Hrt.
    { destruct Hlo as [_ Hlo]. pose proof Hsafe as Hsafe'. safe_open Hsafe'.
      unfold pending_reconnects in Hlo. rewrite Hr in Hlo. by destruct (reconnectTimer s). }
    rewrite Hs'.
    destruct (queueReconnect_fresh s now "health monitor" Hsafe Hrun Hrt)
      as (Hlen & Hatt & Hph & _).
    done.
  - intros Hrun Hnst Hnlo. subst s'. unfold healthTick. rewrite Hrun. cbn [negb]. cbv zeta.
    destruct (bool_decide (botStatus s = Online) && _) eqn:Hc1;
      [exfalso; by apply Hnst, Hstale|].
    destruct ((_ || _) && _) eqn:Hc2; [exfalso; by apply Hnlo, Hlost|done].
Qed.

Lemma health_sweep_recycles_and_requeues_witness :
  reachable example_online
  ∧ isRunning example_online = true
  ∧ (botStatus example_online = Online
     ∧ Z.max (pingInterval (config example_online) * 2) 90000
       < 91601 - lastBotEventAt example_online)
  ∧ bot (healthTick 91601 example_online) = None
  ∧ clients (healthTick 91601 example_online) = []
  ∧ serverStatus (healthTick 91601 example_online) = Unknown
  ∧ length (pending_reconnects (healthTick 91601 example_online)) = 1%nat.
Proof.
  assert (botStatus example_online = Online
          ∧ Z.max (pingInterval (config example_online) * 2) 90000
            < 91601 - lastBotEventAt example_online) as Hstale
    by (vm_compute; split; reflexivity).
  destruct (health_sweep_recycles_and_requeues example_online 91601 reachable_online)
    as (_ & Ha & _).
  destruct (Ha eq_refl Hstale) as (mid & _ & _ & _ & _ & _ & _ & _ & Hb & Hc & _ & Hsv & Hlen & _).
  split; [apply reachable_online|]. split; [reflexivity|]. split; [exact Hstale|].
  split_and!; assumption.
Defined.

Example health_sweep_example :
  let s' := healthTick 91601 example_online in
  (bot s', clients s', botStatus s', serverStatus s', pending_reconnects s', reconnectAttempts s')
  = (None, [], Connecting, Unknown, [5%nat], 1)
  ∧ healthTick 91600 example_online = example_online.
Proof. vm_compute. split; reflexivity. Qed.

Lemma reachable_refused : reachable example_refused.
Proof.
  apply (reachable_step example_started); [apply reachable_started|].
  apply (step_client 1550 {| cid := 3; login_armed := true |}
           (EvError {| code := Some "ECONNRESET"; err_message := "read ECONNRESET" |})
           example_started); [|exact I].
  vm_compute. apply list_elem_of_singleton. reflexivity.
Qed.

Lemma reachable_late_login : reachable example_late_login.
Proof.
  apply (reachable_step example_refused); [apply reachable_refused|].
  apply (step_client 1600 {| cid := 3; login_armed := true |} (EvLogin "AternosGuard")
           example_refused); [|reflexivity].
  vm_compute. apply list_elem_of_singleton. reflexivity.
Qed.

(** C7 as stated fails.  The bot is online and has been silent for longer than
    the threshold.  With no reconnect pending, the tick quits the client and
    queues one reconnect, but the phase it leaves is connecting, not error
    (error is only broadcast in between).  With a reconnect already pending
    (the client reported an error, then logged in), the tick leaves the phase
    error, but queues nothing: the timeouts and the attempt counter are as
    they were. *)
Lemma stale_tick_leaves_phase_connecting :
  (reachable example_online
   ∧ isRunning example_online = true
   ∧ botStatus example_online = Online
   ∧ pending_reconnects example_online = []
   ∧ Z.max (pingInterval (config example_online) * 2) 90000
     < 91601 - lastBotEventAt example_online
   ∧ clients (healthTick 91601 example_online) = []
   ∧ botStatus (healthTick 91601 example_online) = Connecting
   ∧ botStatus (healthTick 91601 example_online) ≠ Error
   ∧ pending_reconnects (healthTick 91601 example_online) = [5%nat])
  ∧ (reachable example_late_login
     ∧ isRunning example_late_login = true
     ∧ botStatus example_late_login = Online
     ∧ pending_reconnects example_late_login = [4%nat]
     ∧ Z.max (pingInterval (config example_late_login) * 2) 90000
       < 91601 - lastBotEventAt example_late_login
     ∧ clients (healthTick 91601 example_late_login) = []
     ∧ botStatus (healthTick 91601 example_late_login) = Error
     ∧ timeouts (healthTick 91601 example_late_login) = timeouts example_late_login
     ∧ reconnectAttempts (healthTick 91601 example_late_login)
       = reconnectAttempts example_late_login).
Proof.
  split.
  - split; [apply reachable_online|].
    vm_compute. split_and!; try reflexivity. discriminate.
  - split; [apply reachable_late_login|].
    vm_compute. split_and!; reflexivity.
Qed.

(** ** The controller leaves the configuration alone *)

Create HintDb cfg.

Lemma SameConfig_set_botStatus c v s : SameConfig c s -> SameConfig c (set_botStatus v s).
Proof. intros H. exact H. Qed.
Lemma SameConfig_set_serverStatus c v s : SameConfig c s -> SameConfig c (set_serverStatus v s).
Proof. intros H. exact H. Qed.
Lemma SameConfig_set_reconnectAttempts c v s :
  SameConfig c s -> SameConfig c (set_reconnectAttempts v s).
Proof. intros H. exact H. Qed.
Lemma SameConfig_set_lastPing c v s : SameConfig c s -> SameConfig c (set_lastPing v s).
Proof. intros H. exact H. Qed.
Lemma SameConfig_set_botStartTime c v s : SameConfig c s -> SameConfig c (set_botStartTime v s).
Proof. intros H. exact H. Qed.
Lemma SameConfig_set_isRunning c v s : SameConfig c s -> SameConfig c (set_isRunning v s).
Proof. intros H. exact H. Qed.
Lemma SameConfig_set_keepAlivePulseCount c v s :
  SameConfig c s -> SameConfig c (set_keepAlivePulseCount v s).
Proof. intros H. exact H. Qed.
Lemma SameConfig_set_sessions c v s : SameConfig c s -> SameConfig c (set_sessions v s).
Proof. intros H. exact H. Qed.
Lemma SameConfig_markBotActivity c now s : SameConfig c s -> SameConfig c (markBotActivity now s).
Proof. intros H. exact H. Qed.
Lemma SameConfig_broadcastStatus c now s : SameConfig c s -> SameConfig c (broadcastStatus now s).
Proof. intros H. exact H. Qed.
Lemma SameConfig_addLog c now lv msg s : SameConfig c s -> SameConfig c (addLog now lv msg s).
Proof. intros H. exact H. Qed.
Lemma SameConfig_clearReconnectTimer c s : SameConfig c s -> SameConfig c (clearReconnectTimer s).
Proof. intros H. unfold clearReconnectTimer. case_match; exact H. Qed.
Lemma SameConfig_stopPingTimer c s : SameConfig c s -> SameConfig c (stopPingTimer s).
Proof. intros H. unfold stopPingTimer. case_match; exact H. Qed.
Lemma SameConfig_stopHealthTimer c s : SameConfig c s -> SameConfig c (stopHealthTimer s).
Proof. intros H. unfold stopHealthTimer. case_match; exact H. Qed.
Lemma SameConfig_quitBot c s : SameConfig c s -> SameConfig c (quitBot s).
Proof. intros H. unfold quitBot. case_match; exact H. Qed.
Lemma SameConfig_queueReconnect c now reason s :
  SameConfig c s -> SameConfig c (queueReconnect now reason s).
Proof.
  intros H. unfold queueReconnect.
  destruct (isRunning s); [|exact H]. destruct (reconnectTimer s); exact H.
Qed.
Lemma SameConfig_startPingTimer c s : SameConfig c s -> SameConfig c (startPingTimer s).
Proof. intros H. apply SameConfig_stopPingTimer in H. exact H. Qed.
Lemma SameConfig_startHealthTimer c s : SameConfig c s -> SameConfig c (startHealthTimer s).
Proof. intros H. apply SameConfig_stopHealthTimer in H. exact H. Qed.

#[export] Hint Resolve SameConfig_set_botStatus SameConfig_set_serverStatus
  SameConfig_set_reconnectAttempts SameConfig_set_lastPing SameConfig_set_botStartTime
  SameConfig_set_isRunning SameConfig_set_keepAlivePulseCount SameConfig_set_sessions
  SameConfig_markBotActivity SameConfig_broadcastStatus SameConfig_addLog
  SameConfig_clearReconnectTimer SameConfig_stopPingTimer SameConfig_stopHealthTimer
  SameConfig_quitBot SameConfig_queueReconnect SameConfig_startPingTimer
  SameConfig_startHealthTimer : cfg.

Lemma SameConfig_createBot c now thrown s : SameConfig c s -> SameConfig c (createBot now thrown s).
Proof.
  intros H. unfold createBot. destruct (isRunning s); [|exact H]. cbn [negb]. cbv zeta.
  destruct thrown; [eauto 15 with cfg|].
  change (SameConfig c (addLog now "INFO"
    ("Connecting to " +:+ host (config s) +:+ ":" +:+ string_of_Z (port (config s))
     +:+ " as " +:+ username (config s))
    (broadcastStatus now (markBotActivity now (set_serverStatus Unknown
      (set_botStatus Connecting (quitBot (stopPingTimer (clearReconnectTimer s))))))))).
  eauto 15 with cfg.
Qed.

#[export] Hint Resolve SameConfig_createBot : cfg.

Lemma SameConfig_listener c now ev s : SameConfig c s -> SameConfig c (listener now ev s).
Proof.
  intros H. destruct ev; simpl;
    unfold onLogin, onSpawn, onKicked, onError, onEnd, onActivity;
    repeat case_match; eauto 15 with cfg.
Qed.

Lemma SameConfig_startBot c now actor thrown s :
  SameConfig c s -> SameConfig c (startBot now actor thrown s).2.
Proof. intros H. unfold startBot. case_match; cbn [snd]; eauto 15 with cfg. Qed.

Lemma SameConfig_stopBot c now actor s : SameConfig c s -> SameConfig c (stopBot now actor s).2.
Proof. intros H. unfold stopBot. case_match; cbn [snd]; eauto 15 with cfg. Qed.

#[export] Hint Resolve SameConfig_listener SameConfig_startBot SameConfig_stopBot : cfg.

Lemma SameConfig_restartBot c now actor s :
  SameConfig c s -> SameConfig c (restartBot now actor s).2.
Proof.
  intros H.
  pose proof (SameConfig_stopBot c now actor
    (addLog now "INFO" ("Bot restart requested by " +:+ actorLabel actor) s) H) as H'.
  exact H'.
Qed.

Lemma SameConfig_fireTimeout c now t thrown s :
  SameConfig c s -> SameConfig c (fireTimeout now t thrown s).
Proof.
  intros H. unfold fireTimeout. destruct (t_callback t).
  - cbv zeta. case_match; [exact H|]. by apply SameConfig_createBot.
  - by apply SameConfig_startBot.
Qed.

Lemma SameConfig_pingTick c now entity failure s :
  SameConfig c s -> SameConfig c (pingTick now entity failure s).
Proof. intros H. unfold pingTick. repeat case_match; eauto 10 with cfg. Qed.

Lemma SameConfig_healthTick c now s : SameConfig c s -> SameConfig c (healthTick now s).
Proof. intros H. unfold healthTick. repeat case_match; eauto 15 with cfg. Qed.

#[export] Hint Resolve SameConfig_restartBot SameConfig_fireTimeout SameConfig_pingTick
  SameConfig_healthTick : cfg.

(** ** Users *)

Lemma resolve_config now tok s : config (resolveAuthFromToken now tok s).2 = config s.
Proof. unfold resolveAuthFromToken. repeat case_match; reflexivity. Qed.

Lemma resolve_user now tok s i u session s1 :
  resolveAuthFromToken now tok s = (Some (i, u, session), s1) ->
  users (config s) !! i = Some u ∧ config s1 = config s.
Proof.
  intros H. split.
  - unfold resolveAuthFromToken in H. repeat case_match; simplify_eq.
    unfold findUserById in *.
    match goal with Hf : list_find _ _ = Some _ |- _ => by apply list_find_Some in Hf as (? & _) end.
  - pose proof (resolve_config now tok s) as Hc. by rewrite H in Hc.
Qed.

Lemma guarded_cases now req permission s k r s' :
  guarded now req permission s k = Some (r, s') ->
  (config s' = config s ∧ ∃ st msg, r = Failure st msg ∧ (st = 401 ∨ st = 403))
  ∨ ∃ i u s1,
      config s1 = config s
      ∧ users (config s) !! i = Some u
      ∧ (∀ p, permission = Some p -> p ∈ getPermissions (urole u))
      ∧ k i u s1 = Some (r, s').
Proof.
  unfold guarded.
  destruct (resolveAuthFromToken now (getBearerToken (authorization req)) s)
    as [[[[i u] session]|] s1] eqn:Hres.
  - apply resolve_user in Hres as [Hu Hc].
    destruct permission as [p|].
    + case_bool_decide as Hp.
      * intros Hk. right. exists i, u, s1. split_and!; try done. by intros ? [= <-].
      * intros [= <- <-]. left. split; [done|]. eauto.
    + intros Hk. right. exists i, u, s1. split_and!; done.
  - pose proof (resolve_config now (getBearerToken (authorization req)) s) as Hc.
    rewrite Hres in Hc. intros [= <- <-]. left. split; [done|]. eauto.
Qed.

Lemma writer_is_admin r : "users:write" ∈ getPermissions r -> r = admin.
Proof.
  destruct r; [done| |]; simpl; intros H;
    repeat (apply elem_of_cons in H as [H|H]; [discriminate H|]);
    by apply elem_of_nil in H.
Qed.

Lemma admin_at (l : list User) a u :
  l !! a = Some u -> urole u = admin ->
  (1 ≤ length (filter (λ u, urole u = admin) l))%nat.
Proof.
  intros Hl Hu.
  assert (u ∈ filter (λ u, urole u = admin) l) as Hin.
  { apply list_elem_of_filter. split; [done|]. by eapply list_elem_of_lookup_2. }
  destruct (filter _ l); [by apply elem_of_nil in Hin|simpl; lia].
Qed.

Lemma admin_kept_by_insert (l : list User) i u u' :
  l !! i = Some u -> urole u' = urole u ->
  length (filter (λ u, urole u = admin) (<[i:=u']> l))
  = length (filter (λ u, urole u = admin) l).
Proof.
  revert i. induction l as [|x l IH]; intros [|i] Hl Hr; simplify_eq/=; try done.
  - rewrite !filter_cons, Hr. by case_decide.
  - rewrite !filter_cons. case_decide; simpl; by rewrite (IH i).
Qed.

Lemma admin_kept_by_push (l : list User) u :
  (1 ≤ length (filter (λ u, urole u = admin) l))%nat ->
  (1 ≤ length (filter (λ u, urole u = admin) (l ++ [u])))%nat.
Proof. intros H. rewrite filter_app, length_app. lia. Qed.

Lemma actor_counts a s : actor_is_admin a s -> (1 ≤ adminCount s)%nat.
Proof. intros (u & Hu & Hr). by eapply admin_at. Qed.

Lemma actor_write a i f s :
  actor_is_admin a s -> (∀ u, urole (f u) = urole u) -> actor_is_admin a (write_user i f s).
Proof.
  intros (u & Hu & Hr) Hf. unfold actor_is_admin, write_user. cbn.
  destruct (decide (i = a)) as [->|Hne].
  - exists (f u). rewrite list_lookup_alter_eq, Hu. simpl. by rewrite Hf.
  - exists u. by rewrite list_lookup_alter_ne.
Qed.

Lemma actor_write_role a i r s :
  actor_is_admin a s -> (i = a -> r = admin) -> actor_is_admin a (write_user i (with_role r) s).
Proof.
  intros (u & Hu & Hr) Hf. unfold actor_is_admin, write_user. cbn.
  destruct (decide (i = a)) as [->|Hne].
  - exists (with_role r u). rewrite list_lookup_alter_eq, Hu. simpl. by rewrite Hf.
  - exists u. by rewrite list_lookup_alter_ne.
Qed.

Lemma actor_patchFinish now req a target tid inc rev s r s' :
  actor_is_admin a s ->
  patchFinish now req a target tid inc rev s = Some (r, s') ->
  actor_is_admin a s' ∧ ∃ u, r = UserOf u.
Proof.
  intros H. unfold patchFinish.
  destruct (match body_prop req "rotateToken" with
            | Some (JBool true) => _
            | _ => _
            end) as [[[inc' rev'] s1]|] eqn:Hrot; [|done].
  assert (actor_is_admin a s1) as H1.
  { repeat case_match; simplify_eq; try done. by apply actor_write. }
  set (s2 := if rev' then revokeSessionsForUser tid s1 else s1).
  assert (actor_is_admin a s2) as H2 by (subst s2; by destruct rev').
  destruct (users (config s2) !! a), (users (config s2) !! target); try done.
  intros [= <- <-]. split; [exact H2|eauto].
Qed.

Lemma actor_patchUser now req a me s r s' :
  users (config s) !! a = Some me -> urole me = admin ->
  patchUser now req a me s = Some (r, s') ->
  (s' = s ∧ ∃ msg, r = Failure 404 msg ∨ r = Failure 400 msg)
  ∨ (actor_is_admin a s' ∧ ((∃ msg, r = Failure 409 msg) ∨ ∃ u, r = UserOf u)).
Proof.
  intros Hme Hadm. unfold patchUser.
  destruct (findUserById (params_id req) s) as [[i target]|] eqn:Hfind;
    [|intros [= <- <-]; left; eauto].
  destruct (bool_decide (id target = id me)
            && negb (bool_decide (role_or (body_prop req "role") (urole target) = admin)))
    eqn:Hself; [intros [= <- <-]; left; eauto|].
  destruct (_ && _ && _); [intros [= <- <-]; left; eauto|].
  cbv zeta. intros Hres. right.
  assert (actor_is_admin a s) as H0 by (exists me; done).
  assert (i = a -> role_or (body_prop req "role") (urole target) = admin) as Hrole.
  { intros ->. unfold findUserById in Hfind. apply list_find_Some in Hfind as (Hi & _).
    assert (target = me) as -> by congruence.
    apply andb_false_iff in Hself as [Hs|Hs].
    - by apply bool_decide_eq_false in Hs.
    - apply negb_false_iff in Hs. by apply bool_decide_eq_true in Hs. }
  revert Hres.
  match goal with
  | |- context [patchFinish _ _ _ _ _ _ _ ?X] => assert (actor_is_admin a X) as H2
  end.
  { repeat case_match; try done; try (by apply actor_write_role);
      try (by apply actor_write); apply actor_write_role; [by apply actor_write|done]. }
  destruct (String.eqb (body_text req "token") "").
  - intros Hres. apply actor_patchFinish in Hres as [? ?]; eauto.
  - destruct (tokenTaken _ _ _).
    + intros [= <- <-]. eauto.
    + intros Hres. apply actor_patchFinish in Hres as [? ?]; eauto.
      by apply actor_write.
Qed.

Lemma adminCount_config s s' : config s' = config s -> adminCount s' = adminCount s.
Proof. unfold adminCount. by intros ->. Qed.

Lemma admin_deleteUser now req a me s :
  users (config s) !! a = Some me -> urole me = admin ->
  ((deleteUser now req me s).2 = s
   ∧ ∃ msg, (deleteUser now req me s).1 = Failure 404 msg
            ∨ (deleteUser now req me s).1 = Failure 400 msg)
  ∨ ((1 ≤ adminCount (deleteUser now req me s).2)%nat ∧ (deleteUser now req me s).1 = Done).
Proof.
  intros Hme Hadm. unfold deleteUser.
  destruct (findUserById (params_id req) s) as [[i target]|]; [|left; simpl; eauto].
  case_bool_decide as Hid; [left; simpl; eauto|].
  destruct (_ && _); [left; simpl; eauto|].
  right. simpl. split; [|done].
  unfold adminCount. cbn.
  assert (me ∈ filter (λ u, urole u = admin) (filter (λ u, id u ≠ id target) (users (config s))))
    as Hin.
  { apply list_elem_of_filter. split; [done|]. apply list_elem_of_filter. split; [congruence|].
    by eapply list_elem_of_lookup_2. }
  destruct (filter _ (filter _ _)); [by apply elem_of_nil in Hin|simpl; lia].
Qed.

Lemma admin_postLogin now req s :
  adminCount (postLogin now req s).2 = adminCount s.
Proof.
  unfold postLogin. case_match; [done|].
  destruct (findUserByToken _ s) as [[i u]|] eqn:Hfind; [|done].
  unfold findUserByToken in Hfind. apply list_find_Some in Hfind as (Hi & _).
  unfold adminCount. cbn. by apply admin_kept_by_insert with (u := u).
Qed.

Lemma admin_postUsers now req actor s r s' :
  (1 ≤ adminCount s)%nat -> postUsers now req actor s = Some (r, s') ->
  (1 ≤ adminCount s')%nat.
Proof.
  intros H. unfold postUsers. repeat case_match; intros; simplify_eq; try done;
    unfold adminCount; cbn; by apply admin_kept_by_push.
Qed.

Lemma admin_serve now route req s r s' :
  (1 ≤ adminCount s)%nat -> serve now route req s = Some (r, s') -> (1 ≤ adminCount s')%nat.
Proof.
  intros H. destruct route; unfold serve.
  - intros [= Heq]. pose proof (admin_postLogin now req s) as Hp. rewrite Heq in Hp.
    simpl in Hp. by rewrite Hp.
  - intros [[Hc _]|(i & u & s1 & Hc & _ & _ & Hk)]%guarded_cases;
      [by rewrite (adminCount_config _ _ Hc)|].
    unfold postLogout in Hk. rewrite <- (adminCount_config _ _ Hc) in H.
    by case_match; simplify_eq.
  - intros [[Hc _]|(i & u & s1 & Hc & _ & _ & Hk)]%guarded_cases;
      [by rewrite (adminCount_config _ _ Hc)|].
    simplify_eq. by rewrite (adminCount_config _ _ Hc).
  - intros [[Hc _]|(i & u & s1 & Hc & _ & _ & Hk)]%guarded_cases;
      [by rewrite (adminCount_config _ _ Hc)|].
    simplify_eq. by rewrite (adminCount_config _ _ Hc).
  - intros [[Hc _]|(i & u & s1 & Hc & _ & _ & Hk)]%guarded_cases;
      [by rewrite (adminCount_config _ _ Hc)|].
    simplify_eq. by rewrite (adminCount_config _ _ Hc).
  - intros [[Hc _]|(i & u & s1 & Hc & _ & _ & Hk)]%guarded_cases;
      [by rewrite (adminCount_config _ _ Hc)|].
    pose proof (SameConfig_startBot (config s) now (actor_of u) (thrown req) s1 Hc) as Hs.
    destruct (startBot now (actor_of u) (thrown req) s1). simplify_eq. unfold SameConfig in Hs. simpl in Hs.
    by rewrite (adminCount_config _ _ Hs).
  - intros [[Hc _]|(i & u & s1 & Hc & _ & _ & Hk)]%guarded_cases;
      [by rewrite (adminCount_config _ _ Hc)|].
    pose proof (SameConfig_stopBot (config s) now (actor_of u) s1 Hc) as Hs.
    destruct (stopBot now (actor_of u) s1). simplify_eq. unfold SameConfig in Hs. simpl in Hs.
    by rewrite (adminCount_config _ _ Hs).
  - intros [[Hc _]|(i & u & s1 & Hc & _ & _ & Hk)]%guarded_cases;
      [by rewrite (adminCount_config _ _ Hc)|].
    pose proof (SameConfig_restartBot (config s) now (actor_of u) s1 Hc) as Hs.
    destruct (restartBot now (actor_of u) s1). simplify_eq. unfold SameConfig in Hs. simpl in Hs.
    by rewrite (adminCount_config _ _ Hs).
  - intros [[Hc _]|(i & u & s1 & Hc & _ & _ & Hk)]%guarded_cases;
      [by rewrite (adminCount_config _ _ Hc)|].
    simplify_eq. by rewrite (adminCount_config _ _ Hc).
  - intros [[Hc _]|(i & u & s1 & Hc & _ & _ & Hk)]%guarded_cases;
      [by rewrite (adminCount_config _ _ Hc)|].
    unfold postConfig in Hk. simplify_eq.
    rewrite <- (adminCount_config _ _ Hc) in H. exact H.
  - intros [[Hc _]|(i & u & s1 & Hc & _ & _ & Hk)]%guarded_cases;
      [by rewrite (adminCount_config _ _ Hc)|].
    simplify_eq. by rewrite (adminCount_config _ _ Hc).
  - intros [[Hc _]|(i & u & s1 & Hc & _ & _ & Hk)]%guarded_cases;
      [by rewrite (adminCount_config _ _ Hc)|].
    rewrite <- (adminCount_config _ _ Hc) in H. by eapply admin_postUsers.
  - intros [[Hc _]|(i & u & s1 & Hc & Hu & Hp & Hk)]%guarded_cases;
      [by rewrite (adminCount_config _ _ Hc)|].
    rewrite <- Hc in Hu.
    apply actor_patchUser in Hk as [[-> _]|[Ha _]];
      [by rewrite (adminCount_config _ _ Hc)|by eapply actor_counts|done|].
    by apply writer_is_admin, Hp.
  - intros [[Hc _]|(i & u & s1 & Hc & Hu & Hp & Hk)]%guarded_cases;
      [by rewrite (adminCount_config _ _ Hc)|].
    rewrite <- Hc in Hu.
    destruct (admin_deleteUser now req i u s1 Hu (writer_is_admin _ (Hp _ eq_refl)))
      as [[Hs _]|[Hs _]]; injection Hk as Hk; rewrite Hk in Hs; simpl in Hs.
    + subst s'. by rewrite (adminCount_config _ _ Hc).
    + exact Hs.
Qed.

Lemma admin_step s s' : step s s' -> (1 ≤ adminCount s)%nat -> (1 ≤ adminCount s')%nat.
Proof.
  intros Hstep H. destruct Hstep.
  - by eapply admin_serve.
  - rewrite (adminCount_config s); [done|]. apply resolve_config.
  - rewrite (adminCount_config s); [done|]. unfold wsMessage.
    repeat case_match; try done;
      [by apply SameConfig_startBot|by apply SameConfig_stopBot|by apply SameConfig_restartBot].
  - done.
  - rewrite (adminCount_config s); [done|]. by apply SameConfig_fireTimeout.
  - rewrite (adminCount_config s); [done|]. unfold runInterval.
    case_match; [by apply SameConfig_pingTick|by apply SameConfig_healthTick|done].
  - rewrite (adminCount_config s); [done|]. unfold emit.
    apply SameConfig_listener. by destruct ev.
Qed.

Lemma admin_steps s s' : rtc step s s' -> (1 ≤ adminCount s)%nat -> (1 ≤ adminCount s')%nat.
Proof. induction 1; eauto using admin_step. Qed.

Lemma loadConfig_users e c :
  loadConfig e = Some c ->
  users c = match loaded_users e with
            | [] => users c
            | l => l
            end
  ∧ (loaded_users e = [] -> ∃ u, users c = [u] ∧ urole u = admin ∧ name u = "Owner").
Proof.
  unfold loadConfig, loaded_users. intros H.
  destruct (file e) as [[]|]; simpl in *; try done; simplify_eq; simpl;
    try (split; [done|intros _; eauto]).
  destruct (assoc "users" fields) as [[]|]; simpl; try (split; [done|intros _; eauto]).
  destruct (normalizeUsers _ _ _ _); simpl; [split; [done|intros _; eauto]|done].
Qed.

Lemma boot_with_admin e s :
  boot e = Some s ->
  loaded_users e = [] ∨ Exists (λ u, urole u = admin) (loaded_users e) ->
  (1 ≤ adminCount s)%nat.
Proof.
  unfold boot. destruct (loadConfig e) as [c|] eqn:Hc; [|done]. intros [= <-].
  apply loadConfig_users in Hc as [Hl Hseed].
  unfold adminCount. cbn. intros [Hnil|Hex].
  - destruct (Hseed Hnil) as (u & -> & Hu & _). rewrite filter_cons. by case_decide.
  - destruct (loaded_users e) as [|x l] eqn:Hlo; [by apply Exists_nil in Hex|].
    rewrite Hl. apply Exists_exists in Hex as (u & Hin & Hu).
    assert (u ∈ filter (λ u, urole u = admin) (x :: l)) as Hf
      by by apply list_elem_of_filter.
    destruct (filter _ (x :: l)); [by apply elem_of_nil in Hf|simpl; lia].
Qed.

Lemma patchFinish_answers now req a target tid inc rev s r s' :
  patchFinish now req a target tid inc rev s = Some (r, s') -> ∃ u, r = UserOf u.
Proof. unfold patchFinish. repeat case_match; intros; simplify_eq; eauto. Qed.

Lemma patchUser_refusal now req a me s st msg s' :
  patchUser now req a me s = Some (Failure st msg, s') -> st ≠ 409 -> s' = s.
Proof.
  unfold patchUser.
  destruct (findUserById (params_id req) s) as [[i target]|]; [|by intros [= <- <- <-]].
  destruct (_ && _); [by intros [= <- <- <-]|].
  destruct (_ && _ && _); [by intros [= <- <- <-]|].
  cbv zeta.
  destruct (String.eqb (body_text req "token") "").
  - by intros [? [=]]%patchFinish_answers.
  - destruct (tokenTaken _ _ _); [by intros [= <- <- <-]|].
    by intros [? [=]]%patchFinish_answers.
Qed.

Lemma deleteUser_refusal now req me s st msg :
  (deleteUser now req me s).1 = Failure st msg -> (deleteUser now req me s).2 = s.
Proof. unfold deleteUser. repeat case_match; simpl; done. Qed.

(** C2, as the code has it: when the user list that [loadConfig] reads is
    empty it seeds one administrator; when that list is empty or holds an
    administrator, every state the server reaches from there has at least one
    administrator.  The handler of [PATCH /api/users/:id] answers 400 and
    changes nothing when the request would take the administrator role from
    [req.user] or from the last administrator, the handler of
    [DELETE /api/users/:id] does so when the request would delete [req.user]
    or the last administrator, and every such request answered with 400, 401,
    403 or 404 leaves the user list as it was. *)
Theorem an_administrator_remains (e : load_env) (s0 s : State) :
  boot e = Some s0 ->
  loaded_users e = [] ∨ Exists (λ u, urole u = admin) (loaded_users e) ->
  rtc step s0 s ->
  (1 ≤ adminCount s)%nat
  ∧ (loaded_users e = [] ->
     ∃ u, users (config s0) = [u] ∧ urole u = admin ∧ name u = "Owner")
  ∧ (∀ now req a me i target,
       findUserById (params_id req) s = Some (i, target) ->
       role_or (body_prop req "role") (urole target) ≠ admin ->
       id target = id me ∨ (urole target = admin ∧ (adminCount s ≤ 1)%nat) ->
       ∃ msg, patchUser now req a me s = Some (Failure 400 msg, s))
  ∧ (∀ now req me i target,
       findUserById (params_id req) s = Some (i, target) ->
       id target = id me ∨ (urole target = admin ∧ (adminCount s ≤ 1)%nat) ->
       ∃ msg, deleteUser now req me s = (Failure 400 msg, s))
  ∧ (∀ now route req st msg s',
       route = PatchUser ∨ route = DeleteUser ->
       serve now route req s = Some (Failure st msg, s') -> st ≠ 409 ->
       users (config s') = users (config s)).
Proof.
  intros Hboot Hloaded Hsteps.
  split_and!.
  - eapply admin_steps; [exact Hsteps|]. by eapply boot_with_admin.
  - intros Hnil. unfold boot in Hboot.
    destruct (loadConfig e) as [c|] eqn:Hc; [|done]. injection Hboot as <-.
    apply loadConfig_users in Hc as [_ Hseed]. by apply Hseed.
  - intros now req a me i target Hfind Hrole Hwhy. unfold patchUser. rewrite Hfind.
    destruct Hwhy as [Hid|[Hadm Hcount]].
    + rewrite (bool_decide_eq_true_2 _ Hid), (bool_decide_eq_false_2 _ Hrole). simpl. eauto.
    + rewrite (bool_decide_eq_true_2 _ Hadm), (bool_decide_eq_false_2 _ Hrole).
      apply Nat.leb_le in Hcount. rewrite Hcount. simpl.
      destruct (bool_decide (id target = id me)); simpl; eauto.
  - intros now req me i target Hfind Hwhy. unfold deleteUser. rewrite Hfind.
    destruct Hwhy as [Hid|[Hadm Hcount]].
    + rewrite (bool_decide_eq_true_2 _ Hid). eauto.
    + rewrite (bool_decide_eq_true_2 _ Hadm). apply Nat.leb_le in Hcount. rewrite Hcount.
      simpl. destruct (bool_decide (id target = id me)); eauto.
  - intros now route req st msg s' [-> | ->] Hserve Hst; unfold serve in Hserve;
      apply guarded_cases in Hserve as [[Hc _]|(i & u & s1 & Hc & _ & _ & Hk)];
      try (by rewrite Hc).
    + apply patchUser_refusal in Hk; [|done]. subst s'. by rewrite Hc.
    + injection Hk as Hk. pose proof (deleteUser_refusal now req u s1 st msg) as Hd.
      rewrite Hk in Hd. simpl in Hd. rewrite Hd by done. by rewrite Hc.
Qed.

Lemma steps_to_admin_in : rtc step example_boot example_admin_in.
Proof.
  apply rtc_once. eapply (step_request 10 PostLogin). unfold serve. f_equal.
  apply surjective_pairing.
Qed.

Lemma an_administrator_remains_witness :
  boot example_env = Some example_boot
  ∧ (loaded_users example_env = []
     ∨ Exists (λ u, urole u = admin) (loaded_users example_env))
  ∧ rtc step example_boot example_admin_in
  ∧ (1 ≤ adminCount example_admin_in)%nat.
Proof.
  assert (boot example_env = Some example_boot) as Hboot by reflexivity.
  assert (loaded_users example_env = []
          ∨ Exists (λ u, urole u = admin) (loaded_users example_env)) as Hloaded
    by (left; reflexivity).
  split; [exact Hboot|]. split; [exact Hloaded|]. split; [exact steps_to_admin_in|].
  apply (an_administrator_remains example_env example_boot example_admin_in
           Hboot Hloaded steps_to_admin_in).
Defined.

(** C2 as stated fails: with a configuration file whose only user is a viewer
    the user list that [loadConfig] reads is not empty, no administrator is
    seeded, and the server starts in a state without any administrator. *)
Lemma viewer_only_file_boots_without_admin :
  boot example_viewer_env = Some example_viewer_boot
  ∧ reachable example_viewer_boot
  ∧ loaded_users example_viewer_env ≠ []
  ∧ adminCount example_viewer_boot = 0%nat.
Proof.
  assert (boot example_viewer_env = Some example_viewer_boot) as Hboot
    by (vm_compute; reflexivity).
  split_and!; [exact Hboot| |vm_compute; discriminate|vm_compute; reflexivity].
  exists example_viewer_env, example_viewer_boot. split; [exact Hboot|apply rtc_refl].
Qed.

(** When [PATCH /api/users/:id] goes through (it answers with the user) and
    it changed the role, set a token or rotated the token, the sessions left
    are those of the other users: every handle issued to the user before no
    longer resolves. *)
Lemma patchFinish_sessions now req a target tid inc rev s r s' :
  patchFinish now req a target tid inc rev s = Some (r, s') ->
  rev = true ∨ body_prop req "rotateToken" = Some (JBool true) ->
  sessions s' = filter (λ kv, userId kv.2 ≠ tid) (sessions s).
Proof.
  unfold patchFinish. intros H Hwhy.
  destruct (body_prop req "rotateToken") as [[| [|] | | | |]|] eqn:Hrot;
    try (destruct Hwhy as [->|Hwhy]; [|done]);
    repeat case_match; simplify_eq; reflexivity.
Qed.

Lemma successful_update_revokes_sessions now req a me s i target u s' :
  findUserById (params_id req) s = Some (i, target) ->
  patchUser now req a me s = Some (UserOf u, s') ->
  role_or (body_prop req "role") (urole target) ≠ urole target
  ∨ body_text req "token" ≠ ""
  ∨ body_prop req "rotateToken" = Some (JBool true) ->
  sessions s' = filter (λ kv, userId kv.2 ≠ id target) (sessions s)
  ∧ ∀ later tok old,
      sessions s !! tok = Some old -> userId old = id target ->
      (resolveAuthFromToken later (Some tok) s').1 = None.
Proof.
  intros Hfind Hpatch Hwhy.
  assert (sessions s' = filter (λ kv, userId kv.2 ≠ id target) (sessions s)) as Hs'.
  { revert Hpatch. unfold patchUser. rewrite Hfind.
    destruct (_ && _); [done|]. destruct (_ && _ && _); [done|]. cbv zeta.
    destruct (String.eqb_spec (body_text req "token") "") as [Htok|Htok].
    - intros Hfin. apply patchFinish_sessions in Hfin.
      + rewrite Hfin. by repeat case_match.
      + destruct Hwhy as [Hrole|[?|?]]; [left|done|by right].
        apply negb_true_iff, bool_decide_eq_false. done.
    - destruct (tokenTaken _ _ _); [done|].
      intros Hfin. apply patchFinish_sessions in Hfin; [|by left].
      rewrite Hfin. by repeat case_match. }
  split; [exact Hs'|].
  intros later tok old Hold Hid. unfold resolveAuthFromToken.
  destruct (String.eqb tok ""); [done|].
  destruct (sessions s' !! tok) as [session|] eqn:Hlook; [|done].
  rewrite Hs' in Hlook. apply map_lookup_filter_Some in Hlook as [Hlook Hne].
  simpl in Hne. congruence.
Qed.

(** C3 fails on the code: a [PATCH /api/users/:id] that changes the role and
    names a token already in use writes the new role, then answers 409 and
    returns before [revokeSessionsForUser] is reached.  Here the operator "b"
    is signed in with the session "sb"; the administrator's request makes it an
    administrator and is answered with 409; the session "sb" is still in the
    store and resolves to the user, now with the administrator role. *)
Theorem role_change_with_taken_token_keeps_sessions :
  reachable example_both_in
  ∧ (∃ u, users (config example_both_in) !! 1%nat = Some u
          ∧ id u = "b" ∧ urole u = operator)
  ∧ sessions example_both_in !! "sb"
    = Some {| userId := "b"; expiresAt := 30 + SESSION_TTL_MS |}
  ∧ serve 40 PatchUser example_promotion example_both_in
    = Some (Failure 409 "Token already in use", example_after_promotion)
  ∧ step example_both_in example_after_promotion
  ∧ (∃ u, users (config example_after_promotion) !! 1%nat = Some u
          ∧ id u = "b" ∧ urole u = admin)
  ∧ sessions example_after_promotion !! "sb"
    = Some {| userId := "b"; expiresAt := 30 + SESSION_TTL_MS |}
  ∧ ∃ u session,
      (resolveAuthFromToken 50 (Some "sb") example_after_promotion).1
      = Some (1%nat, u, session)
      ∧ id u = "b" ∧ urole u = admin
      ∧ getPermissions (urole u) = getPermissions admin.
Proof.
  assert (serve 40 PatchUser example_promotion example_both_in
          = Some (Failure 409 "Token already in use", example_after_promotion)) as Hpatch
    by (vm_compute; reflexivity).
  split_and!.
  - eapply reachable_step; [eapply reachable_step; [apply reachable_admin_in|]|].
    + eapply (step_request 20 PostUsers
                (request (Some "Bearer sa") ""
                   [("name", JStr "B"); ("role", JStr "operator"); ("token", JStr "tb")] "")
                _ (UserOf _) example_two_users).
      vm_compute. reflexivity.
    + eapply (step_request 30 PostLogin). unfold serve. f_equal. apply surjective_pairing.
  - vm_compute. eauto.
  - vm_compute. reflexivity.
  - exact Hpatch.
  - by eapply step_request.
  - vm_compute. eauto.
  - vm_compute. reflexivity.
  - vm_compute. eauto 10.
Qed.


(** * Further properties of the code *)

(** ** Who gets through the middlewares *)

Lemma set_sessions_same s : set_sessions (sessions s) s = s.
Proof. by destruct s. Qed.

Lemma resolve_sessions_apart now tok s :
  sessions_apart s (resolveAuthFromToken now tok s).2
  ∧ ∀ k v, sessions (resolveAuthFromToken now tok s).2 !! k = Some v ->
           (resolveAuthFromToken now tok s).1 = None -> sessions s !! k = Some v.
Proof.
  unfold sessions_apart, resolveAuthFromToken.
  destruct tok as [tok|]; [|by rewrite set_sessions_same].
  destruct (String.eqb tok ""); [by rewrite set_sessions_same|].
  destruct (sessions s !! tok) as [session|]; [|by rewrite set_sessions_same].
  destruct (expiresAt session <=? now).
  { split; [done|]. simpl. by intros k v [Hne Hk]%lookup_delete_Some _. }
  destruct (findUserById (userId session) s) as [[i u]|].
  - split; [done|]. done.
  - split; [done|]. simpl. by intros k v [Hne Hk]%lookup_delete_Some _.
Qed.



(** X2: when the session resolves but the user's role lacks the permission
    the route was registered with, the answer is 403 with the name of that
    permission and nothing but the touch of the session happens.  That never
    concerns an administrator; an operator lacks only [config:write],
    [users:read] and [users:write], a viewer also [bot:control]. *)
Theorem missing_permission_is_refused
    (now : Z) (route : Route) (req : Request) (s : State)
    (p : string) (i : nat) (u : User) (session : Session) (s1 : State) :
  required route = Some p ->
  resolveAuthFromToken now (getBearerToken (authorization req)) s = (Some (i, u, session), s1) ->
  p ∉ getPermissions (urole u) ->
  serve now route req s = Some (Failure 403 ("Missing permission: " +:+ p), s1)
  ∧ sessions_apart s s1
  ∧ urole u ≠ admin
  ∧ (urole u = operator -> p = "config:write" ∨ p = "users:read" ∨ p = "users:write")
  ∧ (urole u = viewer ->
     p = "bot:control" ∨ p = "config:write" ∨ p = "users:read" ∨ p = "users:write").
Proof.
  intros Hreq Hres Hp.
  split_and!.
  - destruct route; try done; injection Hreq as <-; unfold serve, guarded; rewrite Hres;
      by rewrite (bool_decide_eq_false_2 _ Hp).
  - pose proof (resolve_sessions_apart now (getBearerToken (authorization req)) s) as [Hap _].
    by rewrite Hres in Hap.
  - intros Hadm. rewrite Hadm in Hp. apply Hp.
    destruct route; try done; injection Hreq as <-; simpl; set_solver.
  - intros Hop. rewrite Hop in Hp.
    destruct route; try done; injection Hreq as <-; auto; exfalso; apply Hp; simpl; set_solver.
  - intros Hv. rewrite Hv in Hp.
    destruct route; try done; injection Hreq as <-; auto 6; exfalso; apply Hp; simpl; set_solver.
Qed.

Lemma missing_permission_is_refused_witness :
  let req := request (Some "Bearer sb") "" [("port", JNum "1")] "" in
  let b := {| id := "b"; name := "B"; urole := operator; token := "tb";
              createdAt := SIso 20; lastLoginAt := SIso 30 |} in
  let session := {| userId := "b"; expiresAt := 50 + SESSION_TTL_MS |} in
  let s1 := (resolveAuthFromToken 50 (Some "sb") example_both_in).2 in
  required PostConfig = Some "config:write"
  ∧ resolveAuthFromToken 50 (getBearerToken (authorization req)) example_both_in
    = (Some (1%nat, b, session), s1)
  ∧ ("config:write" ∉ getPermissions (urole b))
  ∧ serve 50 PostConfig req example_both_in
    = Some (Failure 403 ("Missing permission: " +:+ "config:write"), s1)
  ∧ port (config s1) = port (config example_both_in).
Proof.
  intros req b session s1.
  assert (resolveAuthFromToken 50 (getBearerToken (authorization req)) example_both_in
          = (Some (1%nat, b, session), s1)) as Hres by (vm_compute; reflexivity).
  assert ("config:write" ∉ getPermissions (urole b)) as Hp
    by (simpl; intros H;
        repeat (apply elem_of_cons in H as [H|H]; [discriminate H|]);
        by apply elem_of_nil in H).
  split; [reflexivity|]. split; [exact Hres|]. split; [exact Hp|].
  destruct (missing_permission_is_refused 50 PostConfig req example_both_in
              "config:write" 1%nat b session s1 eq_refl Hres Hp) as (Hserve & Hap & _).
  split; [exact Hserve|]. by rewrite Hap.
Defined.

(** ** Signing in and out *)




(** X4: when [POST /api/auth/logout] answers with success, the request
    carried a bearer handle, the session under it is gone, nothing else has
    changed but the session map, and the handle resolves to nothing at any
    later time. *)
Theorem logout_ends_the_session (now : Z) (req : Request) (s s' : State) :
  serve now PostLogout req s = Some (Done, s') ->
  ∃ tok,
    getBearerToken (authorization req) = Some tok
    ∧ sessions s' !! tok = None
    ∧ sessions_apart s s'
    ∧ ∀ later, (resolveAuthFromToken later (Some tok) s').1 = None.
Proof.
  unfold serve, guarded, postLogout. intros Hserve.
  pose proof (resolve_sessions_apart now (getBearerToken (authorization req)) s) as [Hap _].
  destruct (resolveAuthFromToken now (getBearerToken (authorization req)) s)
    as [[[[i u] session]|] s1] eqn:Hres; [|done].
  destruct (getBearerToken (authorization req)) as [tok|] eqn:Htok; [|done].
  injection Hserve as <-. exists tok. simpl in Hap.
  split; [done|]. split; [apply lookup_delete_eq|]. split.
  - unfold sessions_apart in *. rewrite Hap. reflexivity.
  - intros later. unfold resolveAuthFromToken.
    destruct (String.eqb tok ""); [done|].
    cbn [sessions set_sessions]. by rewrite lookup_delete_eq.
Qed.

Lemma logout_ends_the_session_witness :
  let req := request (Some "Bearer sa") "" [] "" in
  let s' := set_sessions ∅ example_admin_in in
  serve 50 PostLogout req example_admin_in = Some (Done, s')
  ∧ ∃ tok,
      getBearerToken (authorization req) = Some tok
      ∧ sessions s' !! tok = None
      ∧ sessions_apart example_admin_in s'
      ∧ ∀ later, (resolveAuthFromToken later (Some tok) s').1 = None.
Proof.
  intros req s'.
  assert (serve 50 PostLogout req example_admin_in = Some (Done, s')) as Hserve
    by (vm_compute; reflexivity).
  split; [exact Hserve|].
  exact (logout_ends_the_session 50 req example_admin_in s' Hserve).
Defined.

(** X5: the sweep [pruneExpiredSessions] changes the session map only and
    keeps exactly the sessions that expire after [now]; what a handle resolves
    to at that time is the same with and without the sweep. *)
Theorem sweep_removes_exactly_the_expired (now : Z) (s : State) :
  let s' := pruneExpiredSessions now s in
  sessions_apart s s'
  ∧ (∀ tok session,
       sessions s' !! tok = Some session
       ↔ sessions s !! tok = Some session ∧ now < expiresAt session)
  ∧ ∀ tok, (resolveAuthFromToken now tok s').1 = (resolveAuthFromToken now tok s).1.
Proof.
  intros s'. split; [reflexivity|].
  assert (∀ tok session,
            sessions s' !! tok = Some session
            ↔ sessions s !! tok = Some session ∧ now < expiresAt session) as Hkeep.
  { intros tok session. subst s'. unfold pruneExpiredSessions. cbn [sessions set_sessions].
    rewrite map_lookup_filter_Some. simpl. split; intros [? ?]; split; try done; lia. }
  split; [exact Hkeep|].
  intros [tok|]; [|done]. unfold resolveAuthFromToken.
  destruct (String.eqb tok ""); [done|].
  destruct (sessions s !! tok) as [session|] eqn:Hs.
  - destruct (Z.leb_spec (expiresAt session) now) as [Hle|Hgt].
    + destruct (sessions s' !! tok) as [x|] eqn:Hs'; [|done].
      apply Hkeep in Hs' as [Hx ?]. assert (x = session) as -> by congruence. lia.
    + assert (sessions s' !! tok = Some session) as -> by (apply Hkeep; done).
      destruct (Z.leb_spec (expiresAt session) now) as [?|_]; [lia|].
      change (findUserById (userId session) s') with (findUserById (userId session) s).
      by destruct (findUserById (userId session) s) as [[i u]|].
  - destruct (sessions s' !! tok) as [x|] eqn:Hs'; [|done].
    apply Hkeep in Hs' as [Hx ?]. congruence.
Qed.

(** X6: when the handler of [DELETE /api/users/:id] answers with success,
    the identifier was not that of [req.user] and was that of a user; the user
    list is the old one without the users of that identifier, so none is found
    under it; the sessions kept are exactly those of other users, and a handle
    of a session of the deleted user resolves to nothing from then on. *)
Theorem delete_removes_user_and_sessions (now : Z) (req : Request) (me : User) (s s' : State) :
  deleteUser now req me s = (Done, s') ->
  params_id req ≠ id me
  ∧ (∃ target, target ∈ users (config s) ∧ id target = params_id req)
  ∧ users (config s') = filter (λ u, id u ≠ params_id req) (users (config s))
  ∧ findUserById (params_id req) s' = None
  ∧ (∀ tok session,
       sessions s' !! tok = Some session
       ↔ sessions s !! tok = Some session ∧ userId session ≠ params_id req)
  ∧ ∀ later tok session,
      sessions s !! tok = Some session -> userId session = params_id req ->
      (resolveAuthFromToken later (Some tok) s').1 = None.
Proof.
  unfold deleteUser.
  destruct (findUserById (params_id req) s) as [[i target]|] eqn:Hfind; [|done].
  apply list_find_Some in Hfind as (Hi & Hid & _).
  case_bool_decide as Hself; [done|].
  destruct (_ && _); [done|]. cbv zeta. intros [= <-]. rewrite Hid in *.
  assert (∀ tok session,
            sessions (addLog now "SECURITY"
                        ("User deleted by " +:+ name me +:+ ": " +:+ name target)
                        (revokeSessionsForUser (params_id req)
                           (set_users (filter (λ u, id u ≠ params_id req) (users (config s))) s)))
              !! tok = Some session
            ↔ sessions s !! tok = Some session ∧ userId session ≠ params_id req) as Hkeep.
  { intros tok session.
    exact (map_lookup_filter_Some (λ kv : string * Session, userId kv.2 ≠ params_id req)
             (sessions s) tok session). }
  split; [congruence|]. split; [exists target; split; [by eapply list_elem_of_lookup_2|done]|].
  split; [reflexivity|].
  split.
  { unfold findUserById.
    change (users (config (addLog _ _ _ _)))
      with (filter (λ u, id u ≠ params_id req) (users (config s))).
    apply list_find_None, Forall_forall. intros u Hu%list_elem_of_filter. tauto. }
  split; [exact Hkeep|].
  intros later tok session Hs Hu. unfold resolveAuthFromToken.
  destruct (String.eqb tok ""); [done|].
  match goal with |- context [sessions ?X !! tok] =>
    destruct (sessions X !! tok) as [x|] eqn:Hx; [|done] end.
  apply Hkeep in Hx as [Hx Hne]. congruence.
Qed.

Lemma delete_removes_user_and_sessions_witness :
  let req := request (Some "Bearer sa") "b" [] "" in
  ∃ me s',
    deleteUser 60 req me example_both_in = (Done, s')
    ∧ id <$> users (config s') = ["a"]
    ∧ (resolveAuthFromToken 61 (Some "sb") s').1 = None.
Proof.
  intros req.
  pose (me := {| id := "a"; name := "Owner"; urole := admin; token := "ta";
                 createdAt := SIso 0; lastLoginAt := SIso 10 |}).
  exists me, (deleteUser 60 req me example_both_in).2.
  assert (deleteUser 60 req me example_both_in
          = (Done, (deleteUser 60 req me example_both_in).2)) as Hdel
    by (vm_compute; reflexivity).
  destruct (delete_removes_user_and_sessions 60 req me example_both_in _ Hdel)
    as (_ & _ & Husers & _ & _ & Hgone).
  split; [exact Hdel|]. split.
  - rewrite Husers. vm_compute. reflexivity.
  - apply (Hgone 61 "sb" {| userId := "b"; expiresAt := 30 + SESSION_TTL_MS |});
      [vm_compute; reflexivity|reflexivity].
Defined.

(** ** Starting, retrying, stopping *)

Lemma refresh_quiet s :
  let mid := quitBot (stopPingTimer (clearReconnectTimer s)) in
  bot mid = None ∧ reconnectTimer mid = None ∧ pingTimer mid = None
  ∧ isRunning mid = isRunning s ∧ config mid = config s ∧ sessions mid = sessions s
  ∧ healthTimer mid = healthTimer s ∧ reconnectAttempts mid = reconnectAttempts s
  ∧ next_id mid = next_id s ∧ botStartTime mid = botStartTime s
  ∧ keepAlivePulseCount mid = keepAlivePulseCount s ∧ logs mid = logs s
  ∧ sent mid = sent s ∧ lastPing mid = lastPing s.
Proof.
  unfold quitBot, stopPingTimer, clearReconnectTimer.
  destruct (reconnectTimer s) eqn:Hr; fields;
    destruct (pingTimer s) eqn:Hp; fields;
    destruct (bot s) eqn:Hb; fields; rewrite ?Hr, ?Hp, ?Hb; done.
Qed.

Lemma Safe_refresh s : Safe s -> Safe (quitBot (stopPingTimer (clearReconnectTimer s))).
Proof. eauto with safe. Qed.

Lemma Safe_quiet s :
  Safe s -> bot s = None -> reconnectTimer s = None -> pingTimer s = None ->
  clients s = [] ∧ pending_reconnects s = [] ∧ running JobPing s = [].
Proof.
  intros H Hb Hrt Hpt. safe_open H. unfold pending_reconnects, running.
  rewrite Hb in Hc. rewrite Hrt in Hr. rewrite Hpt in Hp.
  split; [by apply fmap_nil_inv in Hc|]. done.
Qed.

Lemma createBot_fields now thrown s :
  Safe s -> isRunning s = true ->
  let s' := createBot now thrown s in
  isRunning s' = true ∧ config s' = config s ∧ sessions s' = sessions s
  ∧ healthTimer s' = healthTimer s ∧ botStartTime s' = botStartTime s
  ∧ keepAlivePulseCount s' = keepAlivePulseCount s ∧ lastPing s' = lastPing s
  ∧ pingTimer s' = None ∧ running JobPing s' = []
  ∧ botStatus s' = Connecting ∧ serverStatus s' = Unknown ∧ lastBotEventAt s' = now
  ∧ match thrown with
    | None =>
        bot s' = Some (next_id s)
        ∧ clients s' = [{| cid := next_id s; login_armed := true |}]
        ∧ reconnectTimer s' = None
        ∧ pending_reconnects s' = []
        ∧ reconnectAttempts s' = reconnectAttempts s
    | Some _ =>
        bot s' = None
        ∧ clients s' = []
        ∧ reconnectTimer s' = Some (next_id s)
        ∧ filter (λ t, t_callback t = CbReconnect) (timeouts s')
          = [{| t_handle := next_id s; t_callback := CbReconnect;
                t_delay := reconnectDelay (config s) |}]
        ∧ reconnectAttempts s' = reconnectAttempts s + 1
    end.
Proof.
  intros Hsafe Hrun.
  pose proof (refresh_quiet s)
    as (Hb & Hrt & Hpt & Hir & Hcfg & Hses & Hht & Hra & Hid & Hst & Hka & _ & _ & Hlp).
  pose proof (Safe_quiet _ (Safe_refresh s Hsafe) Hb Hrt Hpt) as (Hcl & Hpr & Hpi).
  unfold createBot. rewrite Hrun. cbn [negb]. cbv zeta.
  unfold pending_reconnects, running in *.
  apply fmap_nil_inv in Hpr.
  revert Hb Hrt Hpt Hir Hcfg Hses Hht Hra Hid Hst Hka Hlp Hcl Hpr Hpi.
  generalize (quitBot (stopPingTimer (clearReconnectTimer s))). intros mid.
  intros Hb Hrt Hpt Hir Hcfg Hses Hht Hra Hid Hst Hka Hlp Hcl Hpr Hpi.
  rewrite Hrun in Hir.
  destruct thrown as [msg|]; unfold queueReconnect;
    repeat (fields; rewrite ?Hir, ?Hrt);
    rewrite ?filter_app, ?Hpr, ?Hcl, ?Hpi; split_and!; try done; try congruence.
  all: rewrite ?Hid, ?Hcfg; reflexivity.
Qed.

Lemma pending_is_reconnectTimer s t :
  Good s -> t ∈ timeouts s -> t_callback t = CbReconnect ->
  isRunning s = true ∧ reconnectTimer s = Some (t_handle t).
Proof.
  intros [Hsafe Hidle] Ht Hcb. safe_open Hsafe.
  assert (t_handle t ∈ option_list (reconnectTimer s)) as Hin.
  { rewrite <- Hr. apply list_elem_of_fmap. exists t. split; [done|].
    by apply list_elem_of_filter. }
  destruct (reconnectTimer s) as [h|] eqn:Hrt; [|by apply elem_of_nil in Hin].
  apply list_elem_of_singleton in Hin as <-. split; [|done].
  destruct (isRunning s) eqn:Hrun; [done|].
  destruct (Hidle Hrun) as (_ & ? & _). congruence.
Qed.

(** X7: when a pending reconnect timeout fires, the bot is meant to run and
    the timeout is the one [reconnectTimer] holds.  Afterwards the phase is
    connecting, reachability unknown and no keep-alive interval runs; if the
    client could be created it is the only one with listeners and no
    reconnect is pending, the attempt counter as it was; if creating it threw
    there is no client, exactly one reconnect timeout is pending, with the
    configured delay, and the attempt counter is one higher. *)
Theorem reconnect_fires_into_client_or_retry
    (s : State) (now : Z) (t : Timeout) (thrown : option string) :
  reachable s -> t ∈ timeouts s -> t_callback t = CbReconnect ->
  let s' := fireTimeout now t thrown s in
  isRunning s = true
  ∧ reconnectTimer s = Some (t_handle t)
  ∧ isRunning s' = true ∧ botStatus s' = Connecting ∧ serverStatus s' = Unknown
  ∧ running JobPing s' = []
  ∧ match thrown with
    | None =>
        bot s' = Some (next_id s)
        ∧ clients s' = [{| cid := next_id s; login_armed := true |}]
        ∧ pending_reconnects s' = []
        ∧ reconnectAttempts s' = reconnectAttempts s
    | Some _ =>
        bot s' = None
        ∧ clients s' = []
        ∧ filter (λ t, t_callback t = CbReconnect) (timeouts s')
          = [{| t_handle := next_id s; t_callback := CbReconnect;
                t_delay := reconnectDelay (config s) |}]
        ∧ reconnectAttempts s' = reconnectAttempts s + 1
    end.
Proof.
  intros Hs Ht Hcb s'. apply Good_reachable in Hs.
  destruct (pending_is_reconnectTimer s t Hs Ht Hcb) as [Hrun Hrt].
  destruct Hs as [Hsafe _].
  assert (s' = createBot now thrown (clearReconnectTimer s)) as ->.
  { subst s'. unfold fireTimeout, clearReconnectTimer. rewrite Hcb, Hrt. cbv zeta.
    change (isRunning (set_reconnectTimer None (clearTimeout (t_handle t) s)))
      with (isRunning s). by rewrite Hrun. }
  assert (isRunning (clearReconnectTimer s) = true
          ∧ next_id (clearReconnectTimer s) = next_id s
          ∧ config (clearReconnectTimer s) = config s
          ∧ reconnectAttempts (clearReconnectTimer s) = reconnectAttempts s)
    as (Hrun' & Hid & Hcfg & Hra)
    by (unfold clearReconnectTimer; rewrite Hrt; done).
  pose proof (createBot_fields now thrown _ (Safe_clearReconnectTimer s Hsafe) Hrun')
    as (? & _ & _ & _ & _ & _ & _ & _ & ? & ? & ? & _ & Hcase).
  rewrite Hid, Hcfg, Hra in Hcase.
  split_and!; try done.
  destruct thrown; destruct Hcase as (? & ? & ? & ? & ?); done.
Qed.

Lemma reconnect_fires_into_client_or_retry_witness :
  let t := {| t_handle := 5; t_callback := CbReconnect; t_delay := 15000 |} in
  let s' := fireTimeout 16700 t (Some "ENOTFOUND") example_kicked in
  clients s' = []
  ∧ filter (λ t, t_callback t = CbReconnect) (timeouts s')
    = [{| t_handle := next_id example_kicked; t_callback := CbReconnect; t_delay := 15000 |}]
  ∧ reconnectAttempts s' = 2.
Proof.
  intros t s'.
  assert (t ∈ timeouts example_kicked) as Ht by (vm_compute; apply list_elem_of_here).
  destruct (reconnect_fires_into_client_or_retry example_kicked 16700 t (Some "ENOTFOUND")
              reachable_kicked Ht eq_refl) as (_ & _ & _ & _ & _ & _ & _ & Hcl & Hq & Hra).
  split; [exact Hcl|]. split; [exact Hq|exact Hra].
Defined.

Lemma startBot_fields now actor thrown s :
  Safe s -> isRunning s = false ->
  let s' := (startBot now actor thrown s).2 in
  (startBot now actor thrown s).1 = {| success := true; result_message := None |}
  ∧ isRunning s' = true ∧ config s' = config s ∧ sessions s' = sessions s
  ∧ healthTimer s' = Some (next_id s)
  ∧ running JobHealth s' = [next_id s]
  ∧ running JobPing s' = []
  ∧ botStatus s' = Connecting ∧ serverStatus s' = Unknown
  ∧ botStartTime s' = None ∧ keepAlivePulseCount s' = 0 ∧ lastBotEventAt s' = now
  ∧ match thrown with
    | None =>
        bot s' = Some (S (next_id s))
        ∧ clients s' = [{| cid := S (next_id s); login_armed := true |}]
        ∧ pending_reconnects s' = []
        ∧ reconnectAttempts s' = 0
    | Some _ =>
        bot s' = None
        ∧ clients s' = []
        ∧ filter (λ t, t_callback t = CbReconnect) (timeouts s')
          = [{| t_handle := S (next_id s); t_callback := CbReconnect;
                t_delay := reconnectDelay (config s) |}]
        ∧ reconnectAttempts s' = 1
    end.
Proof.
  intros Hsafe Hrun. unfold startBot. rewrite Hrun. cbv zeta. cbn [fst snd].
  match goal with |- context [createBot now thrown ?X] => set (s1 := X) end.
  assert (Safe s1) as Hsafe1 by (subst s1; eauto 10 with safe).
  assert (isRunning s1 = true ∧ config s1 = config s ∧ sessions s1 = sessions s
          ∧ healthTimer s1 = Some (next_id s) ∧ next_id s1 = S (next_id s)
          ∧ botStartTime s1 = None ∧ keepAlivePulseCount s1 = 0
          ∧ reconnectAttempts s1 = 0)
    as (Hrun1 & Hcfg & Hses & Hht & Hid & Hst & Hka & Hra).
  { subst s1. unfold startHealthTimer, stopHealthTimer.
    destruct (healthTimer s) eqn:Hh; repeat (fields; rewrite ?Hh); done. }
  pose proof (createBot_fields now thrown s1 Hsafe1 Hrun1)
    as (? & Hcfg' & Hses' & Hht' & Hst' & Hka' & _ & _ & ? & ? & ? & ? & Hcase).
  pose proof (Safe_createBot now thrown s1 Hsafe1) as Hsafe'.
  clearbody s1.
  rewrite Hid, Hcfg, Hra in Hcase.
  split_and!; try congruence.
  - safe_open Hsafe'. unfold running. rewrite Hh, Hht', Hht. reflexivity.
  - destruct thrown; destruct Hcase as (? & ? & ? & ? & ?); done.
Qed.

(** X8: [startBot] while the bot is not meant to run succeeds.  Afterwards
    the bot is meant to run, one health interval runs and no keep-alive
    interval, the phase is connecting, the start time is cleared and the pulse
    counter is zero; if the client could be created it is the only one with
    listeners, no reconnect is pending and the attempt counter is zero; if
    creating it threw there is no client, one reconnect timeout with the
    configured delay is pending and the attempt counter is one.  The
    configuration and the sessions are untouched. *)
Theorem start_brings_one_client_or_one_retry
    (s : State) (now : Z) (actor : option Actor) (thrown : option string) :
  reachable s -> isRunning s = false ->
  let s' := (startBot now actor thrown s).2 in
  (startBot now actor thrown s).1 = {| success := true; result_message := None |}
  ∧ isRunning s' = true ∧ config s' = config s ∧ sessions s' = sessions s
  ∧ healthTimer s' = Some (next_id s)
  ∧ running JobHealth s' = [next_id s]
  ∧ running JobPing s' = []
  ∧ botStatus s' = Connecting ∧ serverStatus s' = Unknown
  ∧ botStartTime s' = None ∧ keepAlivePulseCount s' = 0 ∧ lastBotEventAt s' = now
  ∧ match thrown with
    | None =>
        bot s' = Some (S (next_id s))
        ∧ clients s' = [{| cid := S (next_id s); login_armed := true |}]
        ∧ pending_reconnects s' = []
        ∧ reconnectAttempts s' = 0
    | Some _ =>
        bot s' = None
        ∧ clients s' = []
        ∧ filter (λ t, t_callback t = CbReconnect) (timeouts s')
          = [{| t_handle := S (next_id s); t_callback := CbReconnect;
                t_delay := reconnectDelay (config s) |}]
        ∧ reconnectAttempts s' = 1
    end.
Proof.
  intros Hs Hrun. apply Good_reachable in Hs as [Hsafe _].
  by apply startBot_fields.
Qed.

Lemma start_brings_one_client_or_one_retry_witness :
  let s' := (startBot 1500 None (Some "ENOTFOUND") example_boot).2 in
  isRunning s' = true
  ∧ running JobHealth s' = [2%nat]
  ∧ clients s' = []
  ∧ reconnectAttempts s' = 1.
Proof.
  intros s'.
  destruct (start_brings_one_client_or_one_retry example_boot 1500 None (Some "ENOTFOUND")
              reachable_boot eq_refl)
    as (_ & Hrun & _ & _ & _ & Hh & _ & _ & _ & _ & _ & _ & _ & Hcl & _ & Hra).
  split; [exact Hrun|]. split; [exact Hh|]. split; [exact Hcl|exact Hra].
Defined.

Lemma clear_exactly {A : Type} (h : A -> nat) (P : A -> Prop) `{!∀ x, Decision (P x)}
    (k : nat) (l : list A) :
  NoDup (h <$> l) -> h <$> filter P l = [k] ->
  ∀ x, x ∈ filter (λ x, h x ≠ k) l ↔ x ∈ l ∧ ¬ P x.
Proof.
  intros Hd Hk x. rewrite list_elem_of_filter. split.
  - intros [Hx Hin]. split; [done|]. intros Px. apply Hx.
    assert (h x ∈ h <$> filter P l) as Hhx
      by (apply list_elem_of_fmap_2; by apply list_elem_of_filter).
    rewrite Hk in Hhx. by apply list_elem_of_singleton in Hhx.
  - intros [Hin HP]. split; [|done]. intros Hx.
    assert (k ∈ h <$> filter P l) as Hin' by (rewrite Hk; apply list_elem_of_here).
    apply list_elem_of_fmap in Hin' as (y & Hy & [Py Hyl]%list_elem_of_filter).
    assert (x = y) as -> by (eapply (distinct_same h); eauto; congruence).
    done.
Qed.

Lemma clearReconnectTimer_exactly s :
  Safe s ->
  intervals (clearReconnectTimer s) = intervals s
  ∧ ∀ t, t ∈ timeouts (clearReconnectTimer s) ↔ t ∈ timeouts s ∧ t_callback t ≠ CbReconnect.
Proof.
  intros H. safe_open H. unfold clearReconnectTimer.
  destruct (reconnectTimer s) as [k|] eqn:Hk.
  - split; [done|]. intros t.
    exact (clear_exactly t_handle (λ t, t_callback t = CbReconnect) k (timeouts s) Hdt Hr t).
  - split; [done|]. intros t. split; [|tauto]. intros Ht. split; [done|]. intros Hcb.
    assert (t_handle t ∈ t_handle <$> filter (λ t, t_callback t = CbReconnect) (timeouts s))
      as Hin by (apply list_elem_of_fmap_2; by apply list_elem_of_filter).
    rewrite Hr in Hin. by apply elem_of_nil in Hin.
Qed.

Lemma stopPingTimer_exactly s :
  Safe s ->
  timeouts (stopPingTimer s) = timeouts s
  ∧ ∀ i, i ∈ intervals (stopPingTimer s) ↔ i ∈ intervals s ∧ i_job i ≠ JobPing.
Proof.
  intros H. safe_open H. unfold stopPingTimer.
  destruct (pingTimer s) as [k|] eqn:Hk.
  - split; [done|]. intros t.
    exact (clear_exactly i_handle (λ i, i_job i = JobPing) k (intervals s) Hdi Hp t).
  - split; [done|]. intros t. split; [|tauto]. intros Ht. split; [done|]. intros Hcb.
    assert (i_handle t ∈ i_handle <$> filter (λ i, i_job i = JobPing) (intervals s))
      as Hin by (apply list_elem_of_fmap_2; by apply list_elem_of_filter).
    rewrite Hp in Hin. by apply elem_of_nil in Hin.
Qed.

Lemma stopHealthTimer_exactly s :
  Safe s ->
  timeouts (stopHealthTimer s) = timeouts s
  ∧ ∀ i, i ∈ intervals (stopHealthTimer s) ↔ i ∈ intervals s ∧ i_job i ≠ JobHealth.
Proof.
  intros H. safe_open H. unfold stopHealthTimer.
  destruct (healthTimer s) as [k|] eqn:Hk.
  - split; [done|]. intros t.
    exact (clear_exactly i_handle (λ i, i_job i = JobHealth) k (intervals s) Hdi Hh t).
  - split; [done|]. intros t. split; [|tauto]. intros Ht. split; [done|]. intros Hcb.
    assert (i_handle t ∈ i_handle <$> filter (λ i, i_job i = JobHealth) (intervals s))
      as Hin by (apply list_elem_of_fmap_2; by apply list_elem_of_filter).
    rewrite Hh in Hin. by apply elem_of_nil in Hin.
Qed.

Lemma quitBot_timers s : timeouts (quitBot s) = timeouts s ∧ intervals (quitBot s) = intervals s.
Proof. unfold quitBot. by destruct (bot s). Qed.

Lemma stop_sequence_frame s :
  let s' := quitBot (stopHealthTimer (stopPingTimer (clearReconnectTimer s))) in
  isRunning s' = isRunning s ∧ config s' = config s ∧ sessions s' = sessions s
  ∧ reconnectAttempts s' = reconnectAttempts s ∧ botStartTime s' = botStartTime s
  ∧ next_id s' = next_id s.
Proof.
  unfold quitBot, stopHealthTimer, stopPingTimer, clearReconnectTimer.
  destruct (reconnectTimer s) eqn:Hr; fields;
    destruct (pingTimer s) eqn:Hp; fields;
    destruct (healthTimer s) eqn:Hh; fields;
    destruct (bot s) eqn:Hb; fields; rewrite ?Hr, ?Hp, ?Hh, ?Hb; done.
Qed.

Lemma stopBot_fields now actor s :
  Safe s -> isRunning s = true ->
  let s' := (stopBot now actor s).2 in
  (stopBot now actor s).1 = {| success := true; result_message := None |}
  ∧ isRunning s' = false ∧ config s' = config s ∧ sessions s' = sessions s
  ∧ bot s' = None ∧ clients s' = []
  ∧ reconnectTimer s' = None ∧ pingTimer s' = None ∧ healthTimer s' = None
  ∧ botStatus s' = Stopped ∧ serverStatus s' = Unknown
  ∧ reconnectAttempts s' = reconnectAttempts s ∧ botStartTime s' = botStartTime s
  ∧ next_id s' = next_id s
  ∧ last (sent s') = Some (OutStatus (buildStatusPayload now s'))
  ∧ (∀ t, t ∈ timeouts s' ↔ t ∈ timeouts s ∧ t_callback t ≠ CbReconnect)
  ∧ (∀ i, i ∈ intervals s' ↔ i ∈ intervals s ∧ i_job i = JobSweep).
Proof.
  intros Hsafe Hrun. unfold stopBot. rewrite Hrun. cbn [negb]. cbv zeta. cbn [fst snd].
  set (s0 := set_isRunning false s).
  assert (Safe s0) as Hsafe0 by (subst s0; eauto with safe).
  pose proof (clearReconnectTimer_exactly s0 Hsafe0) as [Hi1 Ht1].
  pose proof (stopPingTimer_exactly _ (Safe_clearReconnectTimer s0 Hsafe0)) as [Ht2 Hi2].
  pose proof (stopHealthTimer_exactly _
                (Safe_stopPingTimer _ (Safe_clearReconnectTimer s0 Hsafe0))) as [Ht3 Hi3].
  pose proof (quitBot_timers (stopHealthTimer (stopPingTimer (clearReconnectTimer s0))))
    as [Ht4 Hi4].
  pose proof (stop_sequence_quiet s0) as (Hb & Hrt & Hpt & Hht). cbv zeta in *.
  assert (Safe (quitBot (stopHealthTimer (stopPingTimer (clearReconnectTimer s0))))) as Hsafe4
    by eauto 10 with safe.
  pose proof (stop_sequence_frame s0) as (Hr4 & Hc4 & Hs4 & Ha4 & Hst4 & Hid4).
  cbv zeta in *.
  destruct (Safe_quiet _ Hsafe4 Hb Hrt Hpt) as (Hcl & _ & _).
  assert (∀ t, t ∈ timeouts (quitBot (stopHealthTimer (stopPingTimer (clearReconnectTimer s0))))
               ↔ t ∈ timeouts s ∧ t_callback t ≠ CbReconnect) as Hts.
  { intros t. rewrite Ht4, Ht3, Ht2. apply Ht1. }
  assert (∀ i, i ∈ intervals (quitBot (stopHealthTimer (stopPingTimer (clearReconnectTimer s0))))
               ↔ i ∈ intervals s ∧ i_job i = JobSweep) as His.
  { intros i. rewrite Hi4, Hi3, Hi2, Hi1. change (intervals s0) with (intervals s).
    destruct (i_job i); split; intros H; split_and?; try tauto; try congruence;
      try discriminate; destruct H as [_ H]; discriminate H. }
  clear Ht1 Ht2 Ht3 Ht4 Hi1 Hi2 Hi3 Hi4 Hsafe4.
  revert Hb Hrt Hpt Hht Hr4 Hc4 Hs4 Ha4 Hst4 Hid4 Hcl Hts His.
  generalize (quitBot (stopHealthTimer (stopPingTimer (clearReconnectTimer s0)))).
  intros s4 Hb Hrt Hpt Hht Hr4 Hc4 Hs4 Ha4 Hst4 Hid4 Hcl Hts His.
  fields. split_and!; try done.
  by rewrite last_snoc.
Qed.

(** X9: [stopBot] while the bot is meant to run succeeds.  Afterwards the
    bot is not meant to run, there is no client, the three timer variables are
    cleared, the phase is stopped and reachability unknown, which is the last
    thing broadcast; the timeouts left are exactly the former ones that are not
    reconnects (a start scheduled by a restart stays pending), and the
    intervals left are exactly the session sweeps.  The attempt counter and the
    start time are not reset. *)
Theorem stop_leaves_only_sweep_and_starts (s : State) (now : Z) (actor : option Actor) :
  reachable s -> isRunning s = true ->
  let s' := (stopBot now actor s).2 in
  (stopBot now actor s).1 = {| success := true; result_message := None |}
  ∧ isRunning s' = false ∧ config s' = config s ∧ sessions s' = sessions s
  ∧ bot s' = None ∧ clients s' = []
  ∧ reconnectTimer s' = None ∧ pingTimer s' = None ∧ healthTimer s' = None
  ∧ botStatus s' = Stopped ∧ serverStatus s' = Unknown
  ∧ reconnectAttempts s' = reconnectAttempts s ∧ botStartTime s' = botStartTime s
  ∧ next_id s' = next_id s
  ∧ last (sent s') = Some (OutStatus (buildStatusPayload now s'))
  ∧ (∀ t, t ∈ timeouts s' ↔ t ∈ timeouts s ∧ t_callback t ≠ CbReconnect)
  ∧ (∀ i, i ∈ intervals s' ↔ i ∈ intervals s ∧ i_job i = JobSweep).
Proof.
  intros Hs Hrun. apply Good_reachable in Hs as [Hsafe _].
  by apply stopBot_fields.
Qed.

Lemma stop_leaves_only_sweep_and_starts_witness :
  let s' := (stopBot 1800 None example_kicked).2 in
  isRunning s' = false
  ∧ clients s' = []
  ∧ (∀ t, t ∈ timeouts s' ↔ t ∈ timeouts example_kicked ∧ t_callback t ≠ CbReconnect)
  ∧ (∀ i, i ∈ intervals s' ↔ i ∈ intervals example_kicked ∧ i_job i = JobSweep).
Proof.
  intros s'.
  destruct (stop_leaves_only_sweep_and_starts example_kicked 1800 None
              reachable_kicked eq_refl)
    as (_ & Hrun & _ & _ & _ & Hcl & _ & _ & _ & _ & _ & _ & _ & _ & _ & Ht & Hi).
  split; [exact Hrun|]. split; [exact Hcl|]. split; [exact Ht|exact Hi].
Defined.

Lemma Safe_clear_start actor t s :
  Safe s -> t ∈ timeouts s -> t_callback t = CbStart actor ->
  Safe (clearTimeout (t_handle t) s).
Proof.
  intros H Ht Hcb. safe_open H. safe_split; try done.
  - rewrite <- Hr.
    apply (handles_clear_other t_handle (λ x, t_callback x = CbStart actor)
             (λ x, t_callback x = CbReconnect)); [done| |congruence].
    apply list_elem_of_fmap_2, list_elem_of_filter. done.
  - by apply fresh_clear.
  - by apply distinct_clear.
Qed.

Lemma stopBot_next_id now actor s : Safe s -> next_id (stopBot now actor s).2 = next_id s.
Proof.
  intros Hsafe. destruct (isRunning s) eqn:Hrun.
  - by apply stopBot_fields.
  - unfold stopBot. by rewrite Hrun.
Qed.

Lemma stopBot_config now actor s : Safe s -> config (stopBot now actor s).2 = config s.
Proof.
  intros Hsafe. destruct (isRunning s) eqn:Hrun.
  - by apply stopBot_fields.
  - unfold stopBot. by rewrite Hrun.
Qed.

(** X10: [restartBot] always reports success, also while the bot is not
    meant to run.  When it returns the bot is not meant to run, there is no
    client and no reconnect pending, and a start by the same actor is pending
    with a delay of two seconds.  A [stopBot] in between is refused and changes
    nothing, so the pending start is not cancelled: when it fires the bot is
    meant to run again, with one health interval and with either one client or
    one pending reconnect. *)
Theorem restart_start_survives_stop (s : State) (now : Z) (actor : option Actor) :
  reachable s ->
  let s1 := (restartBot now actor s).2 in
  let t := {| t_handle := next_id s; t_callback := CbStart actor; t_delay := 2000 |} in
  (restartBot now actor s).1 = {| success := true; result_message := None |}
  ∧ isRunning s1 = false ∧ bot s1 = None ∧ clients s1 = [] ∧ pending_reconnects s1 = []
  ∧ t ∈ timeouts s1
  ∧ (∀ now' actor',
       stopBot now' actor' s1
       = ({| success := false; result_message := Some "Bot not running" |}, s1))
  ∧ ∀ now' thrown,
      let s2 := fireTimeout now' t thrown s1 in
      isRunning s2 = true
      ∧ running JobHealth s2 = [S (next_id s)]
      ∧ match thrown with
        | None =>
            clients s2 = [{| cid := S (S (next_id s)); login_armed := true |}]
            ∧ pending_reconnects s2 = []
            ∧ reconnectAttempts s2 = 0
        | Some _ =>
            clients s2 = []
            ∧ filter (λ t, t_callback t = CbReconnect) (timeouts s2)
              = [{| t_handle := S (S (next_id s)); t_callback := CbReconnect;
                    t_delay := reconnectDelay (config s) |}]
            ∧ reconnectAttempts s2 = 1
        end.
Proof.
  intros Hs s1 t. apply Good_reachable in Hs.
  pose proof (Good_addLog now "INFO" ("Bot restart requested by " +:+ actorLabel actor) s Hs)
    as Ha.
  pose proof (Good_stopBot now actor _ Ha) as [Hsafeb Hidleb].
  pose proof (stopBot_not_running now actor
                (addLog now "INFO" ("Bot restart requested by " +:+ actorLabel actor) s))
    as Hrunb.
  pose proof (stopBot_next_id now actor _ (proj1 Ha)) as Hidb.
  pose proof (stopBot_config now actor _ (proj1 Ha)) as Hcfgb.
  change (next_id (addLog _ _ _ s)) with (next_id s) in Hidb.
  change (config (addLog _ _ _ s)) with (config s) in Hcfgb.
  destruct (Hidleb Hrunb) as (Hb & Hrt & Hpt & Hht).
  destruct (Safe_quiet _ Hsafeb Hb Hrt Hpt) as (Hcl & Hpr & _).
  pose proof (Safe_restart_timeout actor 2000 _ Hsafeb) as Hsafe1.
  assert (s1 = (setTimeout (CbStart actor) 2000
                  (stopBot now actor
                     (addLog now "INFO" ("Bot restart requested by " +:+ actorLabel actor) s)).2).2)
    as Hs1 by reflexivity.
  revert Hsafeb Hidleb Hrunb Hidb Hcfgb Hb Hrt Hpt Hht Hcl Hpr Hsafe1 Hs1.
  generalize (stopBot now actor
                (addLog now "INFO" ("Bot restart requested by " +:+ actorLabel actor) s)).2.
  intros sb Hsafeb Hidleb Hrunb Hidb Hcfgb Hb Hrt Hpt Hht Hcl Hpr Hsafe1 Hs1.
  assert (t ∈ timeouts s1) as Ht.
  { rewrite Hs1. fields. rewrite Hidb. apply elem_of_app. right. apply list_elem_of_here. }
  assert (isRunning s1 = false) as Hrun1 by (rewrite Hs1; exact Hrunb).
  split; [reflexivity|]. split; [exact Hrun1|].
  split; [rewrite Hs1; exact Hb|]. split; [rewrite Hs1; exact Hcl|].
  split.
  { rewrite Hs1. unfold pending_reconnects in *. fields.
    rewrite filter_app, fmap_app, Hpr. reflexivity. }
  split; [exact Ht|]. split.
  { intros now' actor'. unfold stopBot. by rewrite Hrun1. }
  intros now' thrown s2.
  rewrite <- Hs1 in Hsafe1.
  pose proof (Safe_clear_start actor t s1 Hsafe1 Ht eq_refl) as Hsafec.
  pose proof (startBot_fields now' actor thrown _ Hsafec Hrun1) as Hstart.
  cbv zeta in Hstart.
  change (next_id (clearTimeout (t_handle t) s1)) with (next_id s1) in Hstart.
  change (config (clearTimeout (t_handle t) s1)) with (config s1) in Hstart.
  assert (next_id s1 = S (next_id s)) as Hid1 by (rewrite Hs1; fields; by rewrite Hidb).
  assert (config s1 = config s) as Hcfg1 by (rewrite Hs1; exact Hcfgb).
  rewrite Hid1, Hcfg1 in Hstart.
  destruct Hstart as (_ & ? & _ & _ & _ & ? & _ & _ & _ & _ & _ & _ & Hcase).
  split; [done|]. split; [done|].
  destruct thrown; destruct Hcase as (_ & ? & ? & ?); done.
Qed.

Lemma restart_start_survives_stop_witness :
  let s1 := (restartBot 2000 None example_online).2 in
  let t := {| t_handle := next_id example_online; t_callback := CbStart None;
              t_delay := 2000 |} in
  isRunning s1 = false
  ∧ t ∈ timeouts s1
  ∧ (stopBot 2500 None s1).2 = s1
  ∧ isRunning (fireTimeout 4000 t None (stopBot 2500 None s1).2) = true.
Proof.
  intros s1 t.
  destruct (restart_start_survives_stop example_online 2000 None reachable_online)
    as (_ & Hrun & _ & _ & _ & Ht & Hstop & Hfire).
  split; [exact Hrun|]. split; [exact Ht|].
  assert ((stopBot 2500 None s1).2 = s1) as Hsame
    by (unfold s1; rewrite (Hstop 2500 None); reflexivity).
  split; [exact Hsame|].
  rewrite Hsame. exact (proj1 (Hfire 4000 None)).
Defined.

(** ** The listeners *)

Lemma Safe_the_client c s : Safe s -> c ∈ clients s -> clients s = [c] ∧ bot s = Some (cid c).
Proof.
  intros H Hc'. safe_open H.
  destruct (clients s) as [|x [|y l]] eqn:Hcl; [by apply elem_of_nil in Hc'| |].
  - apply list_elem_of_singleton in Hc' as ->.
    destruct (bot s); [|done]. injection Hc as ->. done.
  - by destruct (bot s).
Qed.

(** X11: when a client emits [login] to the listener attached with [once],
    the phase becomes online and reachability reachable, which is broadcast,
    the attempt counter is reset, the activity stamps are set to now, the start
    time is kept if there is one and set to now otherwise, exactly one
    keep-alive interval runs, with the configured period, no timeout is
    touched, and the client stays the only one, its [login] listener gone. *)
Theorem login_brings_the_bot_online (s : State) (c : Client) (now : Z) (username : string) :
  reachable s -> c ∈ clients s -> login_armed c = true ->
  let s' := emit now c (EvLogin username) s in
  isRunning s' = true
  ∧ botStatus s' = Online ∧ serverStatus s' = Reachable ∧ reconnectAttempts s' = 0
  ∧ lastPing s' = Some now ∧ lastBotEventAt s' = now
  ∧ botStartTime s'
    = match botStartTime s with
      | Some t => if t =? 0 then Some now else Some t
      | None => Some now
      end
  ∧ bot s' = Some (cid c)
  ∧ clients s' = [{| cid := cid c; login_armed := false |}]
  ∧ pingTimer s' = Some (next_id s)
  ∧ filter (λ i, i_job i = JobPing) (intervals s')
    = [{| i_handle := next_id s; i_job := JobPing; i_period := pingInterval (config s) |}]
  ∧ timeouts s' = timeouts s
  ∧ ∃ p, OutStatus p ∈ drop (length (sent s)) (sent s')
         ∧ p_botStatus p = Online ∧ p_serverStatus p = Reachable.
Proof.
  intros Hs Hc Harmed s'. apply Good_reachable in Hs.
  pose proof (client_running c s Hs Hc) as Hrun. unfold Running in Hrun.
  destruct Hs as [Hsafe _].
  destruct (Safe_the_client c s Hsafe Hc) as [Hcl Hbot].
  pose proof (stopPingTimer_exactly s Hsafe) as [_ Hstop].
  assert (filter (λ i, i_job i = JobPing) (intervals (stopPingTimer s)) = []) as Hnone.
  { destruct (filter _ (intervals (stopPingTimer s))) as [|i l] eqn:Hf; [done|].
    assert (i ∈ filter (λ i, i_job i = JobPing) (intervals (stopPingTimer s))) as Hi
      by (rewrite Hf; apply list_elem_of_here).
    apply list_elem_of_filter in Hi as [Hj Hi]. apply Hstop in Hi. tauto. }
  subst s'. unfold emit, listener, onLogin, startPingTimer. cbv zeta.
  unfold stopPingTimer in *.
  destruct (pingTimer s) eqn:Hpt;
    repeat (fields; rewrite ?Hbot, ?Hcl, ?Hrun, ?Hpt);
    rewrite ?filter_app, ?Hnone; (split_and!; try done; [|]);
    [simpl; by case_bool_decide| |simpl; by case_bool_decide|];
    rewrite <- ?app_assoc, drop_app_length; simpl;
    (eexists; split;
       [repeat first [apply list_elem_of_here|apply list_elem_of_further]|done]).
Qed.

Lemma login_brings_the_bot_online_witness :
  let s' := emit 1600 {| cid := 3; login_armed := true |} (EvLogin "AternosGuard")
              example_started in
  botStatus s' = Online
  ∧ clients s' = [{| cid := 3; login_armed := false |}]
  ∧ filter (λ i, i_job i = JobPing) (intervals s')
    = [{| i_handle := next_id example_started; i_job := JobPing;
          i_period := pingInterval (config example_started) |}].
Proof.
  intros s'.
  assert ({| cid := 3; login_armed := true |} ∈ clients example_started) as Hc
    by (vm_compute; apply list_elem_of_here).
  destruct (login_brings_the_bot_online example_started {| cid := 3; login_armed := true |}
              1600 "AternosGuard" reachable_started Hc eq_refl)
    as (_ & Hon & _ & _ & _ & _ & _ & _ & Hcl & _ & Hpi & _).
  split; [exact Hon|]. split; [exact Hcl|exact Hpi].
Defined.

(** ** The bot is never given up while it is meant to run *)

Create HintDb watch.

Lemma Alive_Watched s : Alive s -> Watched s.
Proof. intros H Hrun. by destruct (H Hrun). Qed.

Lemma Watched_set_botStatus v s : Watched s -> Watched (set_botStatus v s).
Proof. intros H. exact H. Qed.
Lemma Watched_set_serverStatus v s : Watched s -> Watched (set_serverStatus v s).
Proof. intros H. exact H. Qed.
Lemma Watched_markBotActivity now s : Watched s -> Watched (markBotActivity now s).
Proof. intros H. exact H. Qed.
Lemma Watched_broadcastStatus now s : Watched s -> Watched (broadcastStatus now s).
Proof. intros H. exact H. Qed.
Lemma Watched_addLog now lv msg s : Watched s -> Watched (addLog now lv msg s).
Proof. intros H. exact H. Qed.
Lemma Watched_stopPingTimer s : Watched s -> Watched (stopPingTimer s).
Proof. intros H. unfold stopPingTimer. destruct (pingTimer s); exact H. Qed.
Lemma Watched_quitBot s : Watched s -> Watched (quitBot s).
Proof. intros H. unfold quitBot. destruct (bot s); exact H. Qed.
Lemma Watched_clearReconnectTimer s : Watched s -> Watched (clearReconnectTimer s).
Proof. intros H. unfold clearReconnectTimer. destruct (reconnectTimer s); exact H. Qed.

#[export] Hint Resolve Alive_Watched Watched_set_botStatus Watched_set_serverStatus
  Watched_markBotActivity Watched_broadcastStatus Watched_addLog Watched_stopPingTimer
  Watched_quitBot Watched_clearReconnectTimer : watch.

Lemma Alive_queueReconnect now reason s : Watched s -> Alive (queueReconnect now reason s).
Proof.
  intros H. unfold queueReconnect.
  destruct (isRunning s) eqn:Hrun; cbn [negb]; [|intros Hr; congruence].
  destruct (reconnectTimer s) eqn:Hrt.
  - intros _. split; [by apply H|]. right. by rewrite Hrt.
  - intros _. split; [by apply H|]. right. by eexists.
Qed.

Lemma Alive_stopped s : isRunning s = false -> Alive s.
Proof. intros H Hrun. congruence. Qed.

Lemma Alive_startPingTimer s : Alive s -> Alive (startPingTimer s).
Proof.
  intros H. unfold startPingTimer, stopPingTimer. destruct (pingTimer s); exact H.
Qed.

Lemma Alive_listener now ev s : Alive s -> Alive (listener now ev s).
Proof.
  intros H. destruct ev; unfold listener.
  - unfold onLogin. cbv zeta.
    change (bot (markBotActivity now _)) with (bot s).
    destruct (bot s) eqn:Hb.
    + apply Alive_startPingTimer. intros Hrun. destruct (H Hrun) as [? _].
      split; [done|]. left. change (is_Some (bot s)). by rewrite Hb.
    + exact H.
  - exact H.
  - unfold onKicked. apply Alive_queueReconnect. eauto 10 with watch.
  - unfold onError. apply Alive_queueReconnect. cbv zeta.
    case_bool_decide; eauto 10 with watch.
  - unfold onEnd. cbv zeta.
    match goal with |- Alive (if ?b then _ else _) => destruct b eqn:Hrun end.
    + apply Alive_queueReconnect. eauto 10 with watch.
    + apply Alive_stopped. exact Hrun.
  - exact H.
  - exact H.
Qed.

Lemma Alive_createBot now thrown s : Safe s -> Watched s -> Alive (createBot now thrown s).
Proof.
  intros Hsafe H. destruct (isRunning s) eqn:Hrun.
  - pose proof (createBot_fields now thrown s Hsafe Hrun)
      as (_ & _ & _ & Hht & _ & _ & _ & _ & _ & _ & _ & _ & Hcase).
    intros _. rewrite Hht. split; [by apply H|].
    destruct thrown; destruct Hcase as (Hb & _ & Hrt & _).
    + right. by rewrite Hrt.
    + left. by rewrite Hb.
  - unfold createBot. rewrite Hrun. by apply Alive_stopped.
Qed.

Lemma Alive_startBot now actor thrown s :
  Safe s -> Alive s -> Alive (startBot now actor thrown s).2.
Proof.
  intros Hsafe H. destruct (isRunning s) eqn:Hrun.
  - unfold startBot. by rewrite Hrun.
  - pose proof (startBot_fields now actor thrown s Hsafe Hrun)
      as (_ & _ & _ & _ & Hht & _ & _ & _ & _ & _ & _ & _ & Hcase).
    intros _. rewrite Hht. split; [done|].
    destruct thrown; destruct Hcase as (Hb & _ & Hq & _).
    + right.
      pose proof (Safe_startBot now actor (Some s0) s Hsafe) as Hsafe'. safe_open Hsafe'.
      destruct (reconnectTimer _); [done|]. by rewrite Hq in Hr.
    + left. by rewrite Hb.
Qed.

Lemma Alive_stopBot now actor s : Alive (stopBot now actor s).2.
Proof. apply Alive_stopped, stopBot_not_running. Qed.

Lemma Alive_restartBot now actor s : Alive (restartBot now actor s).2.
Proof.
  apply Alive_stopped. unfold restartBot.
  exact (stopBot_not_running now actor
           (addLog now "INFO" ("Bot restart requested by " +:+ actorLabel actor) s)).
Qed.

Lemma Alive_pingTick now entity failure s : Alive s -> Alive (pingTick now entity failure s).
Proof. intros H. unfold pingTick. repeat case_match; exact H. Qed.

Lemma Alive_healthTick now s : Alive s -> Alive (healthTick now s).
Proof.
  intros H. unfold healthTick. destruct (isRunning s); cbn [negb]; [|exact H]. cbv zeta.
  repeat case_match; try exact H; apply Alive_queueReconnect; eauto 10 with watch.
Qed.

Lemma Alive_fireTimeout now t thrown s :
  Good s -> Alive s -> t ∈ timeouts s -> Alive (fireTimeout now t thrown s).
Proof.
  intros Hg H Ht. unfold fireTimeout.
  destruct (t_callback t) as [|actor] eqn:Hcb.
  - destruct (pending_is_reconnectTimer s t Hg Ht Hcb) as [Hrun Hrt].
    cbv zeta.
    change (isRunning (set_reconnectTimer None (clearTimeout (t_handle t) s)))
      with (isRunning s). rewrite Hrun. cbn [negb].
    pose proof (Safe_clearReconnectTimer s (proj1 Hg)) as Hsafe.
    unfold clearReconnectTimer in Hsafe. rewrite Hrt in Hsafe.
    apply Alive_createBot; [exact Hsafe|]. apply Alive_Watched in H. exact H.
  - apply Alive_startBot; [|exact H].
    by apply (Safe_clear_start actor t s (proj1 Hg)).
Qed.

Create HintDb live.

Lemma Live_set_sessions v s : Live s -> Live (set_sessions v s).
Proof. intros H. exact H. Qed.
Lemma Live_set_users v s : Live s -> Live (set_users v s).
Proof. intros H. exact H. Qed.
Lemma Live_write_user i f s : Live s -> Live (write_user i f s).
Proof. intros H. exact H. Qed.
Lemma Live_revokeSessionsForUser uid s : Live s -> Live (revokeSessionsForUser uid s).
Proof. intros H. exact H. Qed.
Lemma Live_pruneExpiredSessions now s : Live s -> Live (pruneExpiredSessions now s).
Proof. intros H. exact H. Qed.
Lemma Live_createSession now u t s : Live s -> Live (createSession now u t s).
Proof. intros H. exact H. Qed.
Lemma Live_broadcastStatus now s : Live s -> Live (broadcastStatus now s).
Proof. intros H. exact H. Qed.
Lemma Live_addLog now lv msg s : Live s -> Live (addLog now lv msg s).
Proof. intros [H1 H2]. split; [by apply Good_addLog|exact H2]. Qed.
Lemma Live_assignConfig body s : Live s -> Live (set_config (assignConfig body (config s)) s).
Proof. intros [H1 H2]. split; [by apply Good_assignConfig|exact H2]. Qed.
Lemma Live_startBot now actor thrown s : Live s -> Live (startBot now actor thrown s).2.
Proof.
  intros [H1 H2]. split; [by apply Good_startBot|]. apply Alive_startBot; [apply H1|exact H2].
Qed.
Lemma Live_stopBot now actor s : Live s -> Live (stopBot now actor s).2.
Proof. intros [H1 H2]. split; [by apply Good_stopBot|apply Alive_stopBot]. Qed.
Lemma Live_restartBot now actor s : Live s -> Live (restartBot now actor s).2.
Proof. intros [H1 H2]. split; [by apply Good_restartBot|apply Alive_restartBot]. Qed.
Lemma Live_pingTick now entity failure s : Live s -> Live (pingTick now entity failure s).
Proof. intros [H1 H2]. split; [by apply Good_pingTick|by apply Alive_pingTick]. Qed.
Lemma Live_healthTick now s : Live s -> Live (healthTick now s).
Proof. intros [H1 H2]. split; [by apply Good_healthTick|by apply Alive_healthTick]. Qed.

#[export] Hint Resolve Live_set_sessions Live_set_users Live_write_user
  Live_revokeSessionsForUser Live_pruneExpiredSessions Live_createSession
  Live_broadcastStatus Live_addLog Live_assignConfig Live_startBot Live_stopBot
  Live_restartBot Live_pingTick Live_healthTick : live.

Lemma Live_postLogin now req s : Live s -> Live (postLogin now req s).2.
Proof.
  intros H. unfold postLogin. repeat case_match; simpl; eauto 10 with live.
Qed.

Lemma Live_postUsers now req actor s r s' :
  Live s -> postUsers now req actor s = Some (r, s') -> Live s'.
Proof.
  intros H. unfold postUsers. repeat case_match; intros; simplify_eq; eauto 10 with live.
Qed.

Lemma Live_patchFinish now req actor target tid inc rev s r s' :
  Live s -> patchFinish now req actor target tid inc rev s = Some (r, s') -> Live s'.
Proof.
  intros H. unfold patchFinish.
  repeat case_match; intros; simplify_eq; eauto 10 with live.
Qed.

Lemma Live_patchUser now req actor me s r s' :
  Live s -> patchUser now req actor me s = Some (r, s') -> Live s'.
Proof.
  intros H. unfold patchUser.
  destruct (findUserById (params_id req) s) as [[i target]|]; [|by intros [= <- <-]].
  destruct (_ && _); [by intros [= <- <-]|].
  destruct (_ && _ && _); [by intros [= <- <-]|].
  cbv zeta.
  match goal with
  | |- context [patchFinish _ _ _ _ _ _ _ ?X] => assert (Live X) as H2
  end.
  { repeat case_match; auto with live. }
  destruct (String.eqb (body_text req "token") ""); [by apply Live_patchFinish|].
  destruct (tokenTaken _ _ _); [by intros [= <- <-]|].
  apply Live_patchFinish. auto with live.
Qed.

Lemma Live_deleteUser now req me s : Live s -> Live (deleteUser now req me s).2.
Proof.
  intros H. unfold deleteUser. repeat case_match; simpl; eauto 10 with live.
Qed.

Lemma Live_serve now route req s r s' :
  Live s -> serve now route req s = Some (r, s') -> Live s'.
Proof.
  intros H. destruct route; unfold serve.
  - intros [= Heq]. pose proof (Live_postLogin now req s H) as Hg.
    by rewrite Heq in Hg.
  - apply guarded_keeps; [auto with live| |done].
    intros ? ? s1 r1 s1' H1. unfold postLogout. case_match; intros [= <- <-]; auto with live.
  - apply guarded_keeps; [auto with live| |done]. by intros ? ? s1 r1 s1' H1 [= <- <-].
  - apply guarded_keeps; [auto with live| |done]. by intros ? ? s1 r1 s1' H1 [= <- <-].
  - apply guarded_keeps; [auto with live| |done]. by intros ? ? s1 r1 s1' H1 [= <- <-].
  - apply guarded_keeps; [auto with live| |done]. intros ? u s1 r1 s1' H1.
    pose proof (Live_startBot now (actor_of u) (thrown req) s1 H1) as Hs.
    destruct (startBot now (actor_of u) (thrown req) s1). intros [= <- <-]. exact Hs.
  - apply guarded_keeps; [auto with live| |done]. intros ? u s1 r1 s1' H1.
    pose proof (Live_stopBot now (actor_of u) s1 H1) as Hs.
    destruct (stopBot now (actor_of u) s1). intros [= <- <-]. exact Hs.
  - apply guarded_keeps; [auto with live| |done]. intros ? u s1 r1 s1' H1.
    pose proof (Live_restartBot now (actor_of u) s1 H1) as Hs.
    destruct (restartBot now (actor_of u) s1). intros [= <- <-]. exact Hs.
  - apply guarded_keeps; [auto with live| |done]. by intros ? ? s1 r1 s1' H1 [= <- <-].
  - apply guarded_keeps; [auto with live| |done]. intros ? u s1 r1 s1' H1.
    unfold postConfig. intros [= <- <-]. eauto 10 with live.
  - apply guarded_keeps; [auto with live| |done]. by intros ? ? s1 r1 s1' H1 [= <- <-].
  - apply guarded_keeps; [auto with live| |done]. intros ? u s1 r1 s1' H1.
    by apply Live_postUsers.
  - apply guarded_keeps; [auto with live| |done]. intros ? u s1 r1 s1' H1.
    by apply Live_patchUser.
  - apply guarded_keeps; [auto with live| |done]. intros ? u s1 r1 s1' H1 [= Heq].
    pose proof (Live_deleteUser now req u s1 H1) as Hg. by rewrite Heq in Hg.
Qed.

Lemma Live_step s s' : step s s' -> Live s -> Live s'.
Proof.
  intros Hstep H. destruct Hstep.
  - by eapply Live_serve.
  - unfold wsConnect. apply (resolve_keeps Live); auto with live.
  - unfold wsMessage. repeat case_match; auto with live.
  - by apply Live_addLog.
  - destruct H as [Hg Ha]. split; [by apply Good_fireTimeout|by apply Alive_fireTimeout].
  - unfold runInterval. case_match; auto with live.
  - destruct H as [Hg Ha]. split; [by apply Good_emit|].
    unfold emit. apply Alive_listener. by destruct ev.
Qed.

Lemma Live_reachable s : reachable s -> Live s.
Proof.
  intros (e & s0 & Hboot & Hsteps).
  assert (Live s0) as H0.
  { split; [by eapply Good_boot|]. apply Alive_stopped.
    unfold boot in Hboot. destruct (loadConfig e); [|done]. by injection Hboot as <-. }
  clear Hboot. induction Hsteps; eauto using Live_step.
Qed.

(** X12: in every state the server can be in while the bot is meant to run,
    exactly one health interval runs, and there is a client with listeners or
    a pending reconnect timeout (or both). *)
Theorem running_bot_is_never_abandoned (s : State) :
  reachable s -> isRunning s = true ->
  length (running JobHealth s) = 1%nat
  ∧ (length (clients s) = 1%nat ∨ length (pending_reconnects s) = 1%nat).
Proof.
  intros Hs Hrun. apply Live_reachable in Hs as [[Hsafe _] Halive].
  destruct (Halive Hrun) as [[h Hh] Hor]. safe_open Hsafe.
  unfold running, pending_reconnects. rewrite Hh0, Hh. split; [done|].
  destruct Hor as [[b Hb]|[k Hk]].
  - left. rewrite <- (length_fmap cid), Hc, Hb. done.
  - right. rewrite Hr, Hk. done.
Qed.

Lemma running_bot_is_never_abandoned_witness :
  length (running JobHealth example_kicked) = 1%nat
  ∧ (length (clients example_kicked) = 1%nat
     ∨ length (pending_reconnects example_kicked) = 1%nat).
Proof.
  exact (running_bot_is_never_abandoned example_kicked reachable_kicked eq_refl).
Defined.

(** X13: in every state the server can be in while the bot is not meant to
    run, there is no client, every pending timeout is a scheduled start, every
    interval is the session sweep, and so a run of any interval only sweeps the
    sessions. *)
Theorem stopped_bot_holds_nothing (s : State) :
  reachable s -> isRunning s = false ->
  bot s = None ∧ clients s = []
  ∧ (∀ t, t ∈ timeouts s -> ∃ actor, t_callback t = CbStart actor)
  ∧ (∀ i, i ∈ intervals s -> i_job i = JobSweep)
  ∧ ∀ now i entity failure,
      i ∈ intervals s -> runInterval now i entity failure s = pruneExpiredSessions now s.
Proof.
  intros Hs Hrun. apply Good_reachable in Hs as [Hsafe Hidle].
  destruct (Hidle Hrun) as (Hb & Hrt & Hpt & Hht).
  destruct (Safe_quiet s Hsafe Hb Hrt Hpt) as (Hcl & Hpr & Hpi).
  safe_open Hsafe. rewrite Hht in Hh.
  assert (∀ i, i ∈ intervals s -> i_job i = JobSweep) as Hsweep.
  { intros i Hi. destruct (i_job i) eqn:Hj; [| |done]; exfalso.
    - assert (i_handle i ∈ running JobPing s) as Hin
        by (apply list_elem_of_fmap_2; by apply list_elem_of_filter).
      rewrite Hpi in Hin. by apply elem_of_nil in Hin.
    - assert (i_handle i ∈ i_handle <$> filter (λ i, i_job i = JobHealth) (intervals s))
        as Hin by (apply list_elem_of_fmap_2; by apply list_elem_of_filter).
      rewrite Hh in Hin. by apply elem_of_nil in Hin. }
  split_and!; [done|done| |done|].
  - intros t Ht. destruct (t_callback t) as [|actor] eqn:Hcb; [|by exists actor].
    assert (t_handle t ∈ pending_reconnects s) as Hin
      by (apply list_elem_of_fmap_2; by apply list_elem_of_filter).
    rewrite Hpr in Hin. by apply elem_of_nil in Hin.
  - intros now i entity failure Hi. unfold runInterval. by rewrite (Hsweep i Hi).
Qed.

Lemma stopped_bot_holds_nothing_witness :
  clients example_admin_in = []
  ∧ (∀ t, t ∈ timeouts example_admin_in -> ∃ actor, t_callback t = CbStart actor)
  ∧ (∀ i, i ∈ intervals example_admin_in -> i_job i = JobSweep).
Proof.
  destruct (stopped_bot_holds_nothing example_admin_in reachable_admin_in eq_refl)
    as (_ & Hcl & Ht & Hi & _).
  split; [exact Hcl|]. split; [exact Ht|exact Hi].
Defined.

Lemma last_push_log entry l : last (push_log entry l) = Some entry.
Proof.
  unfold push_log. cbv zeta. case_match; [|apply last_snoc].
  destruct l as [|x l]; [done|]. simpl. apply last_snoc.
Qed.

(** X14: a run of the keep-alive callback never changes whether the bot is
    meant to run, the client, the phase, reachability, the attempt counter, the
    timers, the configuration or the sessions.  It does nothing at all unless
    the bot is meant to run and has an entity.  If moving the bot throws, only
    a warning is logged: the activity stamps and the pulse counter stay.
    Otherwise the pulse counter goes up by one, both stamps are set to now, the
    status is broadcast last, and a PING entry is logged exactly when the new
    count is a multiple of five. *)
Theorem keep_alive_pulse_only_reports
    (s : State) (now : Z) (entity : bool) (failure : option string) :
  let s' := pingTick now entity failure s in
  isRunning s' = isRunning s ∧ bot s' = bot s ∧ clients s' = clients s
  ∧ botStatus s' = botStatus s ∧ serverStatus s' = serverStatus s
  ∧ reconnectAttempts s' = reconnectAttempts s
  ∧ timeouts s' = timeouts s ∧ intervals s' = intervals s
  ∧ config s' = config s ∧ sessions s' = sessions s
  ∧ if negb (isRunning s) || negb (bool_decide (is_Some (bot s))) || negb entity then s' = s
    else match failure with
         | Some msg =>
             lastBotEventAt s' = lastBotEventAt s ∧ lastPing s' = lastPing s
             ∧ keepAlivePulseCount s' = keepAlivePulseCount s
             ∧ sent s' = sent s ++ [OutLog {| time := now; level := "WARNING";
                                              message := "Keep-alive pulse failed: " +:+ msg |}]
             ∧ last (logs s') = Some {| time := now; level := "WARNING";
                                        message := "Keep-alive pulse failed: " +:+ msg |}
         | None =>
             lastBotEventAt s' = now ∧ lastPing s' = Some now
             ∧ keepAlivePulseCount s' = keepAlivePulseCount s + 1
             ∧ last (sent s') = Some (OutStatus (buildStatusPayload now s'))
             ∧ if Z.rem (keepAlivePulseCount s + 1) 5 =? 0
               then last (logs s') = Some {| time := now; level := "PING";
                                             message := "Keep-alive pulse sent" |}
               else logs s' = logs s
         end.
Proof.
  unfold pingTick.
  destruct (negb (isRunning s) || negb (bool_decide (is_Some (bot s))) || negb entity);
    [done|].
  destruct failure as [msg|].
  - fields. split_and!; try done. apply last_push_log.
  - cbv zeta. fields.
    destruct (Z.rem (keepAlivePulseCount s + 1) 5 =? 0); fields;
      split_and!; try done; try apply last_snoc. apply last_push_log.
Qed.

(** ** Configuration and logs *)

Lemma text_field_kept b k old : old ≠ "" -> text_field b k old ≠ "".
Proof.
  intros Hold. unfold text_field.
  destruct (prop b k) as [[| | |t| |]|]; try done.
  destruct (String.eqb (trim t) "") eqn:Ht; [done|]. by apply String.eqb_neq.
Qed.

Lemma text_field_again b k old : text_field b k (text_field b k old) = text_field b k old.
Proof.
  unfold text_field. destruct (prop b k) as [[| | |t| |]|]; try done.
  by destruct (String.eqb (trim t) "").
Qed.

Lemma toPositiveInt_again v old : toPositiveInt v (toPositiveInt v old) = toPositiveInt v old.
Proof.
  unfold toPositiveInt. destruct (parseInt (toString_opt v)); try done.
  by destruct (0 <? z).
Qed.

Lemma number_field_again b k old :
  number_field b k (number_field b k old) = number_field b k old.
Proof.
  unfold number_field. destruct (prop b k); [apply toPositiveInt_again|done].
Qed.

(** X15: the handler of [POST /api/config], for a body it reads to the end
    (its text fields that are strings hold single-byte characters, and what it
    gives for the numeric fields is converted by [parseInt] without throwing,
    to a text of single-byte characters), answers with the configuration
    it leaves behind.  It never blanks [host], [username] or [version];
    applying the same body to the result again changes nothing more; without a
    body the configuration stays as it is.  Users, sessions, the client, the
    phase and all pending timers are untouched (a running keep-alive interval
    keeps its period), and the status is broadcast last. *)
Theorem config_update_keeps_texts_and_connection
    (now : Z) (req : Request) (u : User) (s : State) :
  config_body_reads req ->
  let s' := (postConfig now req u s).2 in
  (postConfig now req u s).1 = ConfigSaved (publicConfig (config s'))
  ∧ (host (config s) ≠ "" -> host (config s') ≠ "")
  ∧ (username (config s) ≠ "" -> username (config s') ≠ "")
  ∧ (version (config s) ≠ "" -> version (config s') ≠ "")
  ∧ assignConfig (body req) (config s') = config s'
  ∧ (body req = None -> config s' = config s)
  ∧ users (config s') = users (config s) ∧ sessions s' = sessions s
  ∧ isRunning s' = isRunning s ∧ bot s' = bot s ∧ clients s' = clients s
  ∧ botStatus s' = botStatus s
  ∧ timeouts s' = timeouts s ∧ intervals s' = intervals s
  ∧ last (sent s') = Some (OutStatus (buildStatusPayload now s')).
Proof.
  intros _. unfold postConfig. cbv zeta. cbn [fst snd]. fields.
  split_and!; try done.
  - apply text_field_kept.
  - apply text_field_kept.
  - apply text_field_kept.
  - unfold assignConfig. cbn [host port username reconnectDelay pingInterval version users].
    by rewrite !text_field_again, !number_field_again.
  - intros ->. by destruct (config s).
  - apply last_snoc.
Qed.

Lemma config_update_keeps_texts_and_connection_witness :
  let req := request (Some "Bearer sa") ""
               [("host", JStr "   "); ("port", JStr "25565"); ("version", JNum "1.21")] "" in
  let u := {| id := "a"; name := "Owner"; urole := admin; token := "ta";
              createdAt := SIso 0; lastLoginAt := SIso 10 |} in
  config_body_reads req
  ∧ host (config example_online) ≠ ""
  ∧ host (config (postConfig 2000 req u example_online).2) ≠ ""
  ∧ port (config (postConfig 2000 req u example_online).2) = 25565
  ∧ intervals (postConfig 2000 req u example_online).2 = intervals example_online.
Proof.
  intros req u.
  assert (config_body_reads req) as Hreads.
  { split.
    - intros k t Hk.
      repeat (apply elem_of_cons in Hk as [->|Hk]); [| | |by apply elem_of_nil in Hk];
        intros Hv; vm_compute in Hv; first [discriminate Hv|injection Hv as <-; reflexivity].
    - intros k v Hk.
      repeat (apply elem_of_cons in Hk as [->|Hk]); [| | |by apply elem_of_nil in Hk];
        intros Hv; vm_compute in Hv; first [discriminate Hv|injection Hv as <-; reflexivity]. }
  assert (host (config example_online) ≠ "") as Hhost by discriminate.
  destruct (config_update_keeps_texts_and_connection 2000 req u example_online Hreads)
    as (_ & Hkeep & _ & _ & _ & _ & _ & _ & _ & _ & _ & _ & _ & Hi & _).
  split; [exact Hreads|]. split; [exact Hhost|]. split; [exact (Hkeep Hhost)|].
  split; [reflexivity|exact Hi].
Defined.



(** ** What the replies disclose *)

Lemma masked_list_discloses_nothing (l : list User) :
  ((λ u, sanitizeUser u false) <$> l) ≫= (λ u, option_list (pu_token u)) = [].
Proof. induction l as [|u l IH]; [done|]. simpl. exact IH. Qed.

Lemma postLogin_discloses_nothing now req s : disclosed (postLogin now req s).1 = [].
Proof. unfold postLogin. by repeat case_match. Qed.

Lemma patchFinish_disclosure now req a target tid inc rev s r s' t :
  patchFinish now req a target tid inc rev s = Some (r, s') -> t ∈ disclosed r ->
  (inc = true ∨ body_prop req "rotateToken" = Some (JBool true))
  ∧ ∃ u, users (config s') !! target = Some u ∧ token u = t.
Proof.
  unfold patchFinish. intros H Ht.
  destruct (body_prop req "rotateToken") as [[| [|] | | | |]|] eqn:Hrot;
    repeat case_match; simplify_eq; try destruct inc; simpl in Ht;
    try (by apply elem_of_nil in Ht);
    apply list_elem_of_singleton in Ht as ->;
    (split; [by auto|]); eexists; (split; [eassumption|reflexivity]).
Qed.

Lemma guarded_resolved now req permission s k r s' :
  guarded now req permission s k = Some (r, s') ->
  (∃ st msg, r = Failure st msg ∧ (st = 401 ∨ st = 403))
  ∨ ∃ i u session s1,
      resolveAuthFromToken now (getBearerToken (authorization req)) s
      = (Some (i, u, session), s1)
      ∧ (∀ p, permission = Some p -> p ∈ getPermissions (urole u))
      ∧ k i u s1 = Some (r, s').
Proof.
  unfold guarded.
  destruct (resolveAuthFromToken now (getBearerToken (authorization req)) s)
    as [[[[i u] session]|] s1] eqn:Hres.
  - destruct permission as [p|].
    + case_bool_decide as Hp.
      * intros Hk. right. exists i, u, session, s1. split_and!; try done. by intros ? [= <-].
      * intros [= <- <-]. left. eauto.
    + intros Hk. right. exists i, u, session, s1. split_and!; done.
  - intros [= <- <-]. left. eauto.
Qed.

(** X17: a reply carries a user's token in full only from
    [POST /api/users], or from [PATCH /api/users/:id] when the request supplied
    a token or asked for a rotation; the token is then that of a user in the
    state left behind, and [req.user], the user that the session of the request
    resolves to, is an administrator. *)
Theorem full_token_only_on_write
    (now : Z) (route : Route) (req : Request) (s s' : State) (r : Reply) (t : string) :
  serve now route req s = Some (r, s') -> t ∈ disclosed r ->
  (route = PostUsers
   ∨ (route = PatchUser
      ∧ (body_text req "token" ≠ "" ∨ body_prop req "rotateToken" = Some (JBool true))))
  ∧ (∃ u, u ∈ users (config s') ∧ token u = t)
  ∧ ∃ i me session s1,
      resolveAuthFromToken now (getBearerToken (authorization req)) s
      = (Some (i, me, session), s1)
      ∧ urole me = admin.
Proof.
  intros Hserve Ht.
  assert (∀ perm k,
            guarded now req perm s k = Some (r, s') ->
            ∃ i u session s1,
              resolveAuthFromToken now (getBearerToken (authorization req)) s
              = (Some (i, u, session), s1)
              ∧ (∀ p, perm = Some p -> p ∈ getPermissions (urole u))
              ∧ k i u s1 = Some (r, s')) as Hin.
  { intros perm k Hg. apply guarded_resolved in Hg as [(st & msg & -> & _)|Hg]; [|done].
    by apply elem_of_nil in Ht. }
  destruct route; unfold serve in Hserve.
  - injection Hserve as Heq. pose proof (postLogin_discloses_nothing now req s) as Hd.
    rewrite Heq in Hd. simpl in Hd. rewrite Hd in Ht. by apply elem_of_nil in Ht.
  - apply Hin in Hserve as (i & u & session & s1 & _ & _ & Hk). unfold postLogout in Hk.
    case_match; simplify_eq; by apply elem_of_nil in Ht.
  - apply Hin in Hserve as (i & u & session & s1 & _ & _ & [= <- <-]). by apply elem_of_nil in Ht.
  - apply Hin in Hserve as (i & u & session & s1 & _ & _ & [= <- <-]). by apply elem_of_nil in Ht.
  - apply Hin in Hserve as (i & u & session & s1 & _ & _ & [= <- <-]). by apply elem_of_nil in Ht.
  - apply Hin in Hserve as (i & u & session & s1 & _ & _ & Hk).
    destruct (startBot _ _ _ _). simplify_eq. by apply elem_of_nil in Ht.
  - apply Hin in Hserve as (i & u & session & s1 & _ & _ & Hk).
    destruct (stopBot _ _ _). simplify_eq. by apply elem_of_nil in Ht.
  - apply Hin in Hserve as (i & u & session & s1 & _ & _ & Hk).
    destruct (restartBot _ _ _). simplify_eq. by apply elem_of_nil in Ht.
  - apply Hin in Hserve as (i & u & session & s1 & _ & _ & [= <- <-]). by apply elem_of_nil in Ht.
  - apply Hin in Hserve as (i & u & session & s1 & _ & _ & Hk). unfold postConfig in Hk.
    simplify_eq. by apply elem_of_nil in Ht.
  - apply Hin in Hserve as (i & u & session & s1 & _ & _ & [= <- <-]).
    simpl in Ht. rewrite masked_list_discloses_nothing in Ht. by apply elem_of_nil in Ht.
  - apply Hin in Hserve as (i & u & session & s1 & Hres & Hp & Hk).
    split; [by left|]. split.
    + unfold postUsers in Hk. repeat case_match; simplify_eq; simpl in Ht;
        try (by apply elem_of_nil in Ht).
      all: apply list_elem_of_singleton in Ht as ->.
      all: clear Hin; simpl; eexists.
      all: split; [apply elem_of_app; right; apply list_elem_of_here|reflexivity].
    + exists i, u, session, s1. split; [exact Hres|]. by apply writer_is_admin, Hp.
  - apply Hin in Hserve as (i & u & session & s1 & Hres & Hp & Hk).
    assert ((body_text req "token" ≠ ""
             ∨ body_prop req "rotateToken" = Some (JBool true))
            ∧ ∃ v, v ∈ users (config s') ∧ token v = t) as [Hwhy Hv].
    { unfold patchUser in Hk.
      destruct (findUserById (params_id req) s1) as [[j target]|];
        [|simplify_eq; by apply elem_of_nil in Ht].
      destruct (_ && _); [simplify_eq; by apply elem_of_nil in Ht|].
      destruct (_ && _ && _); [simplify_eq; by apply elem_of_nil in Ht|].
      cbv zeta in Hk.
      destruct (String.eqb_spec (body_text req "token") "") as [Htok|Htok].
      - apply patchFinish_disclosure with (t := t) in Hk as [[?|Hrot] (v & Hv & ?)];
          [done| |done].
        split; [by right|]. exists v. split; [by eapply list_elem_of_lookup_2|done].
      - destruct (tokenTaken _ _ _); [simplify_eq; by apply elem_of_nil in Ht|].
        apply patchFinish_disclosure with (t := t) in Hk as [_ (v & Hv & ?)]; [|done].
        split; [by left|]. exists v. split; [by eapply list_elem_of_lookup_2|done]. }
    split; [by right|]. split; [done|].
    exists i, u, session, s1. split; [exact Hres|]. by apply writer_is_admin, Hp.
  - apply Hin in Hserve as (i & u & session & s1 & _ & _ & Hk).
    injection Hk as Hk. unfold deleteUser in Hk.
    repeat case_match; simplify_eq; by apply elem_of_nil in Ht.
Qed.

Lemma full_token_only_on_write_witness :
  let req := request (Some "Bearer sa") ""
               [("name", JStr "B"); ("role", JStr "operator"); ("token", JStr "tb")] "" in
  ∃ r s',
    serve 20 PostUsers req example_admin_in = Some (r, s')
    ∧ "tb" ∈ disclosed r
    ∧ (∃ u, u ∈ users (config s') ∧ token u = "tb")
    ∧ ∃ i me session s1,
        resolveAuthFromToken 20 (getBearerToken (authorization req)) example_admin_in
        = (Some (i, me, session), s1)
        ∧ urole me = admin.
Proof.
  intros req.
  pose (out := default (Done, example_admin_in) (serve 20 PostUsers req example_admin_in)).
  assert (serve 20 PostUsers req example_admin_in = Some (out.1, out.2)) as Hserve
    by (vm_compute; reflexivity).
  assert ("tb" ∈ disclosed out.1) as Ht by (vm_compute; apply list_elem_of_here).
  exists out.1, out.2. split; [exact Hserve|]. split; [exact Ht|].
  exact (proj2 (full_token_only_on_write 20 PostUsers req example_admin_in
                  out.2 out.1 "tb" Hserve Ht)).
Defined.

(** X18: when the handler of [POST /api/users] answers with a user, that
    user carries its token (the trimmed one of the request when it gave one),
    the drawn identifier, the trimmed name, which is not empty, and the role of
    the request or operator; no user had the token before; the user is appended
    to the list and no session is touched; and a login with that token, unless
    it is the empty text, then succeeds as that user. *)
Theorem created_user_can_sign_in
    (now : Z) (req : Request) (actor : User) (s s' : State) (u : PublicUser) :
  postUsers now req actor s = Some (UserOf u, s') ->
  ∃ t,
    pu_token u = Some t
    ∧ (body_text req "token" ≠ "" -> t = body_text req "token")
    ∧ pu_id u = new_uuid req
    ∧ pu_name u = body_text req "name" ∧ pu_name u ≠ ""
    ∧ pu_role u = role_or (body_prop req "role") operator
    ∧ (∀ v, v ∈ users (config s) -> token v ≠ t)
    ∧ users (config s')
      = users (config s)
        ++ [{| id := pu_id u; name := pu_name u; urole := pu_role u; token := t;
               createdAt := SIso now; lastLoginAt := SNull |}]
    ∧ sessions s' = sessions s
    ∧ ∀ later req',
        body_text req' "token" = t -> t ≠ "" ->
        (postLogin later req' s').1
        = LoggedIn (new_session req')
            {| pu_id := pu_id u; pu_name := pu_name u; pu_role := pu_role u;
               pu_tokenPreview := maskToken t; pu_createdAt := SIso now;
               pu_lastLoginAt := SIso later; pu_token := None |}
            (getPermissions (pu_role u)).
Proof.
  unfold postUsers. cbv zeta.
  destruct (if String.eqb (body_text req "token") "" then head (new_tokens req)
            else Some (body_text req "token")) as [t|] eqn:Htok; [|done].
  destruct (String.eqb_spec (body_text req "name") "") as [Hnm|Hnm]; [done|].
  case_bool_decide as Hex; [done|]. intros [= <- <-].
  exists t. cbn [sanitizeUser pu_token pu_id pu_name pu_role id name urole token].
  assert (∀ v, v ∈ users (config s) -> token v ≠ t) as Hfresh.
  { intros v Hv Heq. apply Hex, Exists_exists. by exists v. }
  split_and!; try done.
  - intros Hne. apply String.eqb_neq in Hne. rewrite Hne in Htok. by injection Htok.
  - intros later req' Hreq Hne. unfold postLogin. cbv zeta. rewrite Hreq.
    apply String.eqb_neq in Hne. rewrite Hne.
    unfold findUserByToken.
    match goal with |- context [list_find ?P (users (config ?X))] =>
      change (users (config X))
        with (users (config s)
              ++ [{| id := new_uuid req; name := body_text req "name";
                     urole := role_or (body_prop req "role") operator; token := t;
                     createdAt := SIso now; lastLoginAt := SNull |}])
    end.
    rewrite list_find_app_r.
    2:{ apply list_find_None, Forall_forall. intros v Hv. by apply Hfresh. }
    simpl. case_decide; [|done]. simpl. reflexivity.
Qed.

Lemma created_user_can_sign_in_witness :
  let req := request (Some "Bearer sa") ""
               [("name", JStr " B "); ("role", JStr "owner"); ("token", JStr "tb")] "" in
  let actor := {| id := "a"; name := "Owner"; urole := admin; token := "ta";
                  createdAt := SIso 0; lastLoginAt := SIso 10 |} in
  let u := {| pu_id := "b"; pu_name := "B"; pu_role := operator; pu_tokenPreview := "t***";
              pu_createdAt := SIso 20; pu_lastLoginAt := SNull; pu_token := Some "tb" |} in
  ∃ s',
    postUsers 20 req actor example_admin_in = Some (UserOf u, s')
    ∧ (postLogin 30 (request None "" [("token", JStr "tb")] "sb") s').1
      = LoggedIn "sb"
          {| pu_id := "b"; pu_name := "B"; pu_role := operator; pu_tokenPreview := "t***";
             pu_createdAt := SIso 20; pu_lastLoginAt := SIso 30; pu_token := None |}
          (getPermissions operator).
Proof.
  intros req actor u.
  pose (s' := (default (Done, example_admin_in) (postUsers 20 req actor example_admin_in)).2).
  assert (postUsers 20 req actor example_admin_in = Some (UserOf u, s')) as Hp
    by (vm_compute; reflexivity).
  exists s'. split; [exact Hp|].
  destruct (created_user_can_sign_in 20 req actor example_admin_in s' u Hp)
    as (t & Ht & _ & _ & _ & _ & _ & _ & _ & _ & Hlogin).
  injection Ht as <-.
  apply (Hlogin 30 (request None "" [("token", JStr "tb")] "sb")); [reflexivity|discriminate].
Defined.

(** ** Loading the configuration *)

Lemma normalizeUser_named now uuid raw u :
  normalizeUser now uuid raw = Some u ->
  name u ≠ "" ∧ token u ≠ ""
  ∧ name u = trim (toString (or_else (prop raw "name") (JStr "")))
  ∧ token u = trim (toString (or_else (prop raw "token") (JStr "")))
  ∧ urole u = role_or (prop raw "role") viewer.
Proof.
  unfold normalizeUser. destruct raw as [|b|r|t|items|fs]; try done; cbv zeta.
  destruct (String.eqb_spec (trim (toString (or_else (prop (JObj fs) "name") (JStr "")))) "");
    [done|].
  destruct (String.eqb_spec (trim (toString (or_else (prop (JObj fs) "token") (JStr "")))) "");
    [done|].
  simpl. by intros [= <-].
Qed.

Lemma normalizeUsers_named now uuid i items :
  Forall (λ u, name u ≠ "" ∧ token u ≠ "") (normalizeUsers now uuid i items).
Proof.
  revert i. induction items as [|x items IH]; intros i; [constructor|].
  simpl. destruct (normalizeUser now (uuid i) x) as [u|] eqn:Hu; [|apply IH].
  constructor; [|apply IH]. apply normalizeUser_named in Hu. tauto.
Qed.

(** X19: when [loadConfig] returns, which it does not for a file holding
    [null], and the generated administrator token is not empty, the user list
    is not empty and every user has a name and a token that are not empty; a
    file with usable users gives exactly those; with no file the result is the
    default configuration and the one seeded administrator, whose token is
    [ADMIN_TOKEN] when that is set and not empty. *)
Theorem loaded_users_can_all_be_named (e : load_env) (c : Config) :
  loadConfig e = Some c -> admin_token e ≠ "" ->
  file e ≠ Some JNull
  ∧ users c ≠ []
  ∧ Forall (λ u, name u ≠ "" ∧ token u ≠ "") (users c)
  ∧ (loaded_users e ≠ [] -> users c = loaded_users e)
  ∧ (file e = None ->
     c = {| host := "yosef2903.aternos.me"; port := 39695; username := "AternosGuard";
            reconnectDelay := 15000; pingInterval := 45000; version := "1.20.1";
            users :=
              [{| id := uuid e 0; name := "Owner"; urole := admin;
                  token := match ADMIN_TOKEN e with
                           | Some t => if String.eqb t "" then admin_token e else t
                           | None => admin_token e
                           end;
                  createdAt := SIso (boot_time e); lastLoginAt := SNull |}] |}).
Proof.
  intros Hload Hadm. unfold loadConfig in Hload. cbv zeta in Hload.
  assert (file e ≠ Some JNull) as Hnull by (intros Hf; rewrite Hf in Hload; done).
  split; [exact Hnull|].
  assert (∃ seeded,
            users c = seeded
            ∧ seeded
              = match loaded_users e with
                | [] =>
                    [{| id := uuid e (match prop (default (JObj []) (file e)) "users" with
                                      | Some (JArr items) => length items
                                      | _ => 0%nat
                                      end);
                        name := "Owner"; urole := admin;
                        token := match ADMIN_TOKEN e with
                                 | Some t => if String.eqb t "" then admin_token e else t
                                 | None => admin_token e
                                 end;
                        createdAt := SIso (boot_time e); lastLoginAt := SNull |}]
                | _ => loaded_users e
                end) as (seeded & Hu & Hseed).
  { unfold loaded_users. destruct (file e) as [[]|]; try done; injection Hload as <-;
      eexists; split; reflexivity. }
  rewrite Hu, Hseed. split_and!.
  - destruct (loaded_users e); done.
  - destruct (loaded_users e) as [|u l] eqn:Hl.
    + constructor; [|constructor]. split; [done|]. simpl.
      destruct (ADMIN_TOKEN e) as [t|]; [|done].
      destruct (String.eqb_spec t ""); done.
    + rewrite <- Hl. unfold loaded_users.
      destruct (prop _ "users") as [[]|]; try constructor. apply normalizeUsers_named.
  - intros Hne. destruct (loaded_users e); done.
  - intros Hfile. rewrite Hfile in Hload. injection Hload as <-. reflexivity.
Qed.

Lemma loaded_users_can_all_be_named_witness :
  users example_config ≠ []
  ∧ Forall (λ u, name u ≠ "" ∧ token u ≠ "") (users example_config).
Proof.
  assert (loadConfig example_env = Some example_config) as Hload by reflexivity.
  assert (admin_token example_env ≠ "") as Hadm by discriminate.
  destruct (loaded_users_can_all_be_named example_env example_config Hload Hadm)
    as (_ & Hne & Hall & _).
  split; [exact Hne|exact Hall].
Defined.

(** ** Tokens stay distinct *)

Lemma keys_alter (f : User -> User) (i : nat) (l : list User) :
  (∀ u, id (f u) = id u) -> (∀ u, token (f u) = token u) ->
  id <$> alter f i l = id <$> l ∧ token <$> alter f i l = token <$> l.
Proof.
  intros Hid Htok. split.
  - rewrite (list_fmap_alter id f (λ x, x)); [by apply list_alter_id|].
    apply Forall_forall. intros u _. apply Hid.
  - rewrite (list_fmap_alter token f (λ x, x)); [by apply list_alter_id|].
    apply Forall_forall. intros u _. apply Htok.
Qed.

Lemma users_alter_distinct (f : User -> User) (i : nat) (l : list User) :
  (∀ u, id (f u) = id u) -> (∀ u, token (f u) = token u) ->
  distinct_users l -> distinct_users (alter f i l).
Proof.
  intros Hid Htok [H1 H2]. unfold distinct_users.
  destruct (keys_alter f i l Hid Htok) as [-> ->]. done.
Qed.

Lemma users_insert_distinct (i : nat) (u u' : User) (l : list User) :
  l !! i = Some u -> id u' = id u -> token u' = token u ->
  distinct_users l -> distinct_users (<[i := u']> l).
Proof.
  intros Hi Hid Htok [H1 H2]. unfold distinct_users.
  rewrite !list_fmap_insert, Hid, Htok.
  rewrite !list_insert_id; [done| |]; by rewrite list_lookup_fmap, Hi.
Qed.

Lemma users_set_token_distinct (i : nat) (t : string) (u : User) (l : list User) :
  distinct_users l -> l !! i = Some u ->
  ¬ Exists (λ v, id v ≠ id u ∧ token v = t) l ->
  distinct_users (alter (with_token t) i l).
Proof.
  intros [H1 H2] Hi Hfree. split.
  - rewrite (list_fmap_alter id (with_token t) (λ x, x)); [by rewrite list_alter_id|].
    by apply Forall_forall.
  - assert (∀ j v, j ≠ i -> l !! j = Some v -> token v ≠ t) as Hothers.
    { intros j v Hj Hv Heq. apply Hfree, Exists_exists. exists v.
      split; [by eapply list_elem_of_lookup_2|]. split; [|done].
      intros Hid. apply Hj. pose proof (proj1 (NoDup_alt _) H1) as H1'.
      apply (H1' j i (id v)); rewrite list_lookup_fmap; [by rewrite Hv|by rewrite Hi, Hid]. }
    apply NoDup_alt. intros a b x Ha Hb.
    rewrite list_lookup_fmap, list_lookup_alter in Ha.
    rewrite list_lookup_fmap, list_lookup_alter in Hb.
    destruct (decide (i = a)) as [<-|Hia], (decide (i = b)) as [<-|Hib]; [done| | |].
    + rewrite Hi in Ha. simpl in Ha. injection Ha as <-.
      destruct (l !! b) as [v|] eqn:Hv; [|done]. injection Hb as Hb.
      exfalso. by eapply (Hothers b v).
    + rewrite Hi in Hb. simpl in Hb. injection Hb as <-.
      destruct (l !! a) as [v|] eqn:Hv; [|done]. injection Ha as Ha.
      exfalso. by eapply (Hothers a v).
    + pose proof (proj1 (NoDup_alt _) H2) as H2'.
      apply (H2' a b x); by rewrite list_lookup_fmap.
Qed.

Lemma users_push_distinct (u : User) (l : list User) :
  distinct_users l -> id u ∉ id <$> l -> ¬ Exists (λ v, token v = token u) l ->
  distinct_users (l ++ [u]).
Proof.
  intros [H1 H2] Hid Htok. unfold distinct_users. rewrite !fmap_app.
  split; apply NoDup_app; (split; [done|]); (split; [|apply NoDup_singleton]).
  - intros x Hx Hin. apply list_elem_of_singleton in Hin as ->. done.
  - intros x Hx Hin. apply list_elem_of_singleton in Hin as ->.
    apply Htok, Exists_exists. apply list_elem_of_fmap in Hx as (v & Hv & Hin).
    by exists v.
Qed.

Lemma users_filter_distinct (P : User -> Prop) `{!∀ u, Decision (P u)} (l : list User) :
  distinct_users l -> distinct_users (filter P l).
Proof.
  intros [H1 H2]. split.
  - eapply sublist_NoDup; [exact H1|]. apply fmap_sublist, sublist_filter.
  - eapply sublist_NoDup; [exact H2|]. apply fmap_sublist, sublist_filter.
Qed.

Lemma users_finds_distinct (u : User) (l : list User) :
  distinct_users l -> u ∈ l -> ∃ i, list_find (λ v, token v = token u) l = Some (i, u).
Proof.
  intros [_ H2] Hu. apply list_elem_of_lookup in Hu as [i Hi]. exists i.
  apply list_find_Some. split; [done|]. split; [done|].
  intros j v Hv Hj Heq. pose proof (proj1 (NoDup_alt _) H2) as H2'.
  assert (j = i) as ->; [|lia].
  apply (H2' j i (token v)); rewrite list_lookup_fmap; [by rewrite Hv|by rewrite Hi, Heq].
Qed.

Lemma Distinct_config s s' : config s' = config s -> Distinct s -> Distinct s'.
Proof. unfold Distinct. by intros ->. Qed.

Lemma Distinct_postLogin now req s : Distinct s -> Distinct (postLogin now req s).2.
Proof.
  intros H. unfold postLogin. cbv zeta.
  destruct (String.eqb (body_text req "token") ""); [done|].
  destruct (findUserByToken _ s) as [[i u]|] eqn:Hfind; [|done].
  apply list_find_Some in Hfind as (Hi & _).
  unfold Distinct. cbn. by apply users_insert_distinct with (u := u).
Qed.

Lemma Distinct_postUsers now req actor s r s' :
  Distinct s -> new_uuid req ∉ id <$> users (config s) ->
  postUsers now req actor s = Some (r, s') -> Distinct s'.
Proof.
  intros H Hnew. unfold postUsers. cbv zeta.
  destruct (if String.eqb (body_text req "token") "" then _ else _) as [t|]; [|done].
  destruct (String.eqb (body_text req "name") ""); [by intros [= <- <-]|].
  case_bool_decide as Hex; [by intros [= <- <-]|]. intros [= <- <-].
  unfold Distinct. cbn. by apply users_push_distinct.
Qed.

Lemma Distinct_write i f s :
  (∀ u, id (f u) = id u) -> (∀ u, token (f u) = token u) ->
  Distinct s -> Distinct (write_user i f s).
Proof. intros Hid Htok H. unfold Distinct, write_user. cbn. by apply users_alter_distinct. Qed.

Lemma Distinct_write_token i t u s :
  Distinct s -> users (config s) !! i = Some u -> tokenTaken t (id u) s = false ->
  Distinct (write_user i (with_token t) s).
Proof.
  intros H Hi Hfree. unfold Distinct, write_user. cbn.
  apply users_set_token_distinct with (u := u); [done|done|].
  unfold tokenTaken in Hfree. by apply bool_decide_eq_false in Hfree.
Qed.

Lemma lookup_write i f s u :
  users (config s) !! i = Some u -> users (config (write_user i f s)) !! i = Some (f u).
Proof. intros Hi. unfold write_user. cbn. by rewrite list_lookup_alter_eq, Hi. Qed.

Lemma Distinct_patchFinish now req a target u inc rev s r s' :
  Distinct s -> users (config s) !! target = Some u ->
  patchFinish now req a target (id u) inc rev s = Some (r, s') -> Distinct s'.
Proof.
  intros H Hu. unfold patchFinish.
  destruct (body_prop req "rotateToken") as [[| [|] | | | |]|];
    try (repeat case_match; intros; simplify_eq; exact H).
  destruct (list_find _ (new_tokens req)) as [[k t]|] eqn:Hfind; [|done].
  apply list_find_Some in Hfind as (_ & Hfree & _).
  pose proof (Distinct_write_token target t u s H Hu Hfree) as H'.
  repeat case_match; intros; simplify_eq; exact H'.
Qed.

Lemma Distinct_patchUser now req a me s r s' :
  Distinct s -> patchUser now req a me s = Some (r, s') -> Distinct s'.
Proof.
  intros H. unfold patchUser.
  destruct (findUserById (params_id req) s) as [[i target]|] eqn:Hfind;
    [|by intros [= <- <-]].
  apply list_find_Some in Hfind as (Hi & _).
  destruct (_ && _); [by intros [= <- <-]|].
  destruct (_ && _ && _); [by intros [= <- <-]|].
  cbv zeta.
  match goal with
  | |- context [patchFinish _ _ _ _ _ _ _ ?X] =>
      assert (Distinct X ∧ ∃ u, users (config X) !! i = Some u ∧ id u = id target)
        as (H2 & u & Hu & Hid)
  end.
  { destruct (String.eqb (body_text req "name") ""),
      (negb (bool_decide (role_or (body_prop req "role") (urole target) = urole target)));
      (split; [by repeat apply Distinct_write|]); eexists;
      (split; [repeat apply lookup_write; exact Hi|reflexivity]). }
  rewrite <- Hid.
  destruct (String.eqb (body_text req "token") ""); [by apply Distinct_patchFinish|].
  destruct (tokenTaken _ _ _) eqn:Hfree; [by intros [= <- <-]|].
  apply (Distinct_patchFinish now req a i (with_token (body_text req "token") u)).
  - by apply Distinct_write_token with (u := u).
  - by apply lookup_write.
Qed.

Lemma Distinct_deleteUser now req me s : Distinct s -> Distinct (deleteUser now req me s).2.
Proof.
  intros H. unfold deleteUser. repeat case_match; try exact H.
  unfold Distinct. cbn. by apply users_filter_distinct.
Qed.

(** X20: if no two users share an identifier and no two share a token, and
    the identifier drawn for a new user is not in use, then that still holds
    after any request, whatever its answer; and then the token of each user
    finds that very user. *)
Theorem tokens_stay_distinct
    (now : Z) (route : Route) (req : Request) (s s' : State) (r : Reply) :
  Distinct s -> new_uuid req ∉ id <$> users (config s) ->
  serve now route req s = Some (r, s') ->
  Distinct s'
  ∧ ∀ u, u ∈ users (config s') -> ∃ i, findUserByToken (token u) s' = Some (i, u).
Proof.
  intros H Hnew Hserve.
  assert (Distinct s') as H'; [|split; [exact H'|intros u Hu; by apply users_finds_distinct]].
  assert (∀ perm k,
            (∀ i u s1 r s', config s1 = config s -> k i u s1 = Some (r, s') -> Distinct s') ->
            guarded now req perm s k = Some (r, s') -> Distinct s') as Hin.
  { intros perm k Hk Hg. apply guarded_cases in Hg as [[Hc _]|(i & u & s1 & Hc & _ & _ & Hg)].
    - by apply (Distinct_config s).
    - by eapply Hk. }
  destruct route; unfold serve in Hserve.
  - injection Hserve as Heq. pose proof (Distinct_postLogin now req s H) as Hd.
    by rewrite Heq in Hd.
  - revert Hserve. apply Hin. intros i u s1 r1 s1' Hc. unfold postLogout.
    case_match; intros [= <- <-]; by apply (Distinct_config s).
  - revert Hserve. apply Hin. intros i u s1 r1 s1' Hc [= <- <-]. by apply (Distinct_config s).
  - revert Hserve. apply Hin. intros i u s1 r1 s1' Hc [= <- <-]. by apply (Distinct_config s).
  - revert Hserve. apply Hin. intros i u s1 r1 s1' Hc [= <- <-]. by apply (Distinct_config s).
  - revert Hserve. apply Hin. intros i u s1 r1 s1' Hc.
    pose proof (SameConfig_startBot (config s) now (actor_of u) (thrown req) s1 Hc) as Hs.
    destruct (startBot now (actor_of u) (thrown req) s1). intros [= <- <-].
    by apply (Distinct_config s).
  - revert Hserve. apply Hin. intros i u s1 r1 s1' Hc.
    pose proof (SameConfig_stopBot (config s) now (actor_of u) s1 Hc) as Hs.
    destruct (stopBot now (actor_of u) s1). intros [= <- <-].
    by apply (Distinct_config s).
  - revert Hserve. apply Hin. intros i u s1 r1 s1' Hc.
    pose proof (SameConfig_restartBot (config s) now (actor_of u) s1 Hc) as Hs.
    destruct (restartBot now (actor_of u) s1). intros [= <- <-].
    by apply (Distinct_config s).
  - revert Hserve. apply Hin. intros i u s1 r1 s1' Hc [= <- <-]. by apply (Distinct_config s).
  - revert Hserve. apply Hin. intros i u s1 r1 s1' Hc. unfold postConfig.
    intros [= <- <-]. unfold Distinct. cbn. rewrite Hc. exact H.
  - revert Hserve. apply Hin. intros i u s1 r1 s1' Hc [= <- <-]. by apply (Distinct_config s).
  - revert Hserve. apply Hin. intros i u s1 r1 s1' Hc.
    apply Distinct_postUsers; [by apply (Distinct_config s)|by rewrite Hc].
  - revert Hserve. apply Hin. intros i u s1 r1 s1' Hc.
    apply Distinct_patchUser. by apply (Distinct_config s).
  - revert Hserve. apply Hin. intros i u s1 r1 s1' Hc [= Heq].
    pose proof (Distinct_deleteUser now req u s1 (Distinct_config s s1 Hc H)) as Hd.
    by rewrite Heq in Hd.
Qed.

Lemma tokens_stay_distinct_witness :
  let req := request (Some "Bearer sa") ""
               [("name", JStr "B"); ("role", JStr "operator"); ("token", JStr "tb")] "" in
  Distinct example_admin_in
  ∧ (new_uuid req ∉ id <$> users (config example_admin_in))
  ∧ Distinct example_two_users
  ∧ ∀ u, u ∈ users (config example_two_users) ->
         ∃ i, findUserByToken (token u) example_two_users = Some (i, u).
Proof.
  intros req.
  assert (Distinct example_admin_in) as Hd.
  { split.
    - change (NoDup ["a"]). apply NoDup_singleton.
    - change (NoDup ["ta"]). apply NoDup_singleton. }
  assert (new_uuid req ∉ id <$> users (config example_admin_in)) as Hnew.
  { change ("b" ∉ ["a"]). intros H%list_elem_of_singleton. discriminate H. }
  pose (out := default (Done, example_admin_in) (serve 20 PostUsers req example_admin_in)).
  assert (serve 20 PostUsers req example_admin_in = Some (out.1, example_two_users)) as Hserve
    by (vm_compute; reflexivity).
  split; [exact Hd|]. split; [exact Hnew|].
  exact (tokens_stay_distinct 20 PostUsers req example_admin_in example_two_users out.1
           Hd Hnew Hserve).
Defined.

(** ** Reading *)



(** ** The first start *)



(** ** Changing a user *)

Lemma patchFinish_result now req a i tid inc rev s r s' v :
  patchFinish now req a i tid inc rev s = Some (r, s') ->
  users (config s) !! i = Some v ->
  ∃ v',
    users (config s') !! i = Some v'
    ∧ length (users (config s')) = length (users (config s))
    ∧ id v' = id v ∧ name v' = name v ∧ urole v' = urole v
    ∧ ((body_prop req "rotateToken" = Some (JBool true)
        ∧ r = UserOf (sanitizeUser v' true)
        ∧ token v' ∈ new_tokens req
        ∧ tokenTaken (token v') tid s = false
        ∧ sessions s' = filter (λ kv, userId kv.2 ≠ tid) (sessions s))
       ∨ (body_prop req "rotateToken" ≠ Some (JBool true)
          ∧ r = UserOf (sanitizeUser v' inc)
          ∧ token v' = token v
          ∧ sessions s' = if rev then filter (λ kv, userId kv.2 ≠ tid) (sessions s)
                          else sessions s)).
Proof.
  unfold patchFinish. intros H Hv.
  destruct (body_prop req "rotateToken") as [[| [|] | | | |]|] eqn:Hrot.
  2:{ destruct (list_find _ (new_tokens req)) as [[k t]|] eqn:Hfind; [|done].
      apply list_find_Some in Hfind as (Hk & Hfree & _).
      pose proof (lookup_write i (with_token t) s v Hv) as Hv'.
      cbv zeta in H. cbn [revokeSessionsForUser] in H.
      change (users (config (revokeSessionsForUser tid (write_user i (with_token t) s))))
        with (users (config (write_user i (with_token t) s))) in H.
      rewrite Hv' in H.
      destruct (users (config (write_user i (with_token t) s)) !! a); [|done].
      injection H as <- <-. exists (with_token t v).
      split; [exact Hv'|]. split; [unfold write_user; cbn; by rewrite length_alter|].
      split_and!; try done. left. split_and!; try done.
      by eapply list_elem_of_lookup_2. }
  all: cbv zeta in H; destruct rev;
    [change (users (config (revokeSessionsForUser tid s))) with (users (config s)) in H|];
    rewrite Hv in H; destruct (users (config s) !! a); [|done| |done];
    injection H as <- <-; exists v; (split; [exact Hv|]); (split; [reflexivity|]);
    split_and!; try done; right; split_and!; done.
Qed.

(** X23: when the handler of [PATCH /api/users/:id] answers with a user, the
    user list has the same length and the target, still at its position and
    with its identifier, has the trimmed name of the request when that is not
    empty, and the role of the request when that is valid (the administrator
    role if the target is [req.user]).  On a rotation the token is one of the
    generated ones, it is disclosed and the target's sessions are revoked; else
    with a token supplied it is that token, disclosed, and the sessions are
    revoked; else the token stays, is not disclosed, and the sessions are
    revoked exactly when the role changed. *)
Theorem successful_update_takes_effect
    (now : Z) (req : Request) (a : nat) (me : User) (s s' : State) (i : nat)
    (target : User) (u : PublicUser) :
  findUserById (params_id req) s = Some (i, target) ->
  patchUser now req a me s = Some (UserOf u, s') ->
  let nextRole := role_or (body_prop req "role") (urole target) in
  let nextName := body_text req "name" in
  let providedToken := body_text req "token" in
  let revoked := filter (λ kv, userId kv.2 ≠ id target) (sessions s) in
  ∃ v,
    users (config s') !! i = Some v
    ∧ length (users (config s')) = length (users (config s))
    ∧ id v = id target
    ∧ name v = (if String.eqb nextName "" then name target else nextName)
    ∧ urole v = nextRole
    ∧ (id target = id me -> nextRole = admin)
    ∧ ((body_prop req "rotateToken" = Some (JBool true)
        ∧ u = sanitizeUser v true ∧ token v ∈ new_tokens req ∧ sessions s' = revoked)
       ∨ (body_prop req "rotateToken" ≠ Some (JBool true) ∧ providedToken ≠ ""
          ∧ u = sanitizeUser v true ∧ token v = providedToken ∧ sessions s' = revoked)
       ∨ (body_prop req "rotateToken" ≠ Some (JBool true) ∧ providedToken = ""
          ∧ u = sanitizeUser v false ∧ token v = token target
          ∧ sessions s' = if bool_decide (nextRole = urole target) then sessions s
                          else revoked)).
Proof.
  intros Hfind Hpatch. cbv zeta. unfold patchUser in Hpatch. rewrite Hfind in Hpatch.
  apply list_find_Some in Hfind as (Hi & _).
  destruct (bool_decide (id target = id me)
            && negb (bool_decide (role_or (body_prop req "role") (urole target) = admin)))
    eqn:Hself; [done|].
  destruct (_ && _ && _); [done|]. cbv zeta in Hpatch.
  assert (id target = id me -> role_or (body_prop req "role") (urole target) = admin)
    as Hkeep.
  { intros Hme. apply andb_false_iff in Hself as [Hf|Hf].
    - by apply bool_decide_eq_false in Hf.
    - apply negb_false_iff in Hf. by apply bool_decide_eq_true in Hf. }
  match type of Hpatch with
  | context [patchFinish _ _ _ _ _ _ _ ?X] =>
      assert (∃ vb, users (config X) !! i = Some vb
                    ∧ length (users (config X)) = length (users (config s))
                    ∧ id vb = id target
                    ∧ name vb = (if String.eqb (body_text req "name") "" then name target
                                 else body_text req "name")
                    ∧ urole vb = role_or (body_prop req "role") (urole target)
                    ∧ token vb = token target
                    ∧ sessions X = sessions s)
        as (vb & Hvb & Hlen & Hid & Hname & Hrole & Htok & Hses);
      [|revert Hvb Hlen Hses Hpatch; generalize X; intros sb Hvb Hlen Hses Hpatch]
  end.
  { destruct (String.eqb (body_text req "name") ""); case_bool_decide as Hr; cbn [negb];
      eexists; (split; [repeat apply lookup_write; exact Hi|]);
      unfold write_user; cbn; rewrite ?length_alter; split_and!; done. }
  destruct (String.eqb_spec (body_text req "token") "") as [Hempty|Hgiven].
  - destruct (patchFinish_result _ _ _ _ _ _ _ _ _ _ vb Hpatch Hvb)
      as (v & Hv & Hlen' & Hid' & Hname' & Hrole' & Hcase).
    exists v. split_and!; [done|congruence|congruence|congruence|congruence|done|].
    destruct Hcase as [(Hrot & [= ->] & Hin & _ & Hs')|(Hrot & [= ->] & Htok' & Hs')].
    + left. rewrite Hs', Hses. done.
    + right. right. split_and!; [done|done|done|congruence|].
      rewrite Hs', Hses. by case_bool_decide.
  - destruct (tokenTaken _ _ _); [done|].
    pose proof (lookup_write i (with_token (body_text req "token")) sb vb Hvb) as Hvt.
    destruct (patchFinish_result _ _ _ _ _ _ _ _ _ _ _ Hpatch Hvt)
      as (v & Hv & Hlen' & Hid' & Hname' & Hrole' & Hcase).
    assert (length (users (config (write_user i (with_token (body_text req "token")) sb)))
            = length (users (config s))) as Hlen2
      by (unfold write_user; cbn; by rewrite length_alter).
    exists v. split_and!; [done|congruence| | | |done|].
    + rewrite Hid'. exact Hid.
    + rewrite Hname'. exact Hname.
    + rewrite Hrole'. exact Hrole.
    + destruct Hcase as [(Hrot & [= ->] & Hin & _ & Hs')|(Hrot & [= ->] & Htok' & Hs')].
      * left. rewrite Hs'. change (sessions (write_user _ _ sb)) with (sessions sb).
        by rewrite Hses.
      * right. left. split_and!; [done|done|done|exact Htok'|].
        rewrite Hs'. change (sessions (write_user _ _ sb)) with (sessions sb).
        by rewrite Hses.
Qed.

Lemma successful_update_takes_effect_witness :
  let req := request (Some "Bearer sa") "b" [("role", JStr "viewer")] "" in
  let me := {| id := "a"; name := "Owner"; urole := admin; token := "ta";
               createdAt := SIso 0; lastLoginAt := SIso 10 |} in
  let target := {| id := "b"; name := "B"; urole := operator; token := "tb";
                   createdAt := SIso 20; lastLoginAt := SIso 30 |} in
  let u := {| pu_id := "b"; pu_name := "B"; pu_role := viewer; pu_tokenPreview := "t***";
              pu_createdAt := SIso 20; pu_lastLoginAt := SIso 30; pu_token := None |} in
  ∃ s',
    patchUser 40 req 0 me example_both_in = Some (UserOf u, s')
    ∧ ∃ v, users (config s') !! 1%nat = Some v ∧ urole v = viewer.
Proof.
  intros req me target u.
  pose (s' := (default (Done, example_both_in) (patchUser 40 req 0 me example_both_in)).2).
  assert (findUserById (params_id req) example_both_in = Some (1%nat, target)) as Hfind
    by (vm_compute; reflexivity).
  assert (patchUser 40 req 0 me example_both_in = Some (UserOf u, s')) as Hpatch
    by (vm_compute; reflexivity).
  exists s'. split; [exact Hpatch|].
  destruct (successful_update_takes_effect 40 req 0 me example_both_in s' 1 target u
              Hfind Hpatch) as (v & Hv & _ & _ & _ & Hrole & _).
  exists v. split; [exact Hv|exact Hrole].
Defined.
